(** * The entity layer of the mini banking project, embedded in Rocq

    Source: [bank_miniproject_interactive.py].  The Python classes
    [BankDatabase], [BaseEntity], [Customer], [Account], [Employee], [Loan],
    [CreditCard] and the two enrolment functions of [BankSystem] are
    translated one definition per method.

    Modelling conventions.
    - A Python [float] is an IEEE-754 binary64 value: Rocq's primitive
      [float], with the same rounding, infinities and NaN.  [a <= b] is
      [PrimFloat.leb], [a > b] is [PrimFloat.ltb b a].
    - A Python [int] is [Z]; [Optional[int]] is [option Z]; truthiness of an
      [Optional[int]] ([if new_id:]) is [truthy].
    - A [str] is a [string], read as a sequence of code points below 256.
    - Objects are mutable in Python; here every method returns the updated
      snapshot next to its result.
    - The SQLite file, the log, the wall clock and the engine's failures make
      up the [world] that every method threads through.  Whether the engine
      raises [sqlite3.Error] on a statement (I/O error, locked file,
      constraint violation) is read from the world's [faults]: the code only
      observes that [_execute_dml] returned [None]. *)

From Stdlib Require Import ZArith Bool List String Ascii Lia Floats.
From stdpp Require Import gmap strings.

#[local] Set Warnings "-inexact-float".
#[local] Open Scope Z_scope.

(** ** Python values *)

(** [bool(x)] for an [Optional[int]]: [None] and [0] are false. *)
Definition truthy (x : option Z) : bool :=
  match x with
  | None => false
  | Some n => negb (n =? 0)
  end.

(** An integer that SQLite can bind: 64 bits, signed. *)
Definition sqlite_integer (k : Z) : Prop :=
  -9223372036854775808 <= k <= 9223372036854775807.

(** [str.isspace] on one code point below 256. *)
Definition is_space (c : ascii) : bool :=
  let n := N_of_ascii c in
  ((9 <=? n)%N && (n <=? 13)%N) || ((28 <=? n)%N && (n <=? 32)%N)
  || (n =? 133)%N || (n =? 160)%N.

Fixpoint lstrip (s : string) : string :=
  match s with
  | EmptyString => EmptyString
  | String c s' => if is_space c then lstrip s' else s
  end.

Fixpoint rstrip (s : string) : string :=
  match s with
  | EmptyString => EmptyString
  | String c s' =>
      match rstrip s' with
      | EmptyString => if is_space c then EmptyString else String c EmptyString
      | t => String c t
      end
  end.

(** [s.strip()] *)
Definition strip (s : string) : string := rstrip (lstrip s).

(** [not s] for a string. *)
Definition str_empty (s : string) : bool :=
  match s with EmptyString => true | _ => false end.

(** ** Binary64 numbers

    The primitive operations are specified by [SpecFloat]: a number is a
    zero, an infinity, NaN, or [(-1)^s * m * 2^e]. *)

Module Binary64.

(** The value of a finite number, counted in units of [2 ^ -1074]: an
    integer for every binary64 number. *)
Definition SF2Z (x : spec_float) : Z :=
  match x with
  | S754_finite s m e => cond_Zopp s (Z.pos m * 2 ^ (e + 1074))
  | _ => 0
  end.

Definition SFfinite (x : spec_float) : bool :=
  match x with
  | S754_zero _ | S754_finite _ _ _ => true
  | _ => false
  end.

(** [0 <= x] *)
Definition SFnonneg (x : spec_float) : bool :=
  match x with
  | S754_zero _ | S754_infinity false | S754_finite false _ _ => true
  | _ => false
  end.

(** The sign carried by a number, when it has one. *)
Definition SFsign_is (sx : bool) (x : spec_float) : Prop :=
  match x with
  | S754_zero s | S754_infinity s | S754_finite s _ _ => s = sx
  | S754_nan => False
  end.

Definition scaled (x : float) : Z := SF2Z (Prim2SF x).

(** [v], counted in units of [2 ^ -1074], is the value of a finite float. *)
Definition representable (v : Z) : Prop :=
  exists c : float, is_finite c = true /\ scaled c = v.

(** What [j] right shifts of the mantissa [m0] leave in a shift record: the
    quotient by [2 ^ j], and in the round and sticky bits how twice the
    remainder [T] compares with [2 ^ j]. *)
Definition shr_inv (m0 j : Z) (r : shr_record) : Prop :=
  0 <= shr_m r /\
  exists T, 0 <= T < 2 * 2 ^ j /\ 2 * m0 = 2 * shr_m r * 2 ^ j + T /\
    (shr_r r = true <-> 2 ^ j <= T) /\ (shr_s r = false <-> (T = 0 \/ T = 2 ^ j)).

End Binary64.

(** ** The log *)

Inductive level := INFO | WARNING | ERROR.

(** One constructor per message the entity layer writes; the interpolated
    values are kept as data instead of being formatted. *)
Inductive message :=
  | SqlFetchFailed
  | SqlDmlFailed
  | CustomerAddressUpdated (customer_id : option Z)
  | CustomerSaved (first_name last_name : string) (new_id : option Z)
  | CustomerNamesRequired
  | CustomerNotFound (customer_id : Z)
  | AccountNotFound (account_id : Z)
  | DepositNotPositive (account_id : option Z)
  | Deposited (account_id : option Z) (amount balance : float)
  | WithdrawalNotPositive (account_id : option Z)
  | InsufficientFunds (account_id : option Z) (needed has : float)
  | Withdrew (account_id : option Z) (amount balance : float)
  | AccountOpened (account_type : string) (new_id customer_id : option Z)
  | EmployeeOnboarded (first_name last_name : string) (new_id : option Z)
  | SalaryNotANumber
  | LoanApproved (loan_id customer_id : option Z)
  | LoanNotApproved (loan_id : option Z) (status : string)
  | LoanSubmitted (amount : float) (new_id : option Z)
  | PurchaseNotPositive
  | PurchaseExceedsCredit (card_id : option Z) (available : float)
  | PurchaseDone (card_id : option Z) (amount debt : float)
  | CardIssued (credit_limit : float) (new_id customer_id : option Z).

(** ** The persisted tables *)

Record customer_row := {
  c_first_name : string; c_last_name : string;
  c_address : string; c_join_date : string }.

Record account_row := {
  a_customer_id : option Z; a_balance : float;
  a_account_type : string; a_is_active : Z }.

Record transaction_row := {
  t_account_id : option Z; t_txn_type : string;
  t_amount : float; t_timestamp : string }.

(** [salary REAL] is the one nullable number: [None] is [NULL]. *)
Record employee_row := {
  e_first_name : string; e_last_name : string;
  e_position : string; e_salary : option float }.

Record loan_row := {
  l_customer_id : option Z; l_amount : float;
  l_interest_rate : float; l_status : string }.

Record card_row := {
  k_customer_id : option Z; k_credit_limit : float;
  k_current_debt : float; k_is_active : Z }.

(** A table with an [INTEGER PRIMARY KEY AUTOINCREMENT] key: its rows, and
    the largest key handed out so far. *)
Record table (R : Type) := { rows : gmap Z R; seq : Z }.
Arguments rows {R} _.
Arguments seq {R} _.

Definition empty_table {R} : table R := {| rows := ∅; seq := 0 |}.

(** [INSERT]: the new key is [seq + 1]. *)
Definition insert_row {R} (r : R) (t : table R) : table R * Z :=
  let k := seq t + 1 in ({| rows := <[k := r]> (rows t); seq := k |}, k).

(** [UPDATE ... WHERE key = ?]: [key = NULL] selects no row, and so does a
    key that is absent. *)
Definition update_row {R} (f : R -> R) (key : option Z) (t : table R) : table R :=
  match key with
  | None => t
  | Some k => {| rows := alter f k (rows t); seq := seq t |}
  end.

Record tables := {
  customers : table customer_row;
  accounts : table account_row;
  transactions : table transaction_row;
  employees : table employee_row;
  loans : table loan_row;
  credit_cards : table card_row }.

(** [BankDatabase.create_tables] on a fresh file. *)
Definition create_tables : tables :=
  {| customers := empty_table; accounts := empty_table;
     transactions := empty_table; employees := empty_table;
     loans := empty_table; credit_cards := empty_table |}.

(** The statements the entity layer sends, with their bound parameters. *)
Inductive dml :=
  | InsertCustomer (first_name last_name address join_date : string)
  | UpdateCustomerAddress (address : string) (customer_id : option Z)
  | InsertAccount (customer_id : option Z) (balance : float) (account_type : string)
  | UpdateBalanceAdd (amount : float) (account_id : option Z)
  | UpdateBalanceSub (amount : float) (account_id : option Z)
  | InsertTransaction (account_id : option Z) (txn_type : string)
      (amount : float) (timestamp : string)
  | InsertEmployee (first_name last_name position : string) (salary : float)
  | InsertLoan (customer_id : option Z) (amount interest_rate : float) (status : string)
  | UpdateLoanStatus (status : string) (loan_id : option Z)
  | InsertCreditCard (customer_id : option Z) (credit_limit current_debt : float)
  | UpdateCardDebt (current_debt : float) (card_id : option Z).

(** [sql.strip().upper().startswith("INSERT")] *)
Definition is_insert (q : dml) : bool :=
  match q with
  | InsertCustomer _ _ _ _ | InsertAccount _ _ _ | InsertTransaction _ _ _ _
  | InsertEmployee _ _ _ _ | InsertLoan _ _ _ _ | InsertCreditCard _ _ _ => true
  | _ => false
  end.

Definition set_customers f (d : tables) : tables :=
  {| customers := f (customers d); accounts := accounts d;
     transactions := transactions d; employees := employees d;
     loans := loans d; credit_cards := credit_cards d |}.
Definition set_accounts f (d : tables) : tables :=
  {| customers := customers d; accounts := f (accounts d);
     transactions := transactions d; employees := employees d;
     loans := loans d; credit_cards := credit_cards d |}.
Definition set_transactions f (d : tables) : tables :=
  {| customers := customers d; accounts := accounts d;
     transactions := f (transactions d); employees := employees d;
     loans := loans d; credit_cards := credit_cards d |}.
Definition set_employees f (d : tables) : tables :=
  {| customers := customers d; accounts := accounts d;
     transactions := transactions d; employees := f (employees d);
     loans := loans d; credit_cards := credit_cards d |}.
Definition set_loans f (d : tables) : tables :=
  {| customers := customers d; accounts := accounts d;
     transactions := transactions d; employees := employees d;
     loans := f (loans d); credit_cards := credit_cards d |}.
Definition set_credit_cards f (d : tables) : tables :=
  {| customers := customers d; accounts := accounts d;
     transactions := transactions d; employees := employees d;
     loans := loans d; credit_cards := f (credit_cards d) |}.

Definition with_balance (f : float -> float) (r : account_row) : account_row :=
  {| a_customer_id := a_customer_id r; a_balance := f (a_balance r);
     a_account_type := a_account_type r; a_is_active := a_is_active r |}.
Definition with_address (s : string) (r : customer_row) : customer_row :=
  {| c_first_name := c_first_name r; c_last_name := c_last_name r;
     c_address := s; c_join_date := c_join_date r |}.
Definition with_status (s : string) (r : loan_row) : loan_row :=
  {| l_customer_id := l_customer_id r; l_amount := l_amount r;
     l_interest_rate := l_interest_rate r; l_status := s |}.
Definition with_debt (x : float) (r : card_row) : card_row :=
  {| k_customer_id := k_customer_id r; k_credit_limit := k_credit_limit r;
     k_current_debt := x; k_is_active := k_is_active r |}.

(** [cursor.execute(sql, params); conn.commit()] when the engine accepts the
    statement: the new tables and [cursor.lastrowid].  The engine binds NaN
    as [NULL]: the nullable [salary] stores it so, and in the other number
    columns, all [NOT NULL], such a statement is never accepted.  The
    tables here keep a number as it is given; the engine gives a stored
    [-0.0] back as [0.0], so what is read back from a number column is
    compared with [=?]. *)
Definition execute (q : dml) (d : tables) : tables * Z :=
  let ins {R} (r : R) (get : tables -> table R)
          (set : (table R -> table R) -> tables -> tables) :=
    let '(t, k) := insert_row r (get d) in (set (fun _ => t) d, k) in
  match q with
  | InsertCustomer f l a j =>
      ins {| c_first_name := f; c_last_name := l; c_address := a; c_join_date := j |}
          customers set_customers
  | UpdateCustomerAddress a k =>
      (set_customers (update_row (with_address a) k) d, 0)
  | InsertAccount c b ty =>
      ins {| a_customer_id := c; a_balance := b; a_account_type := ty; a_is_active := 1 |}
          accounts set_accounts
  | UpdateBalanceAdd x k =>
      (set_accounts (update_row (with_balance (fun b => b + x)%float) k) d, 0)
  | UpdateBalanceSub x k =>
      (set_accounts (update_row (with_balance (fun b => b - x)%float) k) d, 0)
  | InsertTransaction a ty x ts =>
      ins {| t_account_id := a; t_txn_type := ty; t_amount := x; t_timestamp := ts |}
          transactions set_transactions
  | InsertEmployee f l p s =>
      ins {| e_first_name := f; e_last_name := l; e_position := p;
             e_salary := if is_nan s then None else Some s |}
          employees set_employees
  | InsertLoan c x r s =>
      ins {| l_customer_id := c; l_amount := x; l_interest_rate := r; l_status := s |}
          loans set_loans
  | UpdateLoanStatus s k =>
      (set_loans (update_row (with_status s) k) d, 0)
  | InsertCreditCard c lim debt =>
      ins {| k_customer_id := c; k_credit_limit := lim; k_current_debt := debt; k_is_active := 1 |}
          credit_cards set_credit_cards
  | UpdateCardDebt x k =>
      (set_credit_cards (update_row (with_debt x) k) d, 0)
  end.

(** ** The world and its monad *)

Record world := {
  db : tables;               (* the SQLite file behind [BankDatabase.conn] *)
  faults : list bool;        (* per statement to come: does the engine raise? *)
  clock : list string;       (* readings of the wall clock to come *)
  log : list (level * message) (* the log, oldest entry first *) }.

Definition set_db (d : tables) (w : world) : world :=
  {| db := d; faults := faults w; clock := clock w; log := log w |}.
Definition set_faults (fs : list bool) (w : world) : world :=
  {| db := db w; faults := fs; clock := clock w; log := log w |}.
Definition set_clock (ts : list string) (w : world) : world :=
  {| db := db w; faults := faults w; clock := ts; log := log w |}.

(** The world after the entries [es] were written to the log. *)
Definition logged (es : list (level * message)) (w : world) : world :=
  {| db := db w; faults := faults w; clock := clock w; log := log w ++ es |}.

Definition M (A : Type) : Type := world -> A * world.

Definition ret {A} (a : A) : M A := fun w => (a, w).
Definition bind {A B} (m : M A) (k : A -> M B) : M B :=
  fun w => let '(a, w') := m w in k a w'.

Notation "'let*' x := m 'in' k" := (bind m (fun x => k))
  (at level 10, x name, m at level 100, k at level 200).
Notation "m ;; k" := (bind m (fun _ => k))
  (at level 100, k at level 200, right associativity).

Module logging.

Definition emit (l : level) (m : message) : M unit :=
  fun w => (tt, logged [(l, m)] w).
Definition info : message -> M unit := emit INFO.
Definition warning : message -> M unit := emit WARNING.
Definition error : message -> M unit := emit ERROR.

End logging.

(** [datetime.datetime.now().isoformat()], [datetime.date.today().isoformat()]:
    the next reading of the clock. *)
Definition now : M string :=
  fun w => (List.hd EmptyString (clock w), set_clock (List.tl (clock w)) w).

(** The engine's verdict on the next statement: [true] when it raises
    [sqlite3.Error]; a world that lists no verdict accepts the statement. *)
Definition next_fault : M bool :=
  fun w => (List.hd false (faults w), set_faults (List.tl (faults w)) w).

(** [cursor.execute(sql, params); conn.commit(); cursor.lastrowid] *)
Definition commit (q : dml) : M Z :=
  fun w => (snd (execute q (db w)), set_db (fst (execute q (db w))) w).

Module BaseEntity.

(** [BaseEntity._execute_dml]: [None] when the engine raised, the new key
    after an [INSERT], [1] after an [UPDATE].  Keys among the parameters are
    taken within SQLite's 64-bit range, as the keys the engine hands out
    are: outside it [cursor.execute] raises [OverflowError], which is not an
    [sqlite3.Error] and is not caught here. *)
Definition _execute_dml (q : dml) : M (option Z) :=
  let* raised := next_fault in
  if raised : bool then
    logging.error SqlDmlFailed ;; ret None
  else
    let* lastrowid := commit q in
    if is_insert q then ret (Some lastrowid) else ret (Some 1).

(** [BaseEntity._fetch_record] on the table [get]: the row stored under
    [id_value], [None] when there is none or when the engine raised.  This
    is the method for an [id_value] within SQLite's 64-bit range
    ([sqlite_integer]): outside it [cursor.execute] raises [OverflowError],
    which is not an [sqlite3.Error] and is not caught here. *)
Definition _fetch_record {R} (get : tables -> table R) (id_value : Z) : M (option R) :=
  let* raised := next_fault in
  if raised : bool then
    logging.error SqlFetchFailed ;; ret None
  else
    fun w => (rows (get (db w)) !! id_value, w).

End BaseEntity.

(** ** Customer *)

Module Customer.

Record t := {
  _customer_id : option Z; _first_name : string; _last_name : string;
  _address : string; _join_date : string }.

(** [Customer.__init__]: a missing or empty [join_date] is today's date. *)
Definition __init__ (customer_id : option Z) (first_name last_name address : string)
    (join_date : option string) : M t :=
  let* d := match join_date with
            | Some j => if str_empty j then now else ret j
            | None => now
            end in
  ret {| _customer_id := customer_id; _first_name := first_name;
         _last_name := last_name; _address := address; _join_date := d |}.

Definition set_customer_id (k : option Z) (self : t) : t :=
  {| _customer_id := k; _first_name := _first_name self;
     _last_name := _last_name self; _address := _address self;
     _join_date := _join_date self |}.

Definition set_address_field (s : string) (self : t) : t :=
  {| _customer_id := _customer_id self; _first_name := _first_name self;
     _last_name := _last_name self; _address := s;
     _join_date := _join_date self |}.

(** The setter of [Customer.address]: the snapshot first, then the row of a
    saved customer. *)
Definition set_address (self : t) (new_address : string) : M t :=
  let self := set_address_field new_address self in
  if truthy (_customer_id self) then
    let* r := BaseEntity._execute_dml
        (UpdateCustomerAddress new_address (_customer_id self)) in
    if truthy r then
      logging.info (CustomerAddressUpdated (_customer_id self)) ;; ret self
    else ret self
  else ret self.

(** [Customer.save_new] *)
Definition save_new (self : t) : M (option Z * t) :=
  let* new_id := BaseEntity._execute_dml
      (InsertCustomer (_first_name self) (_last_name self) (_address self)
         (_join_date self)) in
  if truthy new_id then
    let self := set_customer_id new_id self in
    logging.info (CustomerSaved (_first_name self) (_last_name self) new_id) ;;
    ret (new_id, self)
  else ret (new_id, self).

(** [Customer.load]: [cls(db)] builds an object to fetch with, which reads
    the clock for its own [join_date]; the object returned is built by
    [__init__] from the columns of the row. *)
Definition load (customer_id : Z) : M (option t) :=
  let* fetcher := __init__ None EmptyString EmptyString EmptyString None in
  let* record := BaseEntity._fetch_record customers customer_id in
  match record with
  | Some r =>
      let* customer := __init__ (Some customer_id) (c_first_name r) (c_last_name r)
                         (c_address r) (Some (c_join_date r)) in
      ret (Some customer)
  | None => logging.warning (CustomerNotFound customer_id) ;; ret None
  end.

End Customer.

(** ** Account *)

Module Account.

Record t := {
  _account_id : option Z; _customer_id : option Z; _balance : float;
  _account_type : string; _is_active : Z }.

Definition set_balance (b : float) (self : t) : t :=
  {| _account_id := _account_id self; _customer_id := _customer_id self;
     _balance := b; _account_type := _account_type self;
     _is_active := _is_active self |}.

Definition set_account_id (k : option Z) (self : t) : t :=
  {| _account_id := k; _customer_id := _customer_id self;
     _balance := _balance self; _account_type := _account_type self;
     _is_active := _is_active self |}.

(** [Account._record_transaction]: the result of the insert is dropped. *)
Definition _record_transaction (self : t) (txn_type : string) (amount : float) : M unit :=
  let* timestamp := now in
  BaseEntity._execute_dml
    (InsertTransaction (_account_id self) txn_type amount timestamp) ;;
  ret tt.

(** [Account.deposit] *)
Definition deposit (self : t) (amount : float) : M (bool * t) :=
  if (amount <=? 0)%float then
    logging.warning (DepositNotPositive (_account_id self)) ;;
    ret (false, self)
  else
    let* r := BaseEntity._execute_dml (UpdateBalanceAdd amount (_account_id self)) in
    if truthy r then
      let self := set_balance (_balance self + amount)%float self in
      _record_transaction self "Deposit" amount ;;
      logging.info (Deposited (_account_id self) amount (_balance self)) ;;
      ret (true, self)
    else ret (false, self).

(** [Account.withdraw] *)
Definition withdraw (self : t) (amount : float) : M (bool * t) :=
  if (amount <=? 0)%float then
    logging.warning (WithdrawalNotPositive (_account_id self)) ;;
    ret (false, self)
  else if (_balance self <? amount)%float then
    logging.warning (InsufficientFunds (_account_id self) amount (_balance self)) ;;
    ret (false, self)
  else
    let* r := BaseEntity._execute_dml (UpdateBalanceSub amount (_account_id self)) in
    if truthy r then
      let self := set_balance (_balance self - amount)%float self in
      _record_transaction self "Withdrawal" amount ;;
      logging.info (Withdrew (_account_id self) amount (_balance self)) ;;
      ret (true, self)
    else ret (false, self).

(** [Account.save_new] *)
Definition save_new (self : t) : M (option Z * t) :=
  let* new_id := BaseEntity._execute_dml
      (InsertAccount (_customer_id self) (_balance self) (_account_type self)) in
  if truthy new_id then
    let self := set_account_id new_id self in
    logging.info (AccountOpened (_account_type self) new_id (_customer_id self)) ;;
    ret (new_id, self)
  else ret (new_id, self).

(** The snapshot [Account.load] builds from the row stored under [k]. *)
Definition of_row (k : Z) (r : account_row) : t :=
  {| _account_id := Some k; _customer_id := a_customer_id r;
     _balance := a_balance r; _account_type := a_account_type r;
     _is_active := a_is_active r |}.

(** [Account.load] *)
Definition load (account_id : Z) : M (option t) :=
  let* record := BaseEntity._fetch_record accounts account_id in
  match record with
  | Some r => ret (Some (of_row account_id r))
  | None => logging.warning (AccountNotFound account_id) ;; ret None
  end.

End Account.

(** ** Employee *)

Module Employee.

Record t := {
  _employee_id : option Z; _first_name : string; _last_name : string;
  _position : string; _salary : float }.

Definition set_employee_id (k : option Z) (self : t) : t :=
  {| _employee_id := k; _first_name := _first_name self;
     _last_name := _last_name self; _position := _position self;
     _salary := _salary self |}.

(** [Employee.save_new] *)
Definition save_new (self : t) : M (option Z * t) :=
  let* new_id := BaseEntity._execute_dml
      (InsertEmployee (_first_name self) (_last_name self) (_position self)
         (_salary self)) in
  if truthy new_id then
    let self := set_employee_id new_id self in
    logging.info (EmployeeOnboarded (_first_name self) (_last_name self) new_id) ;;
    ret (new_id, self)
  else ret (new_id, self).

End Employee.

(** ** Loan *)

Module Loan.

Record t := {
  _loan_id : option Z; _customer_id : option Z; _amount : float;
  _interest_rate : float; _status : string }.

Definition set_status (s : string) (self : t) : t :=
  {| _loan_id := _loan_id self; _customer_id := _customer_id self;
     _amount := _amount self; _interest_rate := _interest_rate self;
     _status := s |}.

Definition set_loan_id (k : option Z) (self : t) : t :=
  {| _loan_id := k; _customer_id := _customer_id self;
     _amount := _amount self; _interest_rate := _interest_rate self;
     _status := _status self |}.

(** [Loan.approve]: the warning is reached both when the guard fails and when
    the [UPDATE] fails. *)
Definition approve (self : t) : M (bool * t) :=
  let refuse (self : t) : M (bool * t) :=
    logging.warning (LoanNotApproved (_loan_id self) (_status self)) ;;
    ret (false, self) in
  if String.eqb (_status self) "Pending" && truthy (_loan_id self) then
    let self := set_status "Approved" self in
    let* r := BaseEntity._execute_dml (UpdateLoanStatus (_status self) (_loan_id self)) in
    if truthy r then
      logging.info (LoanApproved (_loan_id self) (_customer_id self)) ;;
      ret (true, self)
    else refuse self
  else refuse self.

(** [Loan.save_new] *)
Definition save_new (self : t) : M (option Z * t) :=
  let* new_id := BaseEntity._execute_dml
      (InsertLoan (_customer_id self) (_amount self) (_interest_rate self)
         (_status self)) in
  if truthy new_id then
    let self := set_loan_id new_id self in
    logging.info (LoanSubmitted (_amount self) new_id) ;;
    ret (new_id, self)
  else ret (new_id, self).

End Loan.

(** ** CreditCard *)

Module CreditCard.

Record t := {
  _card_id : option Z; _customer_id : option Z; _credit_limit : float;
  _current_debt : float; _is_active : Z }.

Definition set_current_debt (x : float) (self : t) : t :=
  {| _card_id := _card_id self; _customer_id := _customer_id self;
     _credit_limit := _credit_limit self; _current_debt := x;
     _is_active := _is_active self |}.

Definition set_card_id (k : option Z) (self : t) : t :=
  {| _card_id := k; _customer_id := _customer_id self;
     _credit_limit := _credit_limit self; _current_debt := _current_debt self;
     _is_active := _is_active self |}.

(** [CreditCard.available_credit] *)
Definition available_credit (self : t) : float :=
  (_credit_limit self - _current_debt self)%float.

(** [CreditCard.make_purchase] *)
Definition make_purchase (self : t) (amount : float) : M (bool * t) :=
  if (amount <=? 0)%float then
    logging.warning PurchaseNotPositive ;;
    ret (false, self)
  else if (available_credit self <? amount)%float then
    logging.warning (PurchaseExceedsCredit (_card_id self) (available_credit self)) ;;
    ret (false, self)
  else
    let self := set_current_debt (_current_debt self + amount)%float self in
    let* r := BaseEntity._execute_dml (UpdateCardDebt (_current_debt self) (_card_id self)) in
    if truthy r then
      logging.info (PurchaseDone (_card_id self) amount (_current_debt self)) ;;
      ret (true, self)
    else ret (false, self).

(** [CreditCard.save_new] *)
Definition save_new (self : t) : M (option Z * t) :=
  let* new_id := BaseEntity._execute_dml
      (InsertCreditCard (_customer_id self) (_credit_limit self)
         (_current_debt self)) in
  if truthy new_id then
    let self := set_card_id new_id self in
    logging.info (CardIssued (_credit_limit self) new_id (_customer_id self)) ;;
    ret (new_id, self)
  else ret (new_id, self).

End CreditCard.

(** ** BankSystem: the two enrolment functions *)

Module BankSystem.

(** [BankSystem.create_customer]; the three arguments are the lines typed at
    the three prompts. *)
Definition create_customer (line1 line2 line3 : string) : M unit :=
  let first_name := strip line1 in
  let last_name := strip line2 in
  let address := strip line3 in
  if str_empty first_name || str_empty last_name then
    logging.warning CustomerNamesRequired ;; ret tt
  else
    let* customer := Customer.__init__ None first_name last_name address None in
    Customer.save_new customer ;; ret tt.

(** [BankSystem.add_employee]; [salary] is the outcome of
    [float(input(...))], [None] when it raises [ValueError]. *)
Definition add_employee (line1 line2 line3 : string) (salary : option float) : M unit :=
  let first_name := strip line1 in
  let last_name := strip line2 in
  let position := strip line3 in
  match salary with
  | None => logging.error SalaryNotANumber ;; ret tt
  | Some salary =>
      Employee.save_new
        {| Employee._employee_id := None; Employee._first_name := first_name;
           Employee._last_name := last_name; Employee._position := position;
           Employee._salary := salary |} ;;
      ret tt
  end.

End BankSystem.

(** ** Calls on one account, in sequence *)

Inductive call :=
  | Deposit (amount : float)
  | Withdraw (amount : float).

Definition perform (c : call) (a : Account.t) : M (bool * Account.t) :=
  match c with
  | Deposit x => Account.deposit a x
  | Withdraw x => Account.withdraw a x
  end.

(** The calls of [cs], in order, on the same object; the list holds what
    each call returned. *)
Fixpoint perform_all (cs : list call) (a : Account.t) : M (list bool * Account.t) :=
  match cs with
  | [] => ret ([], a)
  | c :: cs =>
      let* r := perform c a in
      let* rs := perform_all cs (snd r) in
      ret (fst r :: fst rs, snd rs)
  end.

(** An amount that is a number; a withdrawn amount is finite as well. *)
Definition numeric (c : call) : Prop :=
  match c with
  | Deposit x => is_nan x = false
  | Withdraw x => is_finite x = true
  end.

(** The snapshot [a] was saved and carries the balance of its row. *)
Definition in_sync (a : Account.t) (w : world) : Prop :=
  exists k r, Account._account_id a = Some k /\
    rows (accounts (db w)) !! k = Some r /\
    a_balance r = Account._balance a.

(** The loan was saved: it has a key, and the row is there. *)
Definition saved_loan (l : Loan.t) (w : world) : Prop :=
  exists k r, Loan._loan_id l = Some k /\ k <> 0 /\
    rows (loans (db w)) !! k = Some r.

(** [a.deposit(x)] and then [a.withdraw(x)] on the same object; the pair
    holds what the two calls returned. *)
Definition deposit_then_withdraw (a : Account.t) (x : float) :
    M ((bool * bool) * Account.t) :=
  let* r1 := Account.deposit a x in
  let* r2 := Account.withdraw (snd r1) x in
  ret ((fst r1, fst r2), snd r2).

(** The purchase was refused for exceeding the available credit: the call
    returned [False], wrote that warning and nothing else, and changed
    neither the snapshot nor the tables. *)
Definition refused_over_limit (c : CreditCard.t) (amount : float) (w : world) : Prop :=
  CreditCard.make_purchase c amount w =
    ((false, c),
     logged [(WARNING, PurchaseExceedsCredit (CreditCard._card_id c)
                         (CreditCard.available_credit c))] w).

(** ** Sample objects *)

(** A new database file; [fs] are the engine's verdicts to come. *)
Definition fresh_world (fs : list bool) : world :=
  {| db := create_tables; faults := fs; clock := []; log := [] |}.

(** [Account(db, k, 1, b, 'Savings')] *)
Definition account_with (k : option Z) (b : float) : Account.t :=
  {| Account._account_id := k; Account._customer_id := Some 1;
     Account._balance := b; Account._account_type := "Savings";
     Account._is_active := 1 |}.

(** A file that holds one account, key 1, with balance [b]. *)
Definition account_world (b : float) (fs : list bool) : world :=
  {| db := fst (execute (InsertAccount (Some 1) b "Savings") create_tables);
     faults := fs; clock := []; log := [] |}.

Definition saved_account : Account.t := account_with (Some 1) 100%float.
Definition w_account : world := account_world 100%float [].
(** The same file, with an engine that raises on the next statement. *)
Definition w_account_down : world := account_world 100%float [true].
Definition unsaved_account : Account.t := account_with None 0%float.
(** An account opened with an initial deposit of -100, and its file. *)
Definition overdrawn_account : Account.t := account_with (Some 1) (-100)%float.
Definition w_overdrawn : world := account_world (-100)%float [].
(** An account that holds 0.1, and its file. *)
Definition dime_account : Account.t := account_with (Some 1) 0.1%float.
Definition w_dime : world := account_world 0.1%float [].

(** [CreditCard(db, k, c, 500.0, 0.0, active)] *)
Definition card_500 (k c : option Z) (active : Z) : CreditCard.t :=
  {| CreditCard._card_id := k; CreditCard._customer_id := c;
     CreditCard._credit_limit := 500%float; CreditCard._current_debt := 0%float;
     CreditCard._is_active := active |}.

Definition saved_card : CreditCard.t := card_500 (Some 1) (Some 1) 1.

(** A file that holds one card, key 1, with that limit and debt. *)
Definition card_world (limit debt : float) (fs : list bool) : world :=
  {| db := fst (execute (InsertCreditCard (Some 1) limit debt) create_tables);
     faults := fs; clock := []; log := [] |}.

Definition w_card : world := card_world 500%float 0%float [].
Definition w_card_down : world := card_world 500%float 0%float [true].

(** A limit of [2^53 + 6] and a debt of 3, and the file that holds them. *)
Definition heavy_card : CreditCard.t :=
  {| CreditCard._card_id := Some 1; CreditCard._customer_id := Some 1;
     CreditCard._credit_limit := 9007199254740998%float;
     CreditCard._current_debt := 3%float; CreditCard._is_active := 1 |}.

Definition w_heavy : world := card_world 9007199254740998%float 3%float [].

Definition pending_loan : Loan.t :=
  {| Loan._loan_id := Some 1; Loan._customer_id := Some 1;
     Loan._amount := 1000%float; Loan._interest_rate := 0.05%float;
     Loan._status := "Pending" |}.

Definition unsaved_loan : Loan.t := Loan.set_loan_id None pending_loan.

(** A file that holds [pending_loan]'s row. *)
Definition loan_world (fs : list bool) : world :=
  {| db := fst (execute (InsertLoan (Some 1) 1000%float 0.05%float "Pending") create_tables);
     faults := fs; clock := []; log := [] |}.

Definition w_loan : world := loan_world [].
Definition w_loan_down : world := loan_world [true].

(** [Customer(db, first_name='', last_name='Smith')] *)
Definition nameless_customer : Customer.t :=
  {| Customer._customer_id := None; Customer._first_name := EmptyString;
     Customer._last_name := "Smith"; Customer._address := EmptyString;
     Customer._join_date := "2026-11-03" |}.

(** [Employee(db, first_name='', last_name='Smith')] *)
Definition nameless_employee : Employee.t :=
  {| Employee._employee_id := None; Employee._first_name := EmptyString;
     Employee._last_name := "Smith"; Employee._position := EmptyString;
     Employee._salary := 0%float |}.

(** ** Invariants of the tables *)

(** The keys of a table lie between 1 and the last key handed out. *)
Definition wf_table {R} (t : table R) : Prop :=
  0 <= seq t /\ forall k, is_Some (rows t !! k) -> 1 <= k <= seq t.

Definition wf_tables (d : tables) : Prop :=
  wf_table (customers d) /\ wf_table (accounts d) /\ wf_table (transactions d) /\
  wf_table (employees d) /\ wf_table (loans d) /\ wf_table (credit_cards d).

(** Every persisted balance is [>= 0]. *)
Definition nonneg_balances (d : tables) : Prop :=
  forall k r, rows (accounts d) !! k = Some r -> (0 <=? a_balance r)%float = true.

(** ** What a call sends *)

Definition call_amount (c : call) : float :=
  match c with Deposit x | Withdraw x => x end.

(** The [txn_type] the call passes to [_record_transaction]. *)
Definition call_txn_type (c : call) : string :=
  match c with Deposit _ => "Deposit" | Withdraw _ => "Withdrawal" end.

(** What the [UPDATE] of the call does to a balance. *)
Definition call_update (c : call) (b : float) : float :=
  match c with
  | Deposit x => (b + x)%float
  | Withdraw x => (b - x)%float
  end.

(** The guards of the call on the snapshot [a] let it through. *)
Definition passes_guards (c : call) (a : Account.t) : bool :=
  match c with
  | Deposit x => negb (x <=? 0)%float
  | Withdraw x => negb (x <=? 0)%float && negb (Account._balance a <? x)%float
  end.

(** [Account.load], then [deposit] or [withdraw] on the object it returned,
    as [BankSystem.perform_transaction] chains them; nothing is called when
    no object is returned.  The entry the caller itself logs in that case is
    left out. *)
Definition load_then (k : Z) (c : call) : M (option (bool * Account.t)) :=
  let* o := Account.load k in
  match o with
  | Some a => let* r := perform c a in ret (Some r)
  | None => ret None
  end.

(** [save_new], then [approve] on the same object whatever [save_new]
    returned, as [BankSystem.apply_for_loan] chains them when the approval is
    asked for. *)
Definition save_then_approve (l : Loan.t) : M (option Z * bool * Loan.t) :=
  let* r := Loan.save_new l in
  let* r' := Loan.approve (snd r) in
  ret (fst r, fst r', snd r').


(** ** Names as [BankSystem.create_customer] stores them *)

(** A string that [strip] leaves as it is. *)
Definition stripped (s : string) : Prop := strip s = s.

(** Every persisted customer has a first and a last name that are not
    empty, and names and address carry no white space at either end. *)
Definition clean_names (d : tables) : Prop :=
  forall k r, rows (customers d) !! k = Some r ->
    c_first_name r <> EmptyString /\ c_last_name r <> EmptyString /\
    stripped (c_first_name r) /\ stripped (c_last_name r) /\ stripped (c_address r).

(** ** More sample objects *)

(** [Customer(db, 1, 'Ada', 'Lovelace', '12 St James Square', '2026-11-03')] *)
Definition saved_customer : Customer.t :=
  {| Customer._customer_id := Some 1; Customer._first_name := "Ada";
     Customer._last_name := "Lovelace"; Customer._address := "12 St James Square";
     Customer._join_date := "2026-11-03" |}.

(** A file that holds [saved_customer]'s row. *)
Definition customer_world (fs : list bool) : world :=
  {| db := fst (execute (InsertCustomer "Ada" "Lovelace" "12 St James Square" "2026-11-03")
                  create_tables);
     faults := fs; clock := []; log := [] |}.

(** [Account(db, customer_id=1, balance=100.0, account_type='Savings')] *)
Definition new_account : Account.t := account_with None 100%float.

(** The object [Customer.load] builds from the row stored under [k] when the
    clock reads [today]: an empty [join_date] is replaced by [__init__]. *)
Definition customer_of_row (k : Z) (today : string) (r : customer_row) : Customer.t :=
  {| Customer._customer_id := Some k;
     Customer._first_name := c_first_name r;
     Customer._last_name := c_last_name r;
     Customer._address := c_address r;
     Customer._join_date := if str_empty (c_join_date r) then today else c_join_date r |}.

(** [CreditCard(db, None, 1, 500.0, 0.0, 0)]: an object that says it is
    inactive. *)
Definition inactive_card : CreditCard.t := card_500 None (Some 1) 0.

(** [CreditCard(db, 1, 1, -100.0, 0.0)]: issued with a negative limit. *)
Definition negative_limit_card : CreditCard.t :=
  {| CreditCard._card_id := Some 1; CreditCard._customer_id := Some 1;
     CreditCard._credit_limit := (-100)%float; CreditCard._current_debt := 0%float;
     CreditCard._is_active := 1 |}.

(** [Account(db, 1, 1, b, 'Savings', 0)]: an object that says it is inactive. *)
Definition inactive_account (b : float) : Account.t :=
  {| Account._account_id := Some 1; Account._customer_id := Some 1;
     Account._balance := b; Account._account_type := "Savings";
     Account._is_active := 0 |}.

(** * Facts about binary64 arithmetic *)

Module Binary64Facts.
Import Binary64.

(** Number of binary digits of a mantissa. *)
Lemma digits2_pos_bounds (m : positive) :
  2 ^ (Z.pos (digits2_pos m) - 1) <= Z.pos m < 2 ^ Z.pos (digits2_pos m).
Proof.
  induction m as [m IH | m IH |]; cbn [digits2_pos].
  - rewrite Pos2Z.inj_succ, Z.pow_succ_r by lia.
    replace (Z.succ (Z.pos (digits2_pos m)) - 1) with (Z.succ (Z.pos (digits2_pos m) - 1)) by lia.
    rewrite Z.pow_succ_r by lia. lia.
  - rewrite Pos2Z.inj_succ, Z.pow_succ_r by lia.
    replace (Z.succ (Z.pos (digits2_pos m)) - 1) with (Z.succ (Z.pos (digits2_pos m) - 1)) by lia.
    rewrite Z.pow_succ_r by lia. lia.
  - cbn. lia.
Qed.

Lemma iter_pos_inv {A} (P : A -> Prop) (f : A -> A) :
  (forall x, P x -> P (f x)) -> forall n x, P x -> P (SpecFloat.iter_pos f n x).
Proof.
  intros Hf n. induction n as [n IH | n IH |]; intros x Hx; cbn; auto.
Qed.

Lemma iter_pos_iter {A} (f : A -> A) n x : SpecFloat.iter_pos f n x = Pos.iter f x n.
Proof.
  revert x. induction n as [n IH | n IH |]; intros x; cbn; auto.
  - rewrite !IH. rewrite <- !Pos.iter_swap. reflexivity.
  - rewrite !IH. reflexivity.
Qed.

Lemma shl_iter (m d : positive) : Z.pos (Pos.iter xO m d) = Z.pos m * 2 ^ Z.pos d.
Proof.
  revert m. induction d as [|d IH] using Pos.peano_ind; intros m.
  - cbn. lia.
  - rewrite Pos.iter_succ, Pos2Z.inj_succ, Z.pow_succ_r by lia.
    rewrite Pos2Z.inj_xO, IH. lia.
Qed.

Lemma shl_align_fst (m : positive) (e ez : Z) :
  ez <= e -> Z.pos (fst (shl_align m e ez)) = Z.pos m * 2 ^ (e - ez).
Proof.
  intros H. unfold shl_align.
  destruct (ez - e) as [|p|p] eqn:E; try lia.
  - replace (e - ez) with 0 by lia. cbn [fst]. lia.
  - cbn [fst]. rewrite shl_iter. f_equal. f_equal. lia.
Qed.

(** What [bounded] says about a mantissa and its exponent. *)
Lemma bounded_inv (m : positive) (e : Z) :
  bounded prec emax m e = true ->
  -1074 <= e <= 971 /\ Z.pos (digits2_pos m) <= 53 /\
  (-1074 < e -> Z.pos (digits2_pos m) = 53).
Proof.
  unfold bounded, canonical_mantissa, fexp, SpecFloat.emin, prec, emax.
  intros H. apply andb_true_iff in H as [H1 H2].
  apply Z.eqb_eq in H1. apply Z.leb_le in H2. lia.
Qed.

Lemma bounded_lt_pow (m : positive) (e : Z) :
  bounded prec emax m e = true -> Z.pos m < 2 ^ 53.
Proof.
  intros H. destruct (bounded_inv m e H) as (_ & Hd & _).
  pose proof (digits2_pos_bounds m) as [_ Hm].
  eapply Z.lt_le_trans; [exact Hm|].
  apply Z.pow_le_mono_r; lia.
Qed.

Lemma bounded_ge_pow (m : positive) (e : Z) :
  bounded prec emax m e = true -> -1074 < e -> 2 ^ 52 <= Z.pos m.
Proof.
  intros H He. destruct (bounded_inv m e H) as (_ & _ & Hd).
  pose proof (digits2_pos_bounds m) as [Hm _].
  rewrite (Hd He) in Hm. exact Hm.
Qed.

Lemma magnitude_lt (m1 m2 : positive) (e1 e2 : Z) :
  bounded prec emax m1 e1 = true -> bounded prec emax m2 e2 = true ->
  e1 < e2 -> Z.pos m1 * 2 ^ (e1 + 1074) < Z.pos m2 * 2 ^ (e2 + 1074).
Proof.
  intros H1 H2 Hlt.
  pose proof (bounded_lt_pow _ _ H1) as Hm1.
  destruct (bounded_inv _ _ H1) as (He1 & _).
  pose proof (bounded_ge_pow _ _ H2 ltac:(lia)) as Hm2.
  replace (e2 + 1074) with ((e2 - e1) + (e1 + 1074)) by lia.
  rewrite (Z.pow_add_r 2 (e2 - e1) (e1 + 1074)) by lia.
  assert (HK : 0 < 2 ^ (e1 + 1074)) by (apply Z.pow_pos_nonneg; lia).
  assert (HJ : 2 ^ 1 <= 2 ^ (e2 - e1)) by (apply Z.pow_le_mono_r; lia).
  change (2 ^ 1) with 2 in HJ. change (2 ^ 53) with (2 * 2 ^ 52) in Hm1.
  set (K := 2 ^ (e1 + 1074)) in *. set (J := 2 ^ (e2 - e1)) in *.
  set (P := 2 ^ 52) in *.
  assert (Z.pos m1 * K < 2 * P * K) by nia.
  assert (2 * P * K <= Z.pos m2 * J * K).
  { assert (2 * P <= Z.pos m2 * J) by nia. nia. }
  lia.
Qed.

Lemma magnitude_compare (m1 m2 : positive) (e1 e2 : Z) :
  bounded prec emax m1 e1 = true -> bounded prec emax m2 e2 = true ->
  (Z.pos m1 * 2 ^ (e1 + 1074) ?= Z.pos m2 * 2 ^ (e2 + 1074)) =
  match e1 ?= e2 with
  | Lt => Lt
  | Gt => Gt
  | Eq => Pos.compare_cont Eq m1 m2
  end.
Proof.
  intros H1 H2. destruct (Z.compare_spec e1 e2) as [-> | Hlt | Hgt].
  - destruct (bounded_inv _ _ H2) as (He & _).
    assert (HK : 0 < 2 ^ (e2 + 1074)) by (apply Z.pow_pos_nonneg; lia).
    change (Pos.compare_cont Eq m1 m2) with (Pos.compare m1 m2).
    destruct (Pos.compare_spec m1 m2) as [-> | Hm | Hm].
    + apply Z.compare_refl.
    + apply Z.compare_lt_iff. apply Z.mul_lt_mono_pos_r; lia.
    + apply Z.compare_gt_iff. apply Z.mul_lt_mono_pos_r; lia.
  - apply Z.compare_lt_iff. now apply magnitude_lt.
  - apply Z.compare_gt_iff. now apply magnitude_lt.
Qed.

(** On valid finite numbers [SFcompare] is the order of the values. *)
Lemma SFcompare_SF2Z (x y : spec_float) :
  valid_binary x = true -> valid_binary y = true ->
  SFfinite x = true -> SFfinite y = true ->
  SFcompare x y = Some (SF2Z x ?= SF2Z y).
Proof.
  intros Vx Vy Fx Fy.
  destruct x as [sx | sx | | sx mx ex], y as [sy | sy | | sy my ey];
    try discriminate; cbn [SFcompare SF2Z valid_binary] in *.
  - reflexivity.
  - assert (0 < Z.pos my * 2 ^ (ey + 1074)).
    { destruct (bounded_inv _ _ Vy) as (He & _).
      apply Z.mul_pos_pos; [lia | apply Z.pow_pos_nonneg; lia]. }
    destruct sy; cbn [cond_Zopp]; f_equal; symmetry.
    + apply Z.compare_gt_iff. lia.
    + apply Z.compare_lt_iff. lia.
  - assert (0 < Z.pos mx * 2 ^ (ex + 1074)).
    { destruct (bounded_inv _ _ Vx) as (He & _).
      apply Z.mul_pos_pos; [lia | apply Z.pow_pos_nonneg; lia]. }
    destruct sx; cbn [cond_Zopp]; f_equal; symmetry.
    + apply Z.compare_lt_iff. lia.
    + apply Z.compare_gt_iff. lia.
  - assert (0 < Z.pos mx * 2 ^ (ex + 1074)).
    { destruct (bounded_inv _ _ Vx) as (He & _).
      apply Z.mul_pos_pos; [lia | apply Z.pow_pos_nonneg; lia]. }
    assert (0 < Z.pos my * 2 ^ (ey + 1074)).
    { destruct (bounded_inv _ _ Vy) as (He & _).
      apply Z.mul_pos_pos; [lia | apply Z.pow_pos_nonneg; lia]. }
    destruct sx, sy; cbn [cond_Zopp]; f_equal.
    + rewrite Z.compare_opp. rewrite (magnitude_compare my mx ey ex Vy Vx).
      rewrite (Z.compare_antisym ey ex).
      destruct (ey ?= ex); cbn [CompOpp]; try reflexivity.
      rewrite Pos.compare_cont_antisym. reflexivity.
    + symmetry. apply Z.compare_lt_iff. lia.
    + symmetry. apply Z.compare_gt_iff. lia.
    + symmetry. now apply magnitude_compare.
Qed.

Lemma SFleb_zero (x : spec_float) : SFleb (S754_zero false) x = SFnonneg x.
Proof. destruct x as [s | [] | | [] m e]; reflexivity. Qed.

(** *** Rounding keeps the sign *)

Lemma shr_1_nonneg (mrs : shr_record) : 0 <= shr_m mrs -> 0 <= shr_m (shr_1 mrs).
Proof.
  destruct mrs as [m r s]; cbn [shr_m]. intros H.
  destruct m as [| [p | p |] | p]; cbn; lia.
Qed.

Lemma shr_nonneg (mrs : shr_record) (e n : Z) :
  0 <= shr_m mrs -> 0 <= shr_m (fst (shr mrs e n)).
Proof.
  intros H. destruct n as [| p | p]; cbn [shr fst]; auto.
  apply (iter_pos_inv (fun r => 0 <= shr_m r)); auto using shr_1_nonneg.
Qed.

Lemma shr_fexp_nonneg (m e : Z) (l : location) :
  0 <= m -> 0 <= shr_m (fst (shr_fexp prec emax m e l)).
Proof.
  intros H. unfold shr_fexp. apply shr_nonneg.
  destruct l as [| []]; cbn; exact H.
Qed.

Lemma round_nearest_even_nonneg (m : Z) (l : location) :
  0 <= m -> 0 <= round_nearest_even m l.
Proof.
  intros H. destruct l as [| []]; cbn [round_nearest_even]; try lia.
  destruct (Z.even m); lia.
Qed.

Lemma binary_round_aux_sign (sx : bool) (m e : Z) (l : location) :
  0 <= m -> SFsign_is sx (binary_round_aux prec emax sx m e l).
Proof.
  intros H. unfold binary_round_aux.
  pose proof (shr_fexp_nonneg m e l H) as H1.
  destruct (shr_fexp prec emax m e l) as [mrs' e'] eqn:E1. cbn [fst] in H1.
  pose proof (shr_fexp_nonneg _ e' loc_Exact
                (round_nearest_even_nonneg _ (loc_of_shr_record mrs') H1)) as H2.
  destruct (shr_fexp prec emax (round_nearest_even _ _) e' loc_Exact)
    as [mrs'' e''] eqn:E2. cbn [fst] in H2.
  destruct (shr_m mrs'') as [| p | p]; try lia; cbn; auto.
  destruct (e'' <=? emax - prec); cbn; auto.
Qed.

Lemma binary_round_sign (sx : bool) (m : positive) (e : Z) :
  SFsign_is sx (binary_round prec emax sx m e).
Proof.
  unfold binary_round.
  destruct (shl_align m e _) as [mz ez]. apply binary_round_aux_sign. lia.
Qed.

Lemma SFsign_nonneg (x : spec_float) : SFsign_is false x -> SFnonneg x = true.
Proof. destruct x as [s | s | | s m e]; cbn; intros H; subst; auto; contradiction. Qed.

Lemma binary_normalize_nonneg (m e : Z) :
  0 <= m -> SFnonneg (binary_normalize prec emax m e false) = true.
Proof.
  intros H. destruct m as [| p | p]; try lia; cbn [binary_normalize].
  - reflexivity.
  - apply SFsign_nonneg, binary_round_sign.
Qed.

(** *** Rounding a representable value is exact *)

Lemma shr_exact (M p : positive) :
  SpecFloat.iter_pos shr_1 p
    {| shr_m := Z.pos (Pos.iter xO M p); shr_r := false; shr_s := false |} =
  {| shr_m := Z.pos M; shr_r := false; shr_s := false |}.
Proof.
  rewrite iter_pos_iter.
  induction p as [| p IH] using Pos.peano_ind.
  - reflexivity.
  - rewrite !Pos.iter_succ, <- Pos.iter_swap.
    cbn [shr_1 orb]. exact IH.
Qed.

Lemma binary_round_aux_canonical (s : bool) (M : positive) (E : Z) :
  bounded prec emax M E = true ->
  binary_round_aux prec emax s (Z.pos M) E loc_Exact = S754_finite s M E.
Proof.
  intros H. pose proof H as H'.
  unfold bounded, canonical_mantissa in H'.
  apply andb_true_iff in H' as [Hc Hb]. apply Z.eqb_eq in Hc.
  unfold binary_round_aux, shr_fexp. cbn [Zdigits2 shr_record_of_loc].
  rewrite Hc, Z.sub_diag. cbn [shr loc_of_shr_record round_nearest_even shr_m].
  cbn [Zdigits2 shr_record_of_loc]. rewrite Hc, Z.sub_diag. cbn [shr shr_m].
  rewrite Hb. reflexivity.
Qed.

Lemma pow2_window (v a b : Z) :
  0 <= a -> 0 <= b ->
  2 ^ a <= 2 * v < 2 * 2 ^ a -> 2 ^ b <= 2 * v < 2 * 2 ^ b -> a = b.
Proof.
  intros Ha Hb [H1 H2] [H3 H4].
  destruct (Z.lt_trichotomy a b) as [Hlt | [-> | Hgt]]; auto; exfalso.
  - assert (2 ^ (a + 1) <= 2 ^ b) by (apply Z.pow_le_mono_r; lia).
    rewrite Z.pow_add_r in H by lia. change (2 ^ 1) with 2 in H. lia.
  - assert (2 ^ (b + 1) <= 2 ^ a) by (apply Z.pow_le_mono_r; lia).
    rewrite Z.pow_add_r in H by lia. change (2 ^ 1) with 2 in H. lia.
Qed.

(** A mantissa and exponent with the value of a valid number round to it. *)
Lemma binary_round_exact (s : bool) (m M : positive) (e E : Z) :
  bounded prec emax M E = true -> -1074 <= e ->
  Z.pos m * 2 ^ (e + 1074) = Z.pos M * 2 ^ (E + 1074) ->
  binary_round prec emax s m e = S754_finite s M E.
Proof.
  intros HB He Hv.
  destruct (bounded_inv _ _ HB) as (HE & _).
  assert (Hmag : Z.pos (digits2_pos m) + e = Z.pos (digits2_pos M) + E).
  { pose proof (digits2_pos_bounds m) as [Hm1 Hm2].
    pose proof (digits2_pos_bounds M) as [HM1 HM2].
    assert (Hk : forall d x k, 2 ^ (Z.pos d - 1) <= x < 2 ^ Z.pos d -> 0 <= k ->
              2 ^ (Z.pos d + k) <= 2 * (x * 2 ^ k) < 2 * 2 ^ (Z.pos d + k)).
    { intros d x k [Hx1 Hx2] Hk0.
      assert (0 < 2 ^ k) by (apply Z.pow_pos_nonneg; lia).
      rewrite Z.pow_add_r by lia.
      replace (2 ^ Z.pos d) with (2 * 2 ^ (Z.pos d - 1)) in *
        by (rewrite <- Z.pow_succ_r by lia; f_equal; lia).
      set (P := 2 ^ (Z.pos d - 1)) in *. set (K := 2 ^ k) in *. nia. }
    pose proof (Hk _ _ (e + 1074) (conj Hm1 Hm2) ltac:(lia)) as W1.
    pose proof (Hk _ _ (E + 1074) (conj HM1 HM2) ltac:(lia)) as W2.
    rewrite Hv in W1.
    assert (Z.pos (digits2_pos m) + (e + 1074) = Z.pos (digits2_pos M) + (E + 1074))
      by (eapply pow2_window; [| | exact W1 | exact W2]; lia).
    lia. }
  assert (Hf : fexp prec emax (Z.pos (digits2_pos m) + e) = E).
  { rewrite Hmag. unfold bounded, canonical_mantissa in HB.
    apply andb_true_iff in HB as [Hc _]. now apply Z.eqb_eq in Hc. }
  unfold binary_round. rewrite Hf.
  assert (HK : 0 < 2 ^ (E + 1074)) by (apply Z.pow_pos_nonneg; lia).
  assert (Hk : 0 < 2 ^ (e + 1074)) by (apply Z.pow_pos_nonneg; lia).
  unfold shl_align. destruct (E - e) as [| p | p] eqn:Ed.
  - assert (EE : E = e) by lia. rewrite EE in Hv, HB |- *.
    assert (Hm : m = M) by (apply Z.mul_cancel_r in Hv; [congruence | lia]).
    rewrite Hm. now apply binary_round_aux_canonical.
  - (* the exponent must grow: the low bits of [m] are zero *)
    assert (Hm : m = Pos.iter xO M p).
    { apply Pos2Z.inj. rewrite shl_iter.
      replace (E + 1074) with (Z.pos p + (e + 1074)) in Hv by lia.
      rewrite (Z.pow_add_r 2 (Z.pos p) (e + 1074)), Z.mul_assoc in Hv by lia.
      apply Z.mul_cancel_r in Hv; [exact Hv | lia]. }
    pose proof HB as HB'. unfold bounded, canonical_mantissa in HB'.
    apply andb_true_iff in HB' as [Hc Hb]. apply Z.eqb_eq in Hc.
    unfold binary_round_aux, shr_fexp. cbn [Zdigits2 shr_record_of_loc].
    assert (Hs : SpecFloat.iter_pos shr_1 p
                   {| shr_m := Z.pos m; shr_r := false; shr_s := false |} =
                 {| shr_m := Z.pos M; shr_r := false; shr_s := false |})
      by (rewrite Hm; apply shr_exact).
    rewrite Hf, Ed. cbn [shr]. rewrite !Hs.
    cbn [loc_of_shr_record round_nearest_even shr_m Zdigits2 shr_record_of_loc].
    replace (e + Z.pos p) with E by lia.
    rewrite Hc, Z.sub_diag. cbn [shr shr_m]. rewrite Hb. reflexivity.
  - assert (HM : Pos.iter xO m p = M).
    { apply Pos2Z.inj. rewrite shl_iter.
      replace (e + 1074) with (Z.pos p + (E + 1074)) in Hv by lia.
      rewrite (Z.pow_add_r 2 (Z.pos p) (E + 1074)), Z.mul_assoc in Hv by lia.
      apply Z.mul_cancel_r in Hv; [exact Hv | lia]. }
    rewrite HM. now apply binary_round_aux_canonical.
Qed.

Lemma binary_normalize_exact (z ez : Z) (szero s : bool) (M : positive) (E : Z) :
  bounded prec emax M E = true -> -1074 <= ez ->
  z * 2 ^ (ez + 1074) = SF2Z (S754_finite s M E) ->
  binary_normalize prec emax z ez szero = S754_finite s M E.
Proof.
  intros HB He Hv. cbn [SF2Z] in Hv.
  destruct (bounded_inv _ _ HB) as (HE & _).
  assert (HK : 0 < 2 ^ (E + 1074)) by (apply Z.pow_pos_nonneg; lia).
  assert (Hk : 0 < 2 ^ (ez + 1074)) by (apply Z.pow_pos_nonneg; lia).
  assert (HM : 0 < Z.pos M * 2 ^ (E + 1074)) by (apply Z.mul_pos_pos; lia).
  destruct s; cbn [cond_Zopp] in Hv; destruct z as [| p | p]; try nia;
    cbn [binary_normalize]; apply binary_round_exact; auto; lia.
Qed.

(** *** Addition and subtraction of finite numbers *)

Lemma aligned_scaled (s : bool) (m : positive) (e ez : Z) :
  -1074 <= ez <= e ->
  cond_Zopp s (Z.pos (fst (shl_align m e ez))) * 2 ^ (ez + 1074) =
  SF2Z (S754_finite s m e).
Proof.
  intros H. rewrite shl_align_fst by lia. cbn [SF2Z].
  replace (e + 1074) with ((e - ez) + (ez + 1074)) by lia.
  rewrite (Z.pow_add_r 2 (e - ez) (ez + 1074)) by lia.
  destruct s; cbn [cond_Zopp]; ring.
Qed.

Lemma SFadd_finite (sx sy : bool) (mx my : positive) (ex ey : Z) :
  bounded prec emax mx ex = true -> bounded prec emax my ey = true ->
  exists z, -1074 <= Z.min ex ey /\
    SFadd prec emax (S754_finite sx mx ex) (S754_finite sy my ey) =
      binary_normalize prec emax z (Z.min ex ey) false /\
    z * 2 ^ (Z.min ex ey + 1074) =
      SF2Z (S754_finite sx mx ex) + SF2Z (S754_finite sy my ey).
Proof.
  intros Hx Hy.
  destruct (bounded_inv _ _ Hx) as (Hex & _), (bounded_inv _ _ Hy) as (Hey & _).
  eexists. split; [lia|]. split; [reflexivity|].
  rewrite Z.mul_add_distr_r, !aligned_scaled by lia. reflexivity.
Qed.

Lemma SFsub_finite (sx sy : bool) (mx my : positive) (ex ey : Z) :
  bounded prec emax mx ex = true -> bounded prec emax my ey = true ->
  exists z, -1074 <= Z.min ex ey /\
    SFsub prec emax (S754_finite sx mx ex) (S754_finite sy my ey) =
      binary_normalize prec emax z (Z.min ex ey) false /\
    z * 2 ^ (Z.min ex ey + 1074) =
      SF2Z (S754_finite sx mx ex) - SF2Z (S754_finite sy my ey).
Proof.
  intros Hx Hy.
  destruct (bounded_inv _ _ Hx) as (Hex & _), (bounded_inv _ _ Hy) as (Hey & _).
  eexists. split; [lia|]. split; [reflexivity|].
  rewrite Z.mul_sub_distr_r, !aligned_scaled by lia. reflexivity.
Qed.

Lemma SF2Z_finite_pos (s : bool) (m : positive) (e : Z) :
  bounded prec emax m e = true -> 0 < Z.pos m * 2 ^ (e + 1074).
Proof.
  intros H. destruct (bounded_inv _ _ H) as (He & _).
  apply Z.mul_pos_pos; [lia | apply Z.pow_pos_nonneg; lia].
Qed.

(** A difference [l - d] with [0 <= d <= l] is not negative: it is NaN when
    both are infinite, and a number [>= 0] otherwise. *)
Lemma SFsub_nonneg (l d : spec_float) :
  valid_binary l = true -> valid_binary d = true ->
  SFnonneg d = true -> SFleb d l = true ->
  SFnonneg (SFsub prec emax l d) = true \/
  (l = S754_infinity false /\ d = S754_infinity false).
Proof.
  intros Vl Vd Hd Hle.
  destruct d as [sd | [] | | [] md ed]; try discriminate;
    destruct l as [sl | [] | | [] ml el]; try discriminate; auto.
  - left. destruct sd, sl; reflexivity.
  - left. cbn [valid_binary] in *.
    destruct (SFsub_finite false false ml md el ed Vl Vd) as (z & Hz & -> & Hv).
    apply binary_normalize_nonneg.
    assert (Hc : SFcompare (S754_finite false md ed) (S754_finite false ml el)
                 = Some (SF2Z (S754_finite false md ed) ?= SF2Z (S754_finite false ml el)))
      by now apply SFcompare_SF2Z.
    unfold SFleb in Hle. rewrite Hc in Hle.
    assert (SF2Z (S754_finite false md ed) <= SF2Z (S754_finite false ml el)).
    { apply Z.compare_le_iff. intros Hgt. rewrite Hgt in Hle. discriminate. }
    assert (0 < 2 ^ (Z.min el ed + 1074)) by (apply Z.pow_pos_nonneg; lia).
    nia.
Qed.

Lemma SFadd_nonneg (x y : spec_float) :
  SFnonneg x = true -> SFnonneg y = true ->
  SFnonneg (SFadd prec emax x y) = true.
Proof.
  intros Hx Hy.
  destruct x as [sx | [] | | [] mx ex]; try discriminate;
    destruct y as [sy | [] | | [] my ey]; try discriminate; auto.
  - destruct sx, sy; reflexivity.
  - cbn [SFadd]. apply binary_normalize_nonneg. cbn [cond_Zopp]. lia.
Qed.

Lemma SFcompare_antisym (x y : spec_float) :
  SFcompare y x = option_map CompOpp (SFcompare x y).
Proof.
  destruct x as [[] | [] | | [] mx ex], y as [[] | [] | | [] my ey];
    cbn [SFcompare option_map CompOpp]; try reflexivity;
    rewrite (Z.compare_antisym ex ey); destruct (ex ?= ey);
    cbn [CompOpp]; try reflexivity;
    rewrite <- ?CompOpp_involutive;
    rewrite ?(Pos.compare_cont_antisym mx my); cbn [CompOpp];
    try rewrite CompOpp_involutive; reflexivity.
Qed.

Lemma SF2Z_zero_inv (x : spec_float) :
  valid_binary x = true -> SFfinite x = true -> SF2Z x = 0 ->
  exists s, x = S754_zero s.
Proof.
  intros V F H. destruct x as [s | | | s m e]; try discriminate; eauto.
  pose proof (SF2Z_finite_pos s m e V). destruct s; cbn in H; lia.
Qed.

Lemma binary_normalize_representable (z ez : Z) (b : spec_float) :
  valid_binary b = true -> SFfinite b = true -> -1074 <= ez ->
  z * 2 ^ (ez + 1074) = SF2Z b ->
  SFfinite (binary_normalize prec emax z ez false) = true /\
  SF2Z (binary_normalize prec emax z ez false) = SF2Z b.
Proof.
  intros V F He Hv. destruct b as [s | | | s m e]; try discriminate.
  - cbn [SF2Z] in Hv.
    assert (0 < 2 ^ (ez + 1074)) by (apply Z.pow_pos_nonneg; lia).
    assert (z = 0) by nia. subst z. split; reflexivity.
  - rewrite (binary_normalize_exact z ez false s m e V He Hv). split; reflexivity.
Qed.

Lemma SFadd_representable (x y b : spec_float) :
  valid_binary x = true -> valid_binary y = true -> valid_binary b = true ->
  SFfinite x = true -> SFfinite y = true -> SFfinite b = true ->
  SF2Z x + SF2Z y = SF2Z b ->
  SFfinite (SFadd prec emax x y) = true /\ SF2Z (SFadd prec emax x y) = SF2Z b.
Proof.
  intros Vx Vy Vb Fx Fy Fb Hv.
  destruct x as [sx | | | sx mx ex], y as [sy | | | sy my ey]; try discriminate.
  - destruct sx, sy; split; cbn in *; auto.
  - split; cbn in *; auto.
  - split; cbn in *; auto. lia.
  - cbn [valid_binary] in Vx, Vy.
    destruct (SFadd_finite sx sy mx my ex ey Vx Vy) as (z & Hz & -> & Hz2).
    apply binary_normalize_representable; auto. congruence.
Qed.

Lemma SFsub_representable (x y b : spec_float) :
  valid_binary x = true -> valid_binary y = true -> valid_binary b = true ->
  SFfinite x = true -> SFfinite y = true -> SFfinite b = true ->
  SF2Z x - SF2Z y = SF2Z b ->
  SFfinite (SFsub prec emax x y) = true /\ SF2Z (SFsub prec emax x y) = SF2Z b.
Proof.
  intros Vx Vy Vb Fx Fy Fb Hv.
  destruct x as [sx | | | sx mx ex], y as [sy | | | sy my ey]; try discriminate.
  - destruct sx, sy; split; cbn in *; auto.
  - split; [reflexivity|]. rewrite <- Hv. destruct sy; cbn; lia.
  - split; cbn in *; auto. lia.
  - cbn [valid_binary] in Vx, Vy.
    destruct (SFsub_finite sx sy mx my ex ey Vx Vy) as (z & Hz & -> & Hz2).
    apply binary_normalize_representable; auto. congruence.
Qed.

(** ** Python floats through their specification *)

Lemma Prim2SF_zero : Prim2SF 0 = S754_zero false.
Proof. reflexivity. Qed.

Lemma is_nan_spec (x : float) :
  is_nan x = match Prim2SF x with S754_nan => true | _ => false end.
Proof.
  unfold is_nan. rewrite FloatAxioms.eqb_spec. unfold SFeqb.
  destruct (Prim2SF x) as [s | [] | | [] m e]; cbn; auto;
    rewrite Z.compare_refl, Pos.compare_cont_refl; reflexivity.
Qed.

Lemma is_finite_spec (x : float) : is_finite x = SFfinite (Prim2SF x).
Proof.
  unfold is_finite. rewrite is_nan_spec. unfold is_infinity.
  rewrite FloatAxioms.eqb_spec, abs_spec.
  replace (Prim2SF infinity) with (S754_infinity false) by reflexivity.
  destruct (Prim2SF x) as [s | [] | | s m e]; reflexivity.
Qed.

Lemma leb_zero_spec (x : float) : (0 <=? x)%float = SFnonneg (Prim2SF x).
Proof. rewrite FloatAxioms.leb_spec, Prim2SF_zero. apply SFleb_zero. Qed.

Lemma nonneg_not_nan (x : float) : (0 <=? x)%float = true -> is_nan x = false.
Proof.
  rewrite leb_zero_spec, is_nan_spec. now destruct (Prim2SF x).
Qed.

(** [x > 0] as the code tests it, for a number: [not (x <= 0)]. *)
Lemma positive_spec (x : float) :
  (x <=? 0)%float = false -> is_nan x = false ->
  match Prim2SF x with
  | S754_infinity false | S754_finite false _ _ => True
  | _ => False
  end.
Proof.
  rewrite FloatAxioms.leb_spec, Prim2SF_zero, is_nan_spec.
  destruct (Prim2SF x) as [s | [] | | [] m e]; cbn; auto; discriminate.
Qed.

Lemma positive_nonneg (x : float) :
  (x <=? 0)%float = false -> is_nan x = false -> (0 <=? x)%float = true.
Proof.
  intros H1 H2. pose proof (positive_spec x H1 H2) as H.
  rewrite leb_zero_spec. destruct (Prim2SF x) as [s | [] | | [] m e]; tauto.
Qed.

Lemma ltb_scaled (x y : float) :
  is_finite x = true -> is_finite y = true ->
  (x <? y)%float = (scaled x <? scaled y).
Proof.
  rewrite !is_finite_spec, FloatAxioms.ltb_spec. intros Fx Fy. unfold SFltb, scaled, Z.ltb.
  rewrite SFcompare_SF2Z by auto using Prim2SF_valid. reflexivity.
Qed.

Lemma leb_scaled (x y : float) :
  is_finite x = true -> is_finite y = true ->
  (x <=? y)%float = (scaled x <=? scaled y).
Proof.
  rewrite !is_finite_spec, FloatAxioms.leb_spec. intros Fx Fy. unfold SFleb, scaled, Z.leb.
  rewrite SFcompare_SF2Z by auto using Prim2SF_valid.
  now destruct (_ ?= _).
Qed.

Lemma eqb_scaled (x y : float) :
  is_finite x = true -> is_finite y = true ->
  (x =? y)%float = (scaled x =? scaled y).
Proof.
  rewrite !is_finite_spec, FloatAxioms.eqb_spec. intros Fx Fy. unfold SFeqb, scaled.
  rewrite SFcompare_SF2Z by auto using Prim2SF_valid.
  destruct (Z.compare_spec (SF2Z (Prim2SF x)) (SF2Z (Prim2SF y)));
    symmetry; [apply Z.eqb_eq | apply Z.eqb_neq | apply Z.eqb_neq]; lia.
Qed.

(** A sum of numbers [>= 0] is [>= 0] (possibly [+inf]). *)
Lemma add_nonneg (b a : float) :
  (0 <=? b)%float = true -> (0 <=? a)%float = true -> (0 <=? b + a)%float = true.
Proof.
  rewrite !leb_zero_spec, add_spec. apply SFadd_nonneg.
Qed.

(** [not (b < a)] between numbers is [a <= b]. *)
Lemma not_ltb_leb (b a : float) :
  (b <? a)%float = false -> is_nan a = false -> is_nan b = false ->
  (a <=? b)%float = true.
Proof.
  rewrite FloatAxioms.ltb_spec, FloatAxioms.leb_spec, !is_nan_spec.
  unfold SFltb, SFleb. rewrite (SFcompare_antisym (Prim2SF b) (Prim2SF a)).
  destruct (Prim2SF a) as [sa | [] | | [] ma ea], (Prim2SF b) as [sb | [] | | [] mb eb];
    try discriminate; cbn [SFcompare option_map CompOpp]; auto;
    destruct (eb ?= ea); cbn [CompOpp]; auto; destruct (Pos.compare_cont Eq mb ma);
    cbn [CompOpp]; auto; discriminate.
Qed.

(** A difference [l - d] with [0 <= d <= l] is [>= 0], or NaN when both are
    [+inf]. *)
Lemma sub_nonneg (l d : float) :
  (0 <=? d)%float = true -> (d <=? l)%float = true ->
  (0 <=? l - d)%float = true \/ (is_infinity l = true /\ is_infinity d = true).
Proof.
  rewrite !leb_zero_spec, FloatAxioms.leb_spec, sub_spec. intros Hd Hle.
  destruct (SFsub_nonneg (Prim2SF l) (Prim2SF d)) as [H | [Hl Hd']];
    auto using Prim2SF_valid.
  right. unfold is_infinity. rewrite !FloatAxioms.eqb_spec, !abs_spec, Hl, Hd'.
  split; reflexivity.
Qed.

Lemma is_finite_not_infinity (x : float) : is_finite x = true -> is_infinity x = false.
Proof.
  unfold is_finite. destruct (is_nan x), (is_infinity x); cbn; congruence.
Qed.

Lemma is_finite_not_nan (x : float) : is_finite x = true -> is_nan x = false.
Proof.
  unfold is_finite. destruct (is_nan x), (is_infinity x); cbn; congruence.
Qed.

(** Whatever exceeds a number [>= 0] is positive. *)
Lemma above_nonneg_positive (y a : float) :
  (0 <=? y)%float = true -> (y <? a)%float = true -> (a <=? 0)%float = false.
Proof.
  rewrite leb_zero_spec, FloatAxioms.ltb_spec, FloatAxioms.leb_spec, Prim2SF_zero.
  destruct (Prim2SF y) as [sy | [] | | [] my ey], (Prim2SF a) as [sa | [] | | [] ma ea];
    cbn; auto; discriminate.
Qed.

(** When the exact sum is a float, the addition returns it. *)
Lemma add_exact (x y : float) :
  is_finite x = true -> is_finite y = true ->
  representable (scaled x + scaled y) ->
  is_finite (x + y) = true /\ scaled (x + y)%float = scaled x + scaled y.
Proof.
  intros Fx Fy (c & Fc & Hc). rewrite is_finite_spec in *. unfold scaled in *.
  rewrite add_spec. rewrite <- Hc.
  apply SFadd_representable; auto using Prim2SF_valid.
Qed.

(** When the exact difference is a float, the subtraction returns it. *)
Lemma sub_exact (x y : float) :
  is_finite x = true -> is_finite y = true ->
  representable (scaled x - scaled y) ->
  is_finite (x - y) = true /\ scaled (x - y)%float = scaled x - scaled y.
Proof.
  intros Fx Fy (c & Fc & Hc). rewrite is_finite_spec in *. unfold scaled in *.
  rewrite sub_spec. rewrite <- Hc.
  apply SFsub_representable; auto using Prim2SF_valid.
Qed.

Lemma sub_nonneg_or_nan (l d : float) :
  (0 <=? d)%float = true -> (d <=? l)%float = true ->
  (0 <=? l - d)%float = true \/ is_nan (l - d) = true.
Proof.
  rewrite !leb_zero_spec, FloatAxioms.leb_spec, is_nan_spec, sub_spec. intros Hd Hle.
  destruct (SFsub_nonneg (Prim2SF l) (Prim2SF d)) as [H | [Hl Hd']];
    auto using Prim2SF_valid.
  right. rewrite Hl, Hd'. reflexivity.
Qed.

(** Below a finite number, a number [>= 0] is finite. *)
Lemma leb_finite_l (l d : float) :
  (0 <=? d)%float = true -> (d <=? l)%float = true -> is_finite l = true ->
  is_finite d = true.
Proof.
  rewrite leb_zero_spec, FloatAxioms.leb_spec, !is_finite_spec.
  destruct (Prim2SF d) as [sd | [] | | [] md ed], (Prim2SF l) as [sl | [] | | [] ml el];
    cbn; auto.
Qed.

Lemma ltb_nan_l (x y : float) : is_nan x = true -> (x <? y)%float = false.
Proof.
  rewrite is_nan_spec, FloatAxioms.ltb_spec.
  now destruct (Prim2SF x).
Qed.

Lemma ltb_nan_r (x y : float) : is_nan y = true -> (x <? y)%float = false.
Proof.
  rewrite is_nan_spec, FloatAxioms.ltb_spec.
  destruct (Prim2SF y); try discriminate. now destruct (Prim2SF x).
Qed.

Lemma add_nan_r (x y : float) : is_nan y = true -> is_nan (x + y) = true.
Proof.
  rewrite !is_nan_spec, add_spec.
  destruct (Prim2SF y); try discriminate. now destruct (Prim2SF x).
Qed.

(** An infinite amount is either [<= 0] or above every finite number. *)
Lemma infinite_amount (y x : float) :
  is_finite y = true -> is_nan x = false -> is_finite x = false ->
  (x <=? 0)%float = true \/ (y <? x)%float = true.
Proof.
  rewrite !is_finite_spec, is_nan_spec, FloatAxioms.leb_spec, FloatAxioms.ltb_spec,
    Prim2SF_zero.
  destruct (Prim2SF x) as [sx | [] | | sx mx ex]; try discriminate; auto.
  destruct (Prim2SF y) as [sy | [] | | sy my ey]; try discriminate; auto.
Qed.

(** *** Rounding to nearest *)

Lemma pow2_succ (d : Z) : 0 < d -> 2 ^ d = 2 * 2 ^ (d - 1).
Proof. intros H. rewrite <- Z.pow_succ_r by lia. f_equal. lia. Qed.

Lemma digits2_pos_unique (p : positive) (d : Z) :
  0 < d -> 2 ^ (d - 1) <= Z.pos p < 2 ^ d -> Z.pos (digits2_pos p) = d.
Proof.
  intros Hd H. pose proof (digits2_pos_bounds p) as H'.
  pose proof (pow2_succ d Hd) as E1.
  pose proof (pow2_succ (Z.pos (digits2_pos p)) ltac:(lia)) as E2.
  apply (pow2_window (Z.pos p)); lia.
Qed.

Lemma shr_1_inv (m0 j : Z) (r : shr_record) :
  0 <= j -> shr_inv m0 j r -> shr_inv m0 (j + 1) (shr_1 r).
Proof.
  intros Hj (Hm & T & HT & Hv & Hr & Hs).
  assert (HP : 0 < 2 ^ j) by (apply Z.pow_pos_nonneg; lia).
  unfold shr_inv. rewrite Z.pow_add_r by lia. change (2 ^ 1) with 2.
  destruct r as [m rr s]. cbn [shr_m shr_r shr_s] in *.
  set (P := 2 ^ j) in *.
  assert (Hor : (rr || s = false <-> T = 0)).
  { destruct rr, s; cbn [orb]; split; intros H; try discriminate; try reflexivity.
    - assert (P <= T) by (apply Hr; reflexivity). lia.
    - assert (P <= T) by (apply Hr; reflexivity). lia.
    - assert (E : true = false) by (apply Hs; lia). discriminate.
    - assert (T = 0 \/ T = P) as [| E] by (apply Hs; reflexivity); [assumption|].
      assert (false = true) by (apply Hr; lia). discriminate. }
  destruct m as [| [p | p |] | p]; try lia; cbn [shr_1 shr_m shr_r shr_s]; (split; [lia|]).
  - exists T. repeat split; intros; try lia; try discriminate.
    + apply Hor in H. lia.
    + apply Hor. lia.
  - exists (2 * P + T). rewrite Pos2Z.inj_xI in Hv. repeat split; intros; try lia.
    + apply Hor in H. lia.
    + apply Hor. lia.
  - exists T. rewrite Pos2Z.inj_xO in Hv. repeat split; intros; try lia; try discriminate.
    + apply Hor in H. lia.
    + apply Hor. lia.
  - exists (2 * P + T). repeat split; intros; try lia.
    + apply Hor in H. lia.
    + apply Hor. lia.
Qed.

Lemma shr_iter_inv (m0 : Z) (p : positive) :
  0 <= m0 ->
  shr_inv m0 (Z.pos p)
    (SpecFloat.iter_pos shr_1 p {| shr_m := m0; shr_r := false; shr_s := false |}).
Proof.
  intros H0. rewrite iter_pos_iter.
  assert (I0 : shr_inv m0 0 {| shr_m := m0; shr_r := false; shr_s := false |}).
  { split; [exact H0|]. exists 0. cbn [shr_m shr_r shr_s]. change (2 ^ 0) with 1.
    repeat split; intros; try lia; try discriminate; auto. }
  induction p as [| p IH] using Pos.peano_ind.
  - cbn [Pos.iter]. apply (shr_1_inv m0 0); [lia | exact I0].
  - rewrite Pos.iter_succ, Pos2Z.inj_succ. apply shr_1_inv; [lia | exact IH].
Qed.

Lemma round_nearest_even_inv (m0 j : Z) (r : shr_record) :
  0 <= j -> shr_inv m0 j r ->
  exists dlt, round_nearest_even (shr_m r) (loc_of_shr_record r) = shr_m r + dlt /\
    0 <= dlt <= 1 /\
    - 2 ^ j <= 2 * ((shr_m r + dlt) * 2 ^ j - m0) <= 2 ^ j.
Proof.
  intros Hj (Hm & T & HT & Hv & Hr & Hs).
  assert (HP : 0 < 2 ^ j) by (apply Z.pow_pos_nonneg; lia).
  destruct r as [m rr s]. cbn [shr_m shr_r shr_s loc_of_shr_record] in *.
  set (P := 2 ^ j) in *.
  destruct rr, s; cbn [round_nearest_even].
  - exists 1. assert (P <= T) by (apply Hr; reflexivity).
    split; [reflexivity|]. split; [lia|]. nia.
  - assert (P <= T) by (apply Hr; reflexivity).
    assert (T = 0 \/ T = P) by (apply Hs; reflexivity).
    destruct (Z.even m); [exists 0 | exists 1]; (split; [try reflexivity; lia|]);
      (split; [lia|]); nia.
  - exists 0. assert (~ P <= T) by (intros H; apply Hr in H; discriminate).
    split; [lia|]. split; [lia|]. nia.
  - exists 0. assert (T = 0 \/ T = P) by (apply Hs; reflexivity).
    assert (~ P <= T) by (intros H'; apply Hr in H'; discriminate).
    split; [lia|]. split; [lia|]. nia.
Qed.

Lemma digits2_pos_shift (m d : positive) :
  Z.pos (digits2_pos (Pos.iter xO m d)) = Z.pos (digits2_pos m) + Z.pos d.
Proof.
  induction d as [| d IH] using Pos.peano_ind.
  - cbn [Pos.iter digits2_pos]. lia.
  - rewrite Pos.iter_succ. cbn [digits2_pos]. rewrite Pos2Z.inj_succ, IH. lia.
Qed.

(** Rounding a mantissa that is canonical already. *)
Lemma binary_round_aux_canonical_range (s : bool) (M : positive) (E : Z) :
  canonical_mantissa prec emax M E = true ->
  binary_round_aux prec emax s (Z.pos M) E loc_Exact =
    if E <=? emax - prec then S754_finite s M E else S754_infinity s.
Proof.
  intros Hc. unfold canonical_mantissa in Hc. apply Z.eqb_eq in Hc.
  unfold binary_round_aux, shr_fexp. cbn [Zdigits2 shr_record_of_loc].
  rewrite Hc, Z.sub_diag. cbn [shr loc_of_shr_record round_nearest_even shr_m].
  cbn [Zdigits2 shr_record_of_loc]. rewrite Hc, Z.sub_diag. cbn [shr shr_m].
  reflexivity.
Qed.

Lemma binary_round_nearest (m : positive) (e : Z) :
  -1074 <= e ->
  exists k R, 0 <= k /\ (exists u, R = u * 2 ^ k) /\
    - 2 ^ k <= 2 * (R - Z.pos m * 2 ^ (e + 1074)) <= 2 ^ k /\
    (R = Z.pos m * 2 ^ (e + 1074) \/ 2 ^ (52 + k) <= Z.pos m * 2 ^ (e + 1074)) /\
    ((binary_round prec emax false m e = S754_infinity false /\ 2 ^ 2098 <= R) \/
     exists M E, binary_round prec emax false m e = S754_finite false M E /\
                 Z.pos M * 2 ^ (E + 1074) = R).
Proof.
  intros He.
  pose proof (digits2_pos_bounds m) as Hd.
  assert (HK : 0 < 2 ^ (e + 1074)) by (apply Z.pow_pos_nonneg; lia).
  set (d := Z.pos (digits2_pos m)) in *.
  set (V := Z.pos m * 2 ^ (e + 1074)).
  destruct (Z_le_gt_dec d 53) as [Hle | Hgt].
  - (* nothing is shifted out *)
    exists 0, V. split; [lia|]. split; [exists V; change (2 ^ 0) with 1; lia|].
    split; [change (2 ^ 0) with 1; lia|]. split; [now left|].
    remember (fexp prec emax (d + e)) as fz eqn:Efz.
    assert (Hfz : fz = Z.max (d + e - 53) (-1074)) by (rewrite Efz; reflexivity).
    assert (Hres : exists mz,
               binary_round prec emax false m e =
                 (if fz <=? emax - prec then S754_finite false mz fz else S754_infinity false)
               /\ Z.pos mz * 2 ^ (fz + 1074) = V
               /\ Z.pos (digits2_pos mz) + fz = d + e).
    { unfold binary_round. fold d. rewrite <- Efz. unfold shl_align.
      destruct (fz - e) as [| p | p] eqn:Ed; try lia.
      - assert (H : fz = e) by lia. exists m. split; [| split].
        + rewrite H. apply binary_round_aux_canonical_range.
          unfold canonical_mantissa. fold d. apply Z.eqb_eq. rewrite <- Efz. exact H.
        + subst V. now rewrite H.
        + fold d. lia.
      - exists (Pos.iter xO m p). split; [| split].
        + apply binary_round_aux_canonical_range.
          unfold canonical_mantissa. apply Z.eqb_eq.
          rewrite digits2_pos_shift. fold d.
          replace (d + Z.pos p + fz) with (d + e) by lia. now rewrite <- Efz.
        + rewrite shl_iter. subst V.
          replace (e + 1074) with (Z.pos p + (fz + 1074)) by lia.
          rewrite (Z.pow_add_r 2 (Z.pos p) (fz + 1074)) by lia. ring.
        + rewrite digits2_pos_shift. fold d. lia. }
    destruct Hres as (mz & Hres & Hval & Hdig). rewrite Hres.
    destruct (Z.leb_spec fz (emax - prec)) as [Hin | Hout].
    + right. exists mz, fz. split; [reflexivity | exact Hval].
    + left. split; [reflexivity|]. unfold emax, prec in Hout.
      assert (Hp : 2 ^ (d - 1) * 2 ^ (e + 1074) = 2 ^ (d + e + 1073)).
      { rewrite <- Z.pow_add_r by lia. f_equal. lia. }
      assert (2 ^ 2098 <= 2 ^ (d + e + 1073)) by (apply Z.pow_le_mono_r; lia).
      subst V. nia.
  - (* [d - 53] bits are shifted out *)
    assert (Hn : exists p, d - 53 = Z.pos p) by (exists (Z.to_pos (d - 53)); lia).
    destruct Hn as [p Hp].
    assert (HN : 0 < 2 ^ Z.pos p) by (apply Z.pow_pos_nonneg; lia).
    assert (Hdp : 2 ^ (d - 1) = 2 ^ 52 * 2 ^ Z.pos p).
    { rewrite <- Z.pow_add_r by lia. f_equal. lia. }
    assert (Hdp' : 2 ^ d = 2 ^ 53 * 2 ^ Z.pos p).
    { rewrite <- Z.pow_add_r by lia. f_equal. lia. }
    assert (Hkk : 2 ^ (e + Z.pos p + 1074) = 2 ^ Z.pos p * 2 ^ (e + 1074)).
    { rewrite <- Z.pow_add_r by lia. f_equal. lia. }
    pose proof (shr_iter_inv (Z.pos m) p ltac:(lia)) as Inv.
    destruct (round_nearest_even_inv (Z.pos m) (Z.pos p) _ (Pos2Z.is_nonneg p) Inv)
      as (dlt & Hrne & Hdlt & Herr).
    destruct Inv as (Hmm & T & HT & Hv & _).
    set (rec := SpecFloat.iter_pos shr_1 p
                  {| shr_m := Z.pos m; shr_r := false; shr_s := false |}) in *.
    set (mm := shr_m rec) in *.
    assert (Hmm1 : 2 ^ 52 <= mm < 2 ^ 53) by (split; nia).
    exists (e + Z.pos p + 1074), ((mm + dlt) * 2 ^ (e + Z.pos p + 1074)).
    split; [lia|]. split; [eauto|].
    split; [rewrite Hkk; subst V; nia|].
    split.
    { right. replace (52 + (e + Z.pos p + 1074)) with (52 + Z.pos p + (e + 1074)) by lia.
      rewrite (Z.pow_add_r 2 (52 + Z.pos p) (e + 1074)), (Z.pow_add_r 2 52 (Z.pos p)) by lia.
      subst V. nia. }
    assert (Hstep1 : binary_round prec emax false m e =
              let '(mrs'', e'') :=
                shr_fexp prec emax (mm + dlt) (e + Z.pos p) loc_Exact in
              match shr_m mrs'' with
              | 0 => S754_zero false
              | Z.pos m2 => if e'' <=? emax - prec then S754_finite false m2 e''
                            else S754_infinity false
              | Z.neg _ => S754_nan
              end).
    { unfold binary_round. fold d.
      assert (Hf : fexp prec emax (d + e) = e + Z.pos p)
        by (unfold fexp, SpecFloat.emin, prec, emax; lia).
      rewrite Hf. unfold shl_align.
      replace (e + Z.pos p - e) with (Z.pos p) by lia.
      unfold binary_round_aux, shr_fexp at 1. cbn [Zdigits2 shr_record_of_loc].
      fold d. rewrite Hf. replace (e + Z.pos p - e) with (Z.pos p) by lia.
      cbn [shr]. fold rec. fold mm. rewrite Hrne. reflexivity. }
    rewrite Hstep1. clear Hstep1.
    destruct (Z.eq_dec (mm + dlt) (2 ^ 53)) as [Htop | Hntop].
    + (* the mantissa reached [2^53] *)
      rewrite Htop. change (2 ^ 53) with (Z.pos 9007199254740992).
      unfold shr_fexp. cbn [Zdigits2 shr_record_of_loc].
      change (Z.pos (digits2_pos 9007199254740992)) with 54.
      assert (Hf : fexp prec emax (54 + (e + Z.pos p)) - (e + Z.pos p) = 1)
        by (unfold fexp, SpecFloat.emin, prec, emax; lia).
      rewrite Hf. cbn [shr SpecFloat.iter_pos shr_1 shr_m orb].
      destruct (Z.leb_spec (e + Z.pos p + 1) (emax - prec)) as [Hin | Hout].
      * right. exists 4503599627370496%positive, (e + Z.pos p + 1). split; [reflexivity|].
        replace (e + Z.pos p + 1 + 1074) with (1 + (e + Z.pos p + 1074)) by lia.
        rewrite (Z.pow_add_r 2 1 (e + Z.pos p + 1074)) by lia.
        change (2 ^ 1) with 2. lia.
      * left. split; [reflexivity|]. unfold emax, prec in Hout.
        assert (2 ^ 2045 <= 2 ^ (e + Z.pos p + 1074)) by (apply Z.pow_le_mono_r; lia).
        change (2 ^ 2098) with (2 ^ 53 * 2 ^ 2045).
        change (Z.pos 9007199254740992) with (2 ^ 53). nia.
    + destruct (mm + dlt) as [| p1 | p1] eqn:Em1; try lia.
      assert (Hd1 : Z.pos (digits2_pos p1) = 53).
      { apply digits2_pos_unique; [lia|]. change (53 - 1) with 52. lia. }
      unfold shr_fexp. cbn [Zdigits2 shr_record_of_loc]. rewrite Hd1.
      assert (Hf : fexp prec emax (53 + (e + Z.pos p)) - (e + Z.pos p) = 0)
        by (unfold fexp, SpecFloat.emin, prec, emax; lia).
      rewrite Hf. cbn [shr shr_m].
      destruct (Z.leb_spec (e + Z.pos p) (emax - prec)) as [Hin | Hout].
      * right. exists p1, (e + Z.pos p). split; reflexivity.
      * left. split; [reflexivity|]. unfold emax, prec in Hout.
        assert (2 ^ 2046 <= 2 ^ (e + Z.pos p + 1074)) by (apply Z.pow_le_mono_r; lia).
        change (2 ^ 2098) with (2 ^ 52 * 2 ^ 2046). nia.
Qed.

Lemma bounded_multiple (m : positive) (e k : Z) :
  bounded prec emax m e = true -> 0 <= k ->
  2 ^ (52 + k) <= Z.pos m * 2 ^ (e + 1074) ->
  exists t, Z.pos m * 2 ^ (e + 1074) = t * 2 ^ k.
Proof.
  intros HB Hk Hv. pose proof (bounded_lt_pow _ _ HB) as Hm.
  destruct (bounded_inv _ _ HB) as (He & _).
  assert (HK : 0 < 2 ^ (e + 1074)) by (apply Z.pow_pos_nonneg; lia).
  assert (Hlt : 2 ^ (52 + k) < 2 ^ (53 + (e + 1074))).
  { rewrite (Z.pow_add_r 2 53 (e + 1074)) by lia. nia. }
  apply Z.pow_lt_mono_r_iff in Hlt; [| lia | lia].
  exists (Z.pos m * 2 ^ (e + 1074 - k)).
  rewrite <- Z.mul_assoc, <- Z.pow_add_r by lia. do 2 f_equal. lia.
Qed.

Lemma bounded_below_top (m : positive) (e : Z) :
  bounded prec emax m e = true -> Z.pos m * 2 ^ (e + 1074) < 2 ^ 2098.
Proof.
  intros HB. pose proof (bounded_lt_pow _ _ HB) as Hm.
  destruct (bounded_inv _ _ HB) as (He & _).
  assert (HK : 0 < 2 ^ (e + 1074)) by (apply Z.pow_pos_nonneg; lia).
  assert (2 ^ (e + 1074) <= 2 ^ 2045) by (apply Z.pow_le_mono_r; lia).
  change (2 ^ 2098) with (2 ^ 53 * 2 ^ 2045). nia.
Qed.

(** The value of a finite float that reaches [2 ^ (52 + k)] is a multiple
    of [2 ^ k], and every finite float is below [2 ^ 2098]. *)
Lemma finite_multiple (l : float) (k : Z) :
  is_finite l = true -> 0 <= k -> 2 ^ (52 + k) <= scaled l ->
  exists t, scaled l = t * 2 ^ k.
Proof.
  rewrite is_finite_spec. unfold scaled. intros F Hk Hv.
  pose proof (Prim2SF_valid l) as V.
  assert (0 < 2 ^ (52 + k)) by (apply Z.pow_pos_nonneg; lia).
  destruct (Prim2SF l) as [s | s | | s m e]; try discriminate; cbn [SF2Z] in *; try lia.
  cbn [valid_binary] in V. pose proof (SF2Z_finite_pos s m e V).
  destruct s; cbn [cond_Zopp] in *; [lia|].
  now apply bounded_multiple.
Qed.

Lemma finite_below_top (l : float) : is_finite l = true -> scaled l < 2 ^ 2098.
Proof.
  rewrite is_finite_spec. unfold scaled. intros F.
  pose proof (Prim2SF_valid l) as V.
  destruct (Prim2SF l) as [s | s | | s m e]; try discriminate; cbn [SF2Z] in *; try lia.
  cbn [valid_binary] in V. pose proof (bounded_below_top m e V).
  pose proof (SF2Z_finite_pos s m e V).
  destruct s; cbn [cond_Zopp]; lia.
Qed.

Lemma binary_normalize_nearest (z e : Z) :
  -1074 <= e -> 0 < z ->
  exists k R, 0 <= k /\ (exists u, R = u * 2 ^ k) /\
    - 2 ^ k <= 2 * (R - z * 2 ^ (e + 1074)) <= 2 ^ k /\
    (R = z * 2 ^ (e + 1074) \/ 2 ^ (52 + k) <= z * 2 ^ (e + 1074)) /\
    ((SFfinite (binary_normalize prec emax z e false) = false /\ 2 ^ 2098 <= R) \/
     (SFfinite (binary_normalize prec emax z e false) = true /\
      SF2Z (binary_normalize prec emax z e false) = R)).
Proof.
  intros He Hz. destruct z as [| m | m]; try lia. cbn [binary_normalize].
  destruct (binary_round_nearest m e He) as (k & R & Hk & Hu & Herr & Hmag & Hres).
  exists k, R. repeat (split; [assumption|]).
  destruct Hres as [[-> HR] | (M & E & -> & HR)]; [left | right]; cbn; auto.
Qed.

(** The sum of two finite floats with a positive exact value [V]: the
    result [R] is a multiple of some [2 ^ k] within half of [2 ^ k] of [V],
    and [V] reaches [2 ^ (52 + k)] unless the result is exact. *)
Lemma add_nearest (x y : float) :
  is_finite x = true -> is_finite y = true -> 0 < scaled x + scaled y ->
  exists k R, 0 <= k /\ (exists u, R = u * 2 ^ k) /\
    - 2 ^ k <= 2 * (R - (scaled x + scaled y)) <= 2 ^ k /\
    (R = scaled x + scaled y \/ 2 ^ (52 + k) <= scaled x + scaled y) /\
    ((is_finite (x + y) = false /\ 2 ^ 2098 <= R) \/
     (is_finite (x + y) = true /\ scaled (x + y) = R)).
Proof.
  rewrite !is_finite_spec. unfold scaled. rewrite add_spec. unfold SF64add.
  pose proof (Prim2SF_valid x) as Vx. pose proof (Prim2SF_valid y) as Vy.
  intros Fx Fy Hpos.
  assert (Hexact : forall r, SFfinite r = true -> SF2Z r = SF2Z (Prim2SF x) + SF2Z (Prim2SF y) ->
            exists k R, 0 <= k /\ (exists u, R = u * 2 ^ k) /\
              - 2 ^ k <= 2 * (R - (SF2Z (Prim2SF x) + SF2Z (Prim2SF y))) <= 2 ^ k /\
              (R = SF2Z (Prim2SF x) + SF2Z (Prim2SF y) \/
               2 ^ (52 + k) <= SF2Z (Prim2SF x) + SF2Z (Prim2SF y)) /\
              ((SFfinite r = false /\ 2 ^ 2098 <= R) \/ (SFfinite r = true /\ SF2Z r = R))).
  { intros r Fr Hr. exists 0, (SF2Z (Prim2SF x) + SF2Z (Prim2SF y)).
    change (2 ^ 0) with 1. split; [lia|]. split; [eexists; rewrite Z.mul_1_r; reflexivity|].
    split; [lia|]. split; [now left|]. right. auto. }
  destruct (Prim2SF x) as [sx | sx | | sx mx ex], (Prim2SF y) as [sy | sy | | sy my ey];
    try discriminate.
  - apply Hexact; reflexivity.
  - apply Hexact; [reflexivity | cbn [SFadd SF2Z]; lia].
  - cbn [valid_binary] in Vx, Vy.
    destruct (SFadd_finite sx sy mx my ex ey Vx Vy) as (z & Hz & -> & Hv).
    rewrite <- Hv in Hpos |- *.
    assert (0 < 2 ^ (Z.min ex ey + 1074)) by (apply Z.pow_pos_nonneg; lia).
    apply binary_normalize_nearest; [exact Hz | nia].
Qed.

Lemma sub_nearest (x y : float) :
  is_finite x = true -> is_finite y = true -> 0 < scaled x - scaled y ->
  exists k R, 0 <= k /\ (exists u, R = u * 2 ^ k) /\
    - 2 ^ k <= 2 * (R - (scaled x - scaled y)) <= 2 ^ k /\
    (R = scaled x - scaled y \/ 2 ^ (52 + k) <= scaled x - scaled y) /\
    ((is_finite (x - y) = false /\ 2 ^ 2098 <= R) \/
     (is_finite (x - y) = true /\ scaled (x - y) = R)).
Proof.
  rewrite !is_finite_spec. unfold scaled. rewrite sub_spec. unfold SF64sub.
  pose proof (Prim2SF_valid x) as Vx. pose proof (Prim2SF_valid y) as Vy.
  intros Fx Fy Hpos.
  assert (Hexact : forall r, SFfinite r = true -> SF2Z r = SF2Z (Prim2SF x) - SF2Z (Prim2SF y) ->
            exists k R, 0 <= k /\ (exists u, R = u * 2 ^ k) /\
              - 2 ^ k <= 2 * (R - (SF2Z (Prim2SF x) - SF2Z (Prim2SF y))) <= 2 ^ k /\
              (R = SF2Z (Prim2SF x) - SF2Z (Prim2SF y) \/
               2 ^ (52 + k) <= SF2Z (Prim2SF x) - SF2Z (Prim2SF y)) /\
              ((SFfinite r = false /\ 2 ^ 2098 <= R) \/ (SFfinite r = true /\ SF2Z r = R))).
  { intros r Fr Hr. exists 0, (SF2Z (Prim2SF x) - SF2Z (Prim2SF y)).
    change (2 ^ 0) with 1. split; [lia|]. split; [eexists; rewrite Z.mul_1_r; reflexivity|].
    split; [lia|]. split; [now left|]. right. auto. }
  destruct (Prim2SF x) as [sx | sx | | sx mx ex], (Prim2SF y) as [sy | sy | | sy my ey];
    try discriminate.
  - apply Hexact; [reflexivity | cbn [SFsub SF2Z]; destruct sy; cbn; lia].
  - apply Hexact; [reflexivity | cbn [SFsub SF2Z]; lia].
  - cbn [valid_binary] in Vx, Vy.
    destruct (SFsub_finite sx sy mx my ex ey Vx Vy) as (z & Hz & -> & Hv).
    rewrite <- Hv in Hpos |- *.
    assert (0 < 2 ^ (Z.min ex ey + 1074)) by (apply Z.pow_pos_nonneg; lia).
    apply binary_normalize_nearest; [exact Hz | nia].
Qed.

(** Rounding does not step over a float: below a finite float [l], the
    rounded sum is finite and below [l]. *)
Lemma nearest_below (k R V : Z) (l : float) :
  is_finite l = true -> 0 <= k -> (exists u, R = u * 2 ^ k) ->
  2 * (R - V) <= 2 ^ k -> (R = V \/ 2 ^ (52 + k) <= V) -> V <= scaled l ->
  R <= scaled l.
Proof.
  intros Fl Hk [u ->] Herr [-> | Hmag] Hle; [exact Hle|].
  destruct (finite_multiple l k Fl Hk ltac:(lia)) as [t Ht].
  assert (HP : 0 < 2 ^ k) by (apply Z.pow_pos_nonneg; lia).
  rewrite Ht in *. set (P := 2 ^ k) in *.
  destruct (Z_le_gt_dec u t) as [H | H]; [nia|]. exfalso.
  assert (t + 1 <= u) by lia. nia.
Qed.

Lemma add_below (d a l : float) :
  is_finite d = true -> is_finite a = true -> is_finite l = true ->
  0 < scaled d + scaled a -> scaled d + scaled a <= scaled l ->
  is_finite (d + a) = true /\ scaled (d + a)%float <= scaled l.
Proof.
  intros Fd Fa Fl Hpos Hle.
  destruct (add_nearest d a Fd Fa Hpos) as (k & R & Hk & Hu & Herr & Hmag & Hres).
  assert (HR : R <= scaled l)
    by (apply (nearest_below k R (scaled d + scaled a) l); auto; lia).
  pose proof (finite_below_top l Fl).
  destruct Hres as [[_ Hbig] | [F E]]; [lia|]. split; [exact F | lia].
Qed.

(** The guard of a purchase, when the new debt is exact: an amount within
    the rounded difference [l - d] keeps [d + a] within [l]. *)
Lemma within_rounded_difference (l d a : float) :
  is_finite l = true -> is_finite d = true -> is_finite a = true ->
  0 <= scaled d <= scaled l -> 0 < scaled a ->
  (l - d <? a)%float = false ->
  representable (scaled d + scaled a) ->
  scaled d + scaled a <= scaled l.
Proof.
  intros Fl Fd Fa [Hd Hdl] Ha Hguard (c & Fc & Hc).
  destruct (Z.eq_dec (scaled l - scaled d) 0) as [Hz | Hnz].
  - destruct (sub_exact l d Fl Fd) as [F E].
    { exists 0%float. split; [reflexivity | now rewrite Hz]. }
    rewrite ltb_scaled in Hguard by assumption. apply Z.ltb_ge in Hguard. lia.
  - destruct (sub_nearest l d Fl Fd ltac:(lia)) as (k & R & Hk & Hu & Herr & Hmag & Hres).
    assert (HR : R <= scaled l)
      by (apply (nearest_below k R (scaled l - scaled d) l); auto; lia).
    pose proof (finite_below_top l Fl).
    destruct Hres as [[_ Hbig] | [F E]]; [lia|].
    rewrite ltb_scaled in Hguard by assumption. apply Z.ltb_ge in Hguard.
    destruct Hmag as [HRV | Hmag]; [lia|].
    destruct (Z_le_gt_dec (scaled d + scaled a) (scaled l)) as [| Hgt]; [assumption|].
    exfalso.
    destruct (finite_multiple l k Fl Hk ltac:(lia)) as [t Ht].
    destruct (finite_multiple c k Fc Hk ltac:(lia)) as [t' Ht'].
    assert (HP : 0 < 2 ^ k) by (apply Z.pow_pos_nonneg; lia).
    rewrite Hc in Ht'. rewrite Ht in *. rewrite E in Hguard.
    set (P := 2 ^ k) in *.
    assert (t + 1 <= t') by nia. nia.
Qed.

(** A difference [l - d] of finite floats with [0 <= d <= l] is finite. *)
Lemma sub_finite_below (l d : float) :
  is_finite l = true -> is_finite d = true -> 0 <= scaled d <= scaled l ->
  is_finite (l - d) = true.
Proof.
  intros Fl Fd [Hd Hdl].
  destruct (Z.eq_dec (scaled l - scaled d) 0) as [Hz | Hnz].
  - apply (sub_exact l d Fl Fd).
    exists 0%float. split; [reflexivity | now rewrite Hz].
  - destruct (sub_nearest l d Fl Fd ltac:(lia)) as (k & R & Hk & Hu & Herr & Hmag & Hres).
    assert (HR : R <= scaled l)
      by (apply (nearest_below k R (scaled l - scaled d) l); auto; lia).
    pose proof (finite_below_top l Fl).
    destruct Hres as [[_ Hbig] | [F E]]; [lia | exact F].
Qed.

(** Nothing is above [+inf]. *)
Lemma ltb_infinite_l (l x : float) :
  is_finite l = false -> (0 <=? l)%float = true -> (l <? x)%float = false.
Proof.
  rewrite is_finite_spec, leb_zero_spec, FloatAxioms.ltb_spec.
  destruct (Prim2SF l) as [sl | [] | | sl ml el]; try discriminate; intros _ _.
  destruct (Prim2SF x) as [sx | [] | | [] mx ex]; reflexivity.
Qed.

Lemma leb_trans_nonneg (d l : float) :
  (0 <=? d)%float = true -> (d <=? l)%float = true -> (0 <=? l)%float = true.
Proof.
  rewrite !leb_zero_spec, FloatAxioms.leb_spec.
  destruct (Prim2SF d) as [sd | [] | | [] md ed], (Prim2SF l) as [sl | [] | | [] ml el];
    cbn; auto; try discriminate.
Qed.

End Binary64Facts.

(** * Facts about the entity layer *)

Import Binary64 Binary64Facts.

(** ** Statements and the engine *)

Lemma execute_dml_raised (q : dml) (w : world) :
  List.hd false (faults w) = true ->
  BaseEntity._execute_dml q w =
    (None, logged [(ERROR, SqlDmlFailed)] (set_faults (List.tl (faults w)) w)).
Proof.
  intros H. unfold BaseEntity._execute_dml, bind, next_fault. rewrite H. reflexivity.
Qed.

Lemma execute_dml_accepted (q : dml) (w : world) :
  List.hd false (faults w) = false ->
  BaseEntity._execute_dml q w =
    (Some (if is_insert q then snd (execute q (db w)) else 1),
     set_db (fst (execute q (db w))) (set_faults (List.tl (faults w)) w)).
Proof.
  intros H. unfold BaseEntity._execute_dml, bind, next_fault. rewrite H.
  unfold commit. cbn [faults db set_faults]. destruct (is_insert q); reflexivity.
Qed.

(** A statement changes the tables only when the engine accepts it. *)
Lemma execute_dml_db (q : dml) (w : world) :
  db (snd (BaseEntity._execute_dml q w)) =
    if List.hd false (faults w) then db w else fst (execute q (db w)).
Proof.
  destruct (List.hd false (faults w)) eqn:H.
  - now rewrite execute_dml_raised.
  - now rewrite execute_dml_accepted.
Qed.

(** ** Account *)

Lemma record_transaction_accounts (a : Account.t) (ty : string) (x : float) (w : world) :
  accounts (db (snd (Account._record_transaction a ty x w))) = accounts (db w).
Proof.
  unfold Account._record_transaction, bind, now.
  match goal with |- context [BaseEntity._execute_dml ?q ?w1] =>
    pose proof (execute_dml_db q w1) as H;
    destruct (BaseEntity._execute_dml q w1) as [r w2] end.
  cbn [snd ret] in *. rewrite H. cbn [faults set_clock db].
  destruct (List.hd false (faults w)); reflexivity.
Qed.

(** What a call of [deposit] can have done. *)
Lemma deposit_inv (a a' : Account.t) (x : float) (w w' : world) (ok : bool) :
  Account.deposit a x w = ((ok, a'), w') ->
  (ok = false /\ a' = a /\ db w' = db w) \/
  (ok = true /\ (x <=? 0)%float = false /\ List.hd false (faults w) = false /\
   a' = Account.set_balance (Account._balance a + x)%float a /\
   accounts (db w') =
     update_row (with_balance (fun b => b + x)%float) (Account._account_id a)
       (accounts (db w))).
Proof.
  unfold Account.deposit. destruct (x <=? 0)%float eqn:Hx.
  - intros [= <- <- <-]. left. auto.
  - unfold bind at 1. destruct (List.hd false (faults w)) eqn:Hf.
    + rewrite execute_dml_raised by exact Hf. cbn [truthy ret].
      intros [= <- <- <-]. left. auto.
    + rewrite execute_dml_accepted by exact Hf. cbn [is_insert truthy Z.eqb negb].
      unfold bind at 1.
      match goal with |- context [Account._record_transaction ?s ?t ?y ?w1] =>
        pose proof (record_transaction_accounts s t y w1) as H;
        destruct (Account._record_transaction s t y w1) as [u w2] end.
      cbn [snd] in H. cbn. intros [= <- <- <-]. right.
      repeat split; auto.
Qed.

(** What a call of [withdraw] can have done. *)
Lemma withdraw_inv (a a' : Account.t) (x : float) (w w' : world) (ok : bool) :
  Account.withdraw a x w = ((ok, a'), w') ->
  (ok = false /\ a' = a /\ db w' = db w) \/
  (ok = true /\ (x <=? 0)%float = false /\ (Account._balance a <? x)%float = false /\
   List.hd false (faults w) = false /\
   a' = Account.set_balance (Account._balance a - x)%float a /\
   accounts (db w') =
     update_row (with_balance (fun b => b - x)%float) (Account._account_id a)
       (accounts (db w))).
Proof.
  unfold Account.withdraw. destruct (x <=? 0)%float eqn:Hx.
  - intros [= <- <- <-]. left. auto.
  - destruct (Account._balance a <? x)%float eqn:Hb.
    + intros [= <- <- <-]. left. auto.
    + unfold bind at 1. destruct (List.hd false (faults w)) eqn:Hf.
      * rewrite execute_dml_raised by exact Hf. cbn [truthy ret].
        intros [= <- <- <-]. left. auto.
      * rewrite execute_dml_accepted by exact Hf. cbn [is_insert truthy Z.eqb negb].
        unfold bind at 1.
        match goal with |- context [Account._record_transaction ?s ?t ?y ?w1] =>
          pose proof (record_transaction_accounts s t y w1) as H;
          destruct (Account._record_transaction s t y w1) as [u w2] end.
        cbn [snd] in H. cbn. intros [= <- <- <-]. right.
        repeat split; auto.
Qed.

Lemma deposit_raised (a : Account.t) (x : float) (w : world) :
  (x <=? 0)%float = false -> List.hd false (faults w) = true ->
  Account.deposit a x w =
    ((false, a), logged [(ERROR, SqlDmlFailed)] (set_faults (List.tl (faults w)) w)).
Proof.
  intros Hx Hf. unfold Account.deposit. rewrite Hx. unfold bind at 1.
  rewrite execute_dml_raised by exact Hf. reflexivity.
Qed.

Lemma withdraw_raised (a : Account.t) (x : float) (w : world) :
  (x <=? 0)%float = false -> (Account._balance a <? x)%float = false ->
  List.hd false (faults w) = true ->
  Account.withdraw a x w =
    ((false, a), logged [(ERROR, SqlDmlFailed)] (set_faults (List.tl (faults w)) w)).
Proof.
  intros Hx Hb Hf. unfold Account.withdraw. rewrite Hx, Hb. unfold bind at 1.
  rewrite execute_dml_raised by exact Hf. reflexivity.
Qed.

(** An update of the row keeps a snapshot in step when it applies the same
    function to the balance. *)
Lemma in_sync_update (a : Account.t) (w w' : world) (f : float -> float) :
  in_sync a w ->
  accounts (db w') = update_row (with_balance f) (Account._account_id a) (accounts (db w)) ->
  in_sync (Account.set_balance (f (Account._balance a)) a) w'.
Proof.
  intros (k & r & Hid & Hrow & Hbal) Hacc.
  exists k, (with_balance f r).
  cbn [Account.set_balance Account._account_id Account._balance].
  split; [exact Hid|]. split.
  - rewrite Hacc, Hid. cbn [update_row rows]. rewrite lookup_alter_eq, Hrow. reflexivity.
  - cbn [with_balance a_balance]. now rewrite Hbal.
Qed.

Lemma in_sync_same_db (a : Account.t) (w w' : world) :
  in_sync a w -> db w' = db w -> in_sync a w'.
Proof. intros (k & r & H) E. exists k, r. now rewrite E. Qed.

(** A snapshot that [Account.load] returns carries the balance of its row. *)
Lemma load_in_sync (k : Z) (a : Account.t) (w w' : world) :
  Account.load k w = (Some a, w') -> in_sync a w'.
Proof.
  unfold Account.load, BaseEntity._fetch_record, bind, next_fault.
  destruct (List.hd false (faults w)); [discriminate|].
  destruct (rows (accounts (db (set_faults (List.tl (faults w)) w))) !! k)
    as [r |] eqn:Hr; [| discriminate].
  intros [= <- <-]. exists k, r. repeat split. exact Hr.
Qed.

(** One call keeps a balance [>= 0], and keeps a snapshot in step with its
    row. *)
Lemma perform_keeps (c : call) (a a' : Account.t) (w w' : world) (ok : bool) :
  numeric c -> (0 <=? Account._balance a)%float = true ->
  perform c a w = ((ok, a'), w') ->
  (0 <=? Account._balance a')%float = true /\ (in_sync a w -> in_sync a' w').
Proof.
  intros Hc Hb Hp. destruct c as [x | x]; cbn [perform numeric] in *.
  - apply deposit_inv in Hp as [(-> & -> & Hdb) | (-> & Hx & Hf & -> & Hacc)].
    + split; [exact Hb | intros S; now apply (in_sync_same_db a w)].
    + split.
      * cbn [Account.set_balance Account._balance].
        apply add_nonneg; [exact Hb | now apply positive_nonneg].
      * intros S. now apply (in_sync_update a w w' (fun b => b + x)%float).
  - apply withdraw_inv in Hp as [(-> & -> & Hdb) | (-> & Hx & Hlt & Hf & -> & Hacc)].
    + split; [exact Hb | intros S; now apply (in_sync_same_db a w)].
    + split.
      * cbn [Account.set_balance Account._balance].
        assert (Hxn : is_nan x = false) by now apply is_finite_not_nan.
        assert (Hle : (x <=? Account._balance a)%float = true)
          by (apply not_ltb_leb; auto using nonneg_not_nan).
        destruct (sub_nonneg (Account._balance a) x) as [H | [_ H]]; auto.
        -- now apply positive_nonneg.
        -- rewrite (is_finite_not_infinity x Hc) in H. discriminate.
      * intros S. now apply (in_sync_update a w w' (fun b => b - x)%float).
Qed.

Lemma perform_all_cons (c : call) (cs : list call) (a : Account.t) (w : world) :
  perform_all (c :: cs) a w =
    ((fst (fst (perform c a w))
        :: fst (fst (perform_all cs (snd (fst (perform c a w))) (snd (perform c a w)))),
      snd (fst (perform_all cs (snd (fst (perform c a w))) (snd (perform c a w))))),
     snd (perform_all cs (snd (fst (perform c a w))) (snd (perform c a w)))).
Proof.
  cbn [perform_all]. unfold bind, ret.
  destruct (perform c a w) as [[ok a1] w1]. cbn [fst snd].
  destruct (perform_all cs a1 w1) as [[oks a2] w2]. reflexivity.
Qed.

(** ** CreditCard and Loan *)

(** [make_purchase], branch by branch. *)
Lemma make_purchase_eq (c : CreditCard.t) (x : float) (w : world) :
  CreditCard.make_purchase c x w =
    if (x <=? 0)%float then
      ((false, c), logged [(WARNING, PurchaseNotPositive)] w)
    else if (CreditCard.available_credit c <? x)%float then
      ((false, c),
       logged [(WARNING, PurchaseExceedsCredit (CreditCard._card_id c)
                           (CreditCard.available_credit c))] w)
    else
      let c' := CreditCard.set_current_debt (CreditCard._current_debt c + x)%float c in
      if List.hd false (faults w) then
        ((false, c'),
         logged [(ERROR, SqlDmlFailed)] (set_faults (List.tl (faults w)) w))
      else
        ((true, c'),
         logged [(INFO, PurchaseDone (CreditCard._card_id c) x
                          (CreditCard._current_debt c + x)%float)]
           (set_db (fst (execute
                           (UpdateCardDebt (CreditCard._current_debt c + x)%float
                              (CreditCard._card_id c)) (db w)))
              (set_faults (List.tl (faults w)) w))).
Proof.
  unfold CreditCard.make_purchase.
  destruct (x <=? 0)%float; [reflexivity|].
  destruct (CreditCard.available_credit c <? x)%float; [reflexivity|].
  cbv zeta. unfold bind at 1. destruct (List.hd false (faults w)) eqn:Hf.
  - rewrite execute_dml_raised by exact Hf. reflexivity.
  - rewrite execute_dml_accepted by exact Hf. reflexivity.
Qed.

(** [approve], branch by branch. *)
Lemma approve_eq (l : Loan.t) (w : world) :
  Loan.approve l w =
    if String.eqb (Loan._status l) "Pending" && truthy (Loan._loan_id l) then
      let l' := Loan.set_status "Approved" l in
      if List.hd false (faults w) then
        ((false, l'),
         logged [(WARNING, LoanNotApproved (Loan._loan_id l) "Approved")]
           (logged [(ERROR, SqlDmlFailed)] (set_faults (List.tl (faults w)) w)))
      else
        ((true, l'),
         logged [(INFO, LoanApproved (Loan._loan_id l) (Loan._customer_id l))]
           (set_db (fst (execute (UpdateLoanStatus "Approved" (Loan._loan_id l)) (db w)))
              (set_faults (List.tl (faults w)) w)))
    else
      ((false, l),
       logged [(WARNING, LoanNotApproved (Loan._loan_id l) (Loan._status l))] w).
Proof.
  unfold Loan.approve.
  destruct (String.eqb (Loan._status l) "Pending" && truthy (Loan._loan_id l));
    [| reflexivity].
  cbv zeta. unfold bind at 1. destruct (List.hd false (faults w)) eqn:Hf.
  - rewrite execute_dml_raised by exact Hf. reflexivity.
  - rewrite execute_dml_accepted by exact Hf. reflexivity.
Qed.

Lemma make_purchase_raised (c : CreditCard.t) (x : float) (w : world) :
  (x <=? 0)%float = false -> (CreditCard.available_credit c <? x)%float = false ->
  List.hd false (faults w) = true ->
  CreditCard.make_purchase c x w =
    ((false, CreditCard.set_current_debt (CreditCard._current_debt c + x)%float c),
     logged [(ERROR, SqlDmlFailed)] (set_faults (List.tl (faults w)) w)).
Proof. intros Hx Hb Hf. rewrite make_purchase_eq, Hx, Hb, Hf. reflexivity. Qed.

Lemma approve_raised (l : Loan.t) (w : world) :
  Loan._status l = "Pending" -> truthy (Loan._loan_id l) = true ->
  List.hd false (faults w) = true ->
  Loan.approve l w =
    ((false, Loan.set_status "Approved" l),
     logged [(WARNING, LoanNotApproved (Loan._loan_id l) "Approved")]
       (logged [(ERROR, SqlDmlFailed)] (set_faults (List.tl (faults w)) w))).
Proof. intros Hs Hk Hf. rewrite approve_eq, Hs, Hk, Hf. reflexivity. Qed.

(** For a card with [0 <= debt <= limit], the refusal for exceeding the
    available credit happens exactly when the amount exceeds it. *)
Lemma refused_over_limit_iff (c : CreditCard.t) (amount : float) (w : world) :
  (0 <=? CreditCard._current_debt c)%float = true ->
  (CreditCard._current_debt c <=? CreditCard._credit_limit c)%float = true ->
  refused_over_limit c amount w <->
  (CreditCard.available_credit c <? amount)%float = true.
Proof.
  intros H0 Hle. unfold refused_over_limit. rewrite make_purchase_eq. split.
  - destruct (amount <=? 0)%float.
    { intros [= H]. apply app_inv_head in H. discriminate. }
    destruct (CreditCard.available_credit c <? amount)%float; [reflexivity|].
    cbv zeta. destruct (List.hd false (faults w)); [| discriminate].
    intros [= _ _ H]. apply app_inv_head in H. discriminate.
  - intros Hav. rewrite Hav.
    assert (Hx : (amount <=? 0)%float = false).
    { destruct (sub_nonneg_or_nan _ _ H0 Hle) as [H | H].
      - exact (above_nonneg_positive _ _ H Hav).
      - unfold CreditCard.available_credit in Hav.
        rewrite (ltb_nan_l _ amount H) in Hav. discriminate. }
    rewrite Hx. reflexivity.
Qed.

(** * The claims *)

(** ** C1: the balance stays non-negative *)

(** C1, as the code has it.  From a balance [>= 0], after any sequence of
    [deposit] and [withdraw] calls whose deposited amounts are numbers (not
    NaN) and whose withdrawn amounts are finite, the balance of the snapshot
    is [>= 0], whether or not the calls succeeded; and a snapshot that
    carried the balance of its row at the start still does at the end, so
    the persisted balance is that same non-negative number. *)
Theorem balance_stays_nonnegative (cs : list call) (a : Account.t) (w : world) :
  (0 <=? Account._balance a)%float = true ->
  Forall numeric cs ->
  (0 <=? Account._balance (snd (fst (perform_all cs a w))))%float = true /\
  (in_sync a w ->
   in_sync (snd (fst (perform_all cs a w))) (snd (perform_all cs a w))).
Proof.
  intros Hb Hcs. revert a w Hb.
  induction Hcs as [| c cs Hc Hcs IH]; intros a w Hb.
  - cbn. auto.
  - rewrite perform_all_cons. cbn [fst snd].
    destruct (perform c a w) as [[ok a1] w1] eqn:Hp. cbn [fst snd].
    destruct (perform_keeps c a a1 w w1 ok Hc Hb Hp) as [Hb1 Hs1].
    destruct (IH a1 w1 Hb1) as [Hb2 Hs2]. auto.
Qed.

(** C1 on [saved_account]: deposit 50, a refused withdrawal of 500, a
    withdrawal of 30. *)
Lemma balance_stays_nonnegative_witness :
  (0 <=? Account._balance saved_account)%float = true /\
  Forall numeric [Deposit 50%float; Withdraw 500%float; Withdraw 30%float] /\
  in_sync saved_account w_account /\
  (0 <=? Account._balance
           (snd (fst (perform_all
                        [Deposit 50%float; Withdraw 500%float; Withdraw 30%float]
                        saved_account w_account))))%float = true /\
  in_sync
    (snd (fst (perform_all [Deposit 50%float; Withdraw 500%float; Withdraw 30%float]
                 saved_account w_account)))
    (snd (perform_all [Deposit 50%float; Withdraw 500%float; Withdraw 30%float]
            saved_account w_account)).
Proof.
  assert (H1 : (0 <=? Account._balance saved_account)%float = true) by reflexivity.
  assert (H2 : Forall numeric [Deposit 50%float; Withdraw 500%float; Withdraw 30%float])
    by (repeat constructor).
  assert (H3 : in_sync saved_account w_account).
  { exists 1, {| a_customer_id := Some 1; a_balance := 100%float;
                 a_account_type := "Savings"; a_is_active := 1 |}.
    repeat split; reflexivity. }
  destruct (balance_stays_nonnegative _ saved_account w_account H1 H2)
    as [H4 H5].
  split; [exact H1|]. split; [exact H2|]. split; [exact H3|].
  split; [exact H4 | exact (H5 H3)].
Defined.

(** C1 as stated fails on amounts that are not finite.  On an account object
    that was never saved every [UPDATE] selects no row and is accepted (each
    [INSERT] of a transaction record, with a NULL account key, raises).
    Depositing [inf] and then withdrawing [inf] both return [True]: [inf] is
    positive and does not exceed the balance [inf], and [inf - inf] leaves a
    NaN balance, which is not [>= 0].  So does a single deposit of NaN. *)
Lemma nonfinite_amounts_break_nonnegativity :
  (0 <=? Account._balance unsaved_account)%float = true /\
  (fst (fst (perform_all [Deposit infinity; Withdraw infinity] unsaved_account
               (fresh_world [false; true; false; true])))
   = [true; true] /\
   (0 <=? Account._balance
            (snd (fst (perform_all [Deposit infinity; Withdraw infinity]
                         unsaved_account
                         (fresh_world [false; true; false; true])))))%float
   = false) /\
  (fst (fst (perform_all [Deposit nan] unsaved_account (fresh_world [false; true])))
   = [true] /\
   (0 <=? Account._balance
            (snd (fst (perform_all [Deposit nan] unsaved_account
                         (fresh_world [false; true])))))%float
   = false).
Proof. vm_compute. repeat split. Qed.

(** ** C2: the two refusals of [withdraw] *)

(** C2, as the code has it.  [withdraw] tests [amount <= 0] first: such an
    amount is refused with the must-be-positive warning; an amount that is
    not [<= 0] and exceeds the balance is refused with the insufficient-funds
    warning.  Both return [False] and leave the snapshot, the tables and the
    rest of the world as they were.  For a balance [>= 0] an amount above
    the balance is never [<= 0]. *)
Theorem withdraw_refusals (a : Account.t) (amount : float) (w : world) :
  ((amount <=? 0)%float = true ->
   Account.withdraw a amount w =
     ((false, a), logged [(WARNING, WithdrawalNotPositive (Account._account_id a))] w)) /\
  ((amount <=? 0)%float = false -> (Account._balance a <? amount)%float = true ->
   Account.withdraw a amount w =
     ((false, a),
      logged [(WARNING, InsufficientFunds (Account._account_id a) amount
                          (Account._balance a))] w)) /\
  ((0 <=? Account._balance a)%float = true ->
   (Account._balance a <? amount)%float = true -> (amount <=? 0)%float = false).
Proof.
  split; [| split].
  - intros H. unfold Account.withdraw. rewrite H. reflexivity.
  - intros H1 H2. unfold Account.withdraw. rewrite H1, H2. reflexivity.
  - apply above_nonneg_positive.
Qed.

(** C2 on [saved_account]: withdrawing -5, and withdrawing 150 from 100. *)
Lemma withdraw_refusals_witness :
  Account.withdraw saved_account (-5)%float w_account =
    ((false, saved_account),
     logged [(WARNING, WithdrawalNotPositive (Some 1))] w_account) /\
  Account.withdraw saved_account 150%float w_account =
    ((false, saved_account),
     logged [(WARNING, InsufficientFunds (Some 1) 150%float 100%float)]
       w_account) /\
  (150 <=? 0)%float = false.
Proof.
  split; [| split].
  - apply (proj1 (withdraw_refusals saved_account (-5)%float w_account)).
    reflexivity.
  - apply (proj1 (proj2 (withdraw_refusals saved_account 150%float w_account))).
    + reflexivity.
    + reflexivity.
  - apply (proj2 (proj2 (withdraw_refusals saved_account 150%float w_account))).
    + reflexivity.
    + reflexivity.
Defined.

(** C2 as stated fails on an overdrawn account: with a balance of -100 the
    amount -1 exceeds the balance, and the call is refused for a non-positive
    amount, not for insufficient funds. *)
Lemma withdraw_negative_from_overdrawn :
  (Account._balance overdrawn_account <? -1)%float = true /\
  Account.withdraw overdrawn_account (-1)%float w_overdrawn =
    ((false, overdrawn_account),
     logged [(WARNING, WithdrawalNotPositive (Some 1))] w_overdrawn) /\
  Account.withdraw overdrawn_account (-1)%float w_overdrawn <>
    ((false, overdrawn_account),
     logged [(WARNING, InsufficientFunds (Some 1) (-1)%float (-100)%float)]
       w_overdrawn).
Proof.
  split; [reflexivity|]. split; [reflexivity|].
  unfold Account.withdraw. cbn. intros [= H].
Qed.

(** ** C3: a failed write and the snapshot *)

(** C3 fails in [make_purchase] and [approve], which write the snapshot
    before the statement is sent.  When the engine raises, [make_purchase]
    on [saved_card] returns [False] with a debt of 100 in the snapshot and 0
    in the row, and [approve] on [pending_loan] returns [False] with status
    Approved in the snapshot and Pending in the row. *)
Theorem failed_write_leaves_snapshot_changed :
  (fst (fst (CreditCard.make_purchase saved_card 100%float w_card_down)) = false /\
   CreditCard._current_debt saved_card = 0%float /\
   CreditCard._current_debt
     (snd (fst (CreditCard.make_purchase saved_card 100%float w_card_down)))
   = 100%float /\
   k_current_debt <$>
     rows (credit_cards
             (db (snd (CreditCard.make_purchase saved_card 100%float w_card_down))))
       !! 1 = Some 0%float) /\
  (fst (fst (Loan.approve pending_loan w_loan_down)) = false /\
   Loan._status pending_loan = "Pending" /\
   Loan._status (snd (fst (Loan.approve pending_loan w_loan_down))) = "Approved" /\
   l_status <$>
     rows (loans (db (snd (Loan.approve pending_loan w_loan_down))))
       !! 1 = Some "Pending").
Proof. vm_compute. repeat split. Qed.

(** ** C4: empty names *)

(** C4, as the code has it.  The check for names is in
    [BankSystem.create_customer]: when the first or the last name is empty
    once stripped, it writes a warning and returns; no statement is sent, so
    no row is persisted and no key is assigned.  With both names present the
    [INSERT] carries the stripped lines. *)
Theorem create_customer_requires_names (line1 line2 line3 : string) (w : world) :
  (strip line1 = EmptyString \/ strip line2 = EmptyString ->
   BankSystem.create_customer line1 line2 line3 w =
     (tt, logged [(WARNING, CustomerNamesRequired)] w)) /\
  (strip line1 <> EmptyString -> strip line2 <> EmptyString ->
   db (snd (BankSystem.create_customer line1 line2 line3 w)) =
     if List.hd false (faults w) then db w
     else fst (execute (InsertCustomer (strip line1) (strip line2) (strip line3)
                          (List.hd EmptyString (clock w))) (db w))).
Proof.
  unfold BankSystem.create_customer. split.
  - intros [H | H]; rewrite H; cbn [str_empty orb]; [reflexivity|].
    rewrite orb_true_r. reflexivity.
  - intros H1 H2.
    destruct (strip line1) as [| c1 s1]; [contradiction|].
    destruct (strip line2) as [| c2 s2]; [contradiction|].
    cbn [str_empty orb].
    cbv [Customer.__init__ Customer.save_new bind now ret].
    cbn [Customer._first_name Customer._last_name Customer._address
           Customer._join_date].
    match goal with |- context [BaseEntity._execute_dml ?q ?w1] =>
      pose proof (execute_dml_db q w1) as H;
      destruct (BaseEntity._execute_dml q w1) as [r w2] end.
    cbn [snd] in H. cbn [set_clock faults db] in H.
    destruct (truthy r); cbn; exact H.
Qed.

(** C4 at the prompt: a blank first name, last name Smith. *)
Lemma create_customer_requires_names_witness :
  (strip "  " = EmptyString \/ strip "Smith" = EmptyString) /\
  BankSystem.create_customer "  " "Smith" "221B" (fresh_world []) =
    (tt, logged [(WARNING, CustomerNamesRequired)] (fresh_world [])) /\
  strip "Ada" <> EmptyString /\ strip "Lovelace " <> EmptyString /\
  db (snd (BankSystem.create_customer "Ada" "Lovelace " "221B" (fresh_world []))) =
    fst (execute (InsertCustomer "Ada" "Lovelace" "221B" EmptyString) create_tables).
Proof.
  assert (H1 : strip "  " = EmptyString \/ strip "Smith" = EmptyString)
    by (left; reflexivity).
  assert (H2 : strip "Ada" <> EmptyString) by discriminate.
  assert (H3 : strip "Lovelace " <> EmptyString) by discriminate.
  split; [exact H1|]. split.
  - exact (proj1 (create_customer_requires_names "  " "Smith" "221B" (fresh_world [])) H1).
  - split; [exact H2|]. split; [exact H3|].
    exact (proj2 (create_customer_requires_names "Ada" "Lovelace " "221B"
                    (fresh_world [])) H2 H3).
Defined.

(** C4 as stated fails in [save_new], which checks nothing: a customer and an
    employee with an empty first name are inserted and get key 1. *)
Lemma save_new_accepts_empty_name :
  (fst (fst (Customer.save_new nameless_customer (fresh_world []))) = Some 1 /\
   Customer._customer_id (snd (fst (Customer.save_new nameless_customer (fresh_world []))))
   = Some 1 /\
   c_first_name <$>
     rows (customers (db (snd (Customer.save_new nameless_customer (fresh_world [])))))
       !! 1 = Some EmptyString) /\
  (fst (fst (Employee.save_new nameless_employee (fresh_world []))) = Some 1 /\
   e_first_name <$>
     rows (employees (db (snd (Employee.save_new nameless_employee (fresh_world [])))))
       !! 1 = Some EmptyString).
Proof. vm_compute. repeat split. Qed.

(** ** C5: deposit, then withdraw the same amount *)

(** C5, as the code has it.  For a finite balance [b] and a finite amount
    [x] whose exact sum [b + x] is itself a binary64 number (the addition of
    the deposit does not round), [deposit(a, x)] followed by [withdraw(a, x)],
    both successful, leaves a balance equal to [b]. *)
Theorem round_trip_restores_balance (a : Account.t) (x : float) (w : world) :
  is_finite (Account._balance a) = true -> is_finite x = true ->
  representable (scaled (Account._balance a) + scaled x) ->
  fst (fst (deposit_then_withdraw a x w)) = (true, true) ->
  (Account._balance (snd (fst (deposit_then_withdraw a x w)))
   =? Account._balance a)%float = true.
Proof.
  intros Fb Fx Hrep. unfold deposit_then_withdraw, bind, ret.
  destruct (Account.deposit a x w) as [[ok1 a1] w1] eqn:Hd. cbn [fst snd].
  destruct (Account.withdraw a1 x w1) as [[ok2 a2] w2] eqn:Hw. cbn [fst snd].
  intros [= -> ->].
  apply deposit_inv in Hd as [(? & _) | (_ & _ & _ & -> & _)]; [discriminate|].
  apply withdraw_inv in Hw as [(? & _) | (_ & _ & _ & _ & -> & _)]; [discriminate|].
  cbn [Account.set_balance Account._balance].
  destruct (add_exact _ _ Fb Fx Hrep) as [Fs Hs].
  destruct (sub_exact (Account._balance a + x)%float x Fs Fx) as [Fr Hr].
  { exists (Account._balance a). split; [exact Fb | lia]. }
  rewrite eqb_scaled by assumption. apply Z.eqb_eq. lia.
Qed.

(** C5 on [saved_account]: 100 + 50 is the float 150. *)
Lemma round_trip_restores_balance_witness :
  is_finite (Account._balance saved_account) = true /\
  is_finite 50%float = true /\
  representable (scaled (Account._balance saved_account) + scaled 50%float) /\
  fst (fst (deposit_then_withdraw saved_account 50%float w_account)) = (true, true) /\
  (Account._balance
     (snd (fst (deposit_then_withdraw saved_account 50%float w_account)))
   =? Account._balance saved_account)%float = true.
Proof.
  assert (H1 : is_finite (Account._balance saved_account) = true) by reflexivity.
  assert (H2 : is_finite 50%float = true) by reflexivity.
  assert (H3 : representable (scaled (Account._balance saved_account) + scaled 50%float)).
  { exists 150%float. split; [reflexivity | vm_compute; reflexivity]. }
  assert (H4 : fst (fst (deposit_then_withdraw saved_account 50%float w_account))
               = (true, true)) by (vm_compute; reflexivity).
  split; [exact H1|]. split; [exact H2|]. split; [exact H3|]. split; [exact H4|].
  exact (round_trip_restores_balance saved_account 50%float w_account H1 H2 H3 H4).
Defined.

(** C5 as stated fails when the addition rounds: from a balance of 0.1,
    depositing 0.2 and withdrawing 0.2 both succeed and leave
    0.10000000000000003. *)
Lemma round_trip_rounds :
  in_sync dime_account w_dime /\
  (0 <? 0.2)%float = true /\
  (0.2 <=? Account._balance dime_account + 0.2)%float = true /\
  fst (fst (deposit_then_withdraw dime_account 0.2%float w_dime)) = (true, true) /\
  (Account._balance (snd (fst (deposit_then_withdraw dime_account 0.2%float w_dime)))
   =? Account._balance dime_account)%float = false /\
  a_balance <$>
    rows (accounts (db (snd (deposit_then_withdraw dime_account 0.2%float w_dime)))) !! 1
  = Some (Account._balance
            (snd (fst (deposit_then_withdraw dime_account 0.2%float w_dime)))).
Proof.
  split.
  - exists 1, {| a_customer_id := Some 1; a_balance := 0.1%float;
                 a_account_type := "Savings"; a_is_active := 1 |}.
    repeat split; reflexivity.
  - vm_compute. repeat split.
Qed.

(** ** C6: the debt and the limit *)

(** C6, as the code has it.  For a card with [0 <= debt <= limit] and any
    amount, [make_purchase] leaves a snapshot whose debt does not exceed
    its limit, whether the call succeeds or fails, provided one of
    [limit - debt] and [debt + amount] does not round: its exact result is
    a binary64 number. *)
Theorem purchase_keeps_debt_within_limit (c : CreditCard.t) (amount : float) (w : world) :
  (0 <=? CreditCard._current_debt c)%float = true ->
  (CreditCard._current_debt c <=? CreditCard._credit_limit c)%float = true ->
  representable (scaled (CreditCard._credit_limit c) - scaled (CreditCard._current_debt c)) \/
  representable (scaled (CreditCard._current_debt c) + scaled amount) ->
  (CreditCard._credit_limit (snd (fst (CreditCard.make_purchase c amount w)))
   <? CreditCard._current_debt (snd (fst (CreditCard.make_purchase c amount w))))%float
  = false.
Proof.
  intros H0 Hle Hex.
  destruct (is_finite (CreditCard._credit_limit c)) eqn:FL.
  2: { assert (Hinf : forall x, (CreditCard._credit_limit c <? x)%float = false).
       { intros x. apply ltb_infinite_l; [exact FL|].
         now apply (leb_trans_nonneg (CreditCard._current_debt c)). }
       rewrite make_purchase_eq.
       destruct (amount <=? 0)%float; [apply Hinf|].
       destruct (CreditCard.available_credit c <? amount)%float; [apply Hinf|].
       cbv zeta. destruct (List.hd false (faults w)); apply Hinf. }
  assert (Fd : is_finite (CreditCard._current_debt c) = true)
    by now apply (leb_finite_l (CreditCard._credit_limit c)).
  assert (Hd0 : 0 <= scaled (CreditCard._current_debt c)).
  { rewrite (leb_scaled 0 _) in H0 by (reflexivity || assumption).
    apply Z.leb_le in H0. exact H0. }
  assert (Hdl : scaled (CreditCard._current_debt c) <= scaled (CreditCard._credit_limit c)).
  { rewrite leb_scaled in Hle by assumption. now apply Z.leb_le in Hle. }
  assert (Hkeep : (CreditCard._credit_limit c <? CreditCard._current_debt c)%float = false).
  { rewrite ltb_scaled by assumption. apply Z.ltb_ge. exact Hdl. }
  assert (Fa : is_finite (CreditCard.available_credit c) = true)
    by (apply sub_finite_below; auto).
  rewrite make_purchase_eq.
  destruct (amount <=? 0)%float eqn:Hx; [exact Hkeep|].
  destruct (CreditCard.available_credit c <? amount)%float eqn:Hav; [exact Hkeep|].
  assert (Hgoal : (CreditCard._credit_limit c
                   <? CreditCard._current_debt c + amount)%float = false).
  { destruct (is_nan amount) eqn:Hn.
    - apply ltb_nan_r. now apply add_nan_r.
    - destruct (is_finite amount) eqn:Fx.
      + assert (Hpos : 0 < scaled amount).
        { rewrite (leb_scaled amount 0) in Hx by (reflexivity || assumption).
          apply Z.leb_gt in Hx. exact Hx. }
        assert (Hsum : scaled (CreditCard._current_debt c) + scaled amount
                       <= scaled (CreditCard._credit_limit c)).
        { destruct Hex as [Rsub | Radd].
          - destruct (sub_exact _ _ FL Fd Rsub) as [_ Ha].
            unfold CreditCard.available_credit in Hav, Fa.
            rewrite ltb_scaled in Hav by assumption. apply Z.ltb_ge in Hav. lia.
          - apply within_rounded_difference; auto. }
        destruct (add_below _ amount _ Fd Fx FL ltac:(lia) Hsum) as [Fs Hs].
        rewrite ltb_scaled by assumption. apply Z.ltb_ge. exact Hs.
      + destruct (infinite_amount (CreditCard.available_credit c) amount Fa Hn Fx)
          as [H | H]; congruence. }
  cbv zeta. destruct (List.hd false (faults w)); exact Hgoal.
Qed.

(** C6 on a card with limit 500 and debt 0.5, and a purchase of 0.1: the
    available credit 499.5 is exact, the new debt 0.6 is rounded. *)
Lemma purchase_keeps_debt_within_limit_witness :
  (0 <=? CreditCard._current_debt (CreditCard.set_current_debt 0.5%float saved_card))%float
  = true /\
  (CreditCard._current_debt (CreditCard.set_current_debt 0.5%float saved_card)
   <=? CreditCard._credit_limit (CreditCard.set_current_debt 0.5%float saved_card))%float
  = true /\
  representable
    (scaled (CreditCard._credit_limit (CreditCard.set_current_debt 0.5%float saved_card))
     - scaled (CreditCard._current_debt (CreditCard.set_current_debt 0.5%float saved_card))) /\
  (CreditCard._credit_limit
     (snd (fst (CreditCard.make_purchase (CreditCard.set_current_debt 0.5%float saved_card)
                  0.1%float (card_world 500%float 0.5%float []))))
   <? CreditCard._current_debt
        (snd (fst (CreditCard.make_purchase
                     (CreditCard.set_current_debt 0.5%float saved_card)
                     0.1%float (card_world 500%float 0.5%float [])))))%float
  = false.
Proof.
  assert (H1 : (0 <=? CreditCard._current_debt
                        (CreditCard.set_current_debt 0.5%float saved_card))%float = true)
    by reflexivity.
  assert (H2 : (CreditCard._current_debt (CreditCard.set_current_debt 0.5%float saved_card)
                <=? CreditCard._credit_limit
                      (CreditCard.set_current_debt 0.5%float saved_card))%float = true)
    by reflexivity.
  assert (H3 : representable
                 (scaled (CreditCard._credit_limit
                            (CreditCard.set_current_debt 0.5%float saved_card))
                  - scaled (CreditCard._current_debt
                              (CreditCard.set_current_debt 0.5%float saved_card)))).
  { exists 499.5%float. split; [reflexivity | vm_compute; reflexivity]. }
  split; [exact H1|]. split; [exact H2|]. split; [exact H3|].
  exact (purchase_keeps_debt_within_limit
           (CreditCard.set_current_debt 0.5%float saved_card) 0.1%float
           (card_world 500%float 0.5%float []) H1 H2 (or_introl H3)).
Defined.

(** C6 as stated fails when both operations round.  With a limit of
    9007199254740998 and a debt of 3, the available credit
    9007199254740995 rounds up to 9007199254740996; a purchase of that
    amount is accepted, and the new debt 9007199254740999 rounds up to
    9007199254741000, above the limit. *)
Lemma purchase_rounds_past_limit :
  (0 <=? CreditCard._current_debt heavy_card)%float = true /\
  (CreditCard._current_debt heavy_card <=? CreditCard._credit_limit heavy_card)%float = true /\
  fst (fst (CreditCard.make_purchase heavy_card 9007199254740996%float w_heavy))
  = true /\
  CreditCard._current_debt
    (snd (fst (CreditCard.make_purchase heavy_card 9007199254740996%float w_heavy)))
  = 9007199254741000%float /\
  k_current_debt <$>
    rows (credit_cards
            (db (snd (CreditCard.make_purchase heavy_card 9007199254740996%float w_heavy))))
      !! 1
  = Some 9007199254741000%float /\
  (CreditCard._credit_limit
     (snd (fst (CreditCard.make_purchase heavy_card 9007199254740996%float w_heavy)))
   <? CreditCard._current_debt
        (snd (fst (CreditCard.make_purchase heavy_card 9007199254740996%float w_heavy))))%float
  = true.
Proof. vm_compute. repeat split. Qed.

(** ** C7: approving a saved loan, once *)

(** C7, as the code has it.  On a saved loan with status Pending (it has a
    key [k], not 0, and its row [r] is stored under [k]), when the engine
    accepts the [UPDATE]: [approve] returns [True], the snapshot carries
    status Approved, the row under [k] holds status Approved with its other
    columns as before, and a second [approve] on that object returns
    [False] with the could-not-be-approved warning and changes nothing.
    When the engine raises on the [UPDATE], [approve] returns [False] and
    the tables are as before.  On any loan whose status is not Pending,
    [approve] returns [False] with that warning and changes nothing. *)
Theorem approve_once :
  (forall (l : Loan.t) (w : world) (k : Z) (r : loan_row),
     Loan._loan_id l = Some k -> k <> 0 -> rows (loans (db w)) !! k = Some r ->
     Loan._status l = "Pending" ->
     List.hd false (faults w) = false ->
     fst (fst (Loan.approve l w)) = true /\
     snd (fst (Loan.approve l w)) =
       {| Loan._loan_id := Some k; Loan._customer_id := Loan._customer_id l;
          Loan._amount := Loan._amount l; Loan._interest_rate := Loan._interest_rate l;
          Loan._status := "Approved" |} /\
     rows (loans (db (snd (Loan.approve l w)))) !! k =
       Some {| l_customer_id := l_customer_id r; l_amount := l_amount r;
               l_interest_rate := l_interest_rate r; l_status := "Approved" |} /\
     Loan.approve (snd (fst (Loan.approve l w))) (snd (Loan.approve l w)) =
       ((false, snd (fst (Loan.approve l w))),
        logged [(WARNING, LoanNotApproved (Some k) "Approved")]
          (snd (Loan.approve l w)))) /\
  (forall (l : Loan.t) (w : world),
     List.hd false (faults w) = true ->
     fst (fst (Loan.approve l w)) = false /\ db (snd (Loan.approve l w)) = db w) /\
  (forall (l : Loan.t) (w : world),
     Loan._status l <> "Pending" ->
     Loan.approve l w =
       ((false, l),
        logged [(WARNING, LoanNotApproved (Loan._loan_id l) (Loan._status l))] w)).
Proof.
  split; [| split].
  - intros l w k r Hid Hk Hrow Hst Hf.
    assert (E : Loan.approve l w =
              ((true, {| Loan._loan_id := Some k; Loan._customer_id := Loan._customer_id l;
                         Loan._amount := Loan._amount l;
                         Loan._interest_rate := Loan._interest_rate l;
                         Loan._status := "Approved" |}),
               logged [(INFO, LoanApproved (Some k) (Loan._customer_id l))]
                 (set_db (fst (execute (UpdateLoanStatus "Approved" (Some k)) (db w)))
                    (set_faults (List.tl (faults w)) w)))).
    { rewrite approve_eq, Hst, Hid, Hf. cbn [String.eqb Ascii.eqb Bool.eqb truthy andb].
      apply Z.eqb_neq in Hk. rewrite Hk. cbn [negb]. cbv zeta.
      unfold Loan.set_status. rewrite Hid. reflexivity. }
    rewrite E. cbn [fst snd]. split; [reflexivity|]. split; [reflexivity|]. split.
    + cbn [db logged set_db set_faults execute fst set_loans loans update_row rows].
      rewrite lookup_alter_eq, Hrow. reflexivity.
    + rewrite approve_eq. reflexivity.
  - intros l w Hf. rewrite approve_eq.
    destruct (String.eqb (Loan._status l) "Pending" && truthy (Loan._loan_id l));
      [| split; reflexivity].
    cbv zeta. rewrite Hf. split; reflexivity.
  - intros l w Hst. rewrite approve_eq.
    apply String.eqb_neq in Hst. rewrite Hst. reflexivity.
Qed.

(** C7 on [pending_loan] and its row. *)
Lemma approve_once_witness :
  Loan._loan_id pending_loan = Some 1 /\
  rows (loans (db w_loan)) !! 1 =
    Some {| l_customer_id := Some 1; l_amount := 1000%float;
            l_interest_rate := 0.05%float; l_status := "Pending" |} /\
  Loan._status pending_loan = "Pending" /\
  List.hd false (faults w_loan) = false /\
  fst (fst (Loan.approve pending_loan w_loan)) = true /\
  Loan._status (snd (fst (Loan.approve pending_loan w_loan))) = "Approved" /\
  rows (loans (db (snd (Loan.approve pending_loan w_loan)))) !! 1 =
    Some {| l_customer_id := Some 1; l_amount := 1000%float;
            l_interest_rate := 0.05%float; l_status := "Approved" |} /\
  fst (fst (Loan.approve (snd (fst (Loan.approve pending_loan w_loan)))
              (snd (Loan.approve pending_loan w_loan)))) = false.
Proof.
  assert (H1 : Loan._loan_id pending_loan = Some 1) by reflexivity.
  assert (H2 : rows (loans (db w_loan)) !! 1 =
               Some {| l_customer_id := Some 1; l_amount := 1000%float;
                       l_interest_rate := 0.05%float; l_status := "Pending" |})
    by reflexivity.
  assert (H3 : Loan._status pending_loan = "Pending") by reflexivity.
  assert (H4 : List.hd false (faults w_loan) = false) by reflexivity.
  assert (H0 : (1 : Z) <> 0) by discriminate.
  destruct (proj1 approve_once pending_loan w_loan 1 _ H1 H0 H2 H3 H4)
    as (R1 & R2 & R3 & R4).
  split; [exact H1|]. split; [exact H2|]. split; [exact H3|]. split; [exact H4|].
  split; [exact R1|]. split; [exact (f_equal Loan._status R2)|]. split; [exact R3|].
  exact (f_equal (fun p => fst (fst p)) R4).
Defined.

(** C7 as stated fails when the engine raises on the [UPDATE]:
    [pending_loan] is saved and Pending, yet [approve] returns [False] and
    its row stays Pending. *)
Lemma approve_refused_when_engine_raises :
  saved_loan pending_loan w_loan_down /\
  Loan._status pending_loan = "Pending" /\
  fst (fst (Loan.approve pending_loan w_loan_down)) = false /\
  l_status <$> rows (loans (db (snd (Loan.approve pending_loan w_loan_down)))) !! 1
  = Some "Pending".
Proof.
  split.
  { exists 1, {| l_customer_id := Some 1; l_amount := 1000%float;
                 l_interest_rate := 0.05%float; l_status := "Pending" |}.
    split; [reflexivity|]. split; [discriminate | reflexivity]. }
  vm_compute. repeat split.
Qed.

(** ** C8: the boundary of the credit limit *)

(** C8, as the code has it.  [make_purchase] tests [amount <= 0] first: it
    is refused for exceeding the available credit exactly when the amount
    is not [<= 0] and [amount > limit - debt]; for a card with
    [0 <= debt <= limit] that is exactly when [amount > limit - debt].  For
    a card with limit 500 and debt 0 whose row [r] is stored under its key
    [k]: a purchase of 600 is refused that way; a purchase of 500, the
    available credit itself, returns [True] when the engine accepts the
    [UPDATE] and leaves a debt of 500 in the snapshot and in the row, whose
    other columns are as before; a purchase of 0.01 after it is refused
    that way. *)
Theorem purchase_limit_boundary :
  (forall (c : CreditCard.t) (amount : float) (w : world),
     refused_over_limit c amount w <->
     (amount <=? 0)%float = false /\
     (CreditCard.available_credit c <? amount)%float = true) /\
  (forall (c : CreditCard.t) (amount : float) (w : world),
     (0 <=? CreditCard._current_debt c)%float = true ->
     (CreditCard._current_debt c <=? CreditCard._credit_limit c)%float = true ->
     refused_over_limit c amount w <->
     (CreditCard.available_credit c <? amount)%float = true) /\
  (forall (k : Z) (cust : option Z) (active : Z) (r : card_row) (w : world),
     rows (credit_cards (db w)) !! k = Some r ->
     refused_over_limit (card_500 (Some k) cust active) 600%float w /\
     (List.hd false (faults w) = false ->
      fst (fst (CreditCard.make_purchase (card_500 (Some k) cust active) 500%float w))
      = true /\
      snd (fst (CreditCard.make_purchase (card_500 (Some k) cust active) 500%float w))
      = {| CreditCard._card_id := Some k; CreditCard._customer_id := cust;
           CreditCard._credit_limit := 500%float; CreditCard._current_debt := 500%float;
           CreditCard._is_active := active |} /\
      rows (credit_cards
              (db (snd (CreditCard.make_purchase (card_500 (Some k) cust active)
                          500%float w)))) !! k
      = Some {| k_customer_id := k_customer_id r; k_credit_limit := k_credit_limit r;
                k_current_debt := 500%float; k_is_active := k_is_active r |} /\
      refused_over_limit
        (snd (fst (CreditCard.make_purchase (card_500 (Some k) cust active) 500%float w)))
        0.01%float
        (snd (CreditCard.make_purchase (card_500 (Some k) cust active) 500%float w)))).
Proof.
  split; [| split; [exact refused_over_limit_iff|]].
  - intros c amount w. unfold refused_over_limit. rewrite make_purchase_eq. split.
    + destruct (amount <=? 0)%float.
      { intros [= H]. apply app_inv_head in H. discriminate. }
      destruct (CreditCard.available_credit c <? amount)%float; [auto|].
      cbv zeta. destruct (List.hd false (faults w)); [| discriminate].
      intros [= _ _ H]. apply app_inv_head in H. discriminate.
    + intros [-> ->]. reflexivity.
  - intros k cust active r w Hrow. split.
    + unfold refused_over_limit. rewrite make_purchase_eq. reflexivity.
    + intros Hf.
      assert (E : CreditCard.make_purchase (card_500 (Some k) cust active) 500%float w =
                ((true, {| CreditCard._card_id := Some k; CreditCard._customer_id := cust;
                           CreditCard._credit_limit := 500%float;
                           CreditCard._current_debt := 500%float;
                           CreditCard._is_active := active |}),
                 logged [(INFO, PurchaseDone (Some k) 500%float 500%float)]
                   (set_db (fst (execute (UpdateCardDebt 500%float (Some k)) (db w)))
                      (set_faults (List.tl (faults w)) w))))
        by (rewrite make_purchase_eq, Hf; reflexivity).
      rewrite E. cbn [fst snd]. split; [reflexivity|]. split; [reflexivity|]. split.
      * cbn [db logged set_db set_faults execute fst set_credit_cards credit_cards
             update_row rows].
        rewrite lookup_alter_eq, Hrow. reflexivity.
      * unfold refused_over_limit. rewrite make_purchase_eq. reflexivity.
Qed.

(** C8 on [saved_card] and its row. *)
Lemma purchase_limit_boundary_witness :
  (0 <=? CreditCard._current_debt saved_card)%float = true /\
  (CreditCard._current_debt saved_card <=? CreditCard._credit_limit saved_card)%float = true /\
  (CreditCard.available_credit saved_card <? 600)%float = true /\
  refused_over_limit saved_card 600%float w_card /\
  List.hd false (faults w_card) = false /\
  fst (fst (CreditCard.make_purchase saved_card 500%float w_card)) = true /\
  CreditCard._current_debt (snd (fst (CreditCard.make_purchase saved_card 500%float w_card)))
  = 500%float /\
  rows (credit_cards (db (snd (CreditCard.make_purchase saved_card 500%float w_card)))) !! 1
  = Some {| k_customer_id := Some 1; k_credit_limit := 500%float;
            k_current_debt := 500%float; k_is_active := 1 |} /\
  refused_over_limit
    (snd (fst (CreditCard.make_purchase saved_card 500%float w_card))) 0.01%float
    (snd (CreditCard.make_purchase saved_card 500%float w_card)).
Proof.
  assert (H1 : (0 <=? CreditCard._current_debt saved_card)%float = true) by reflexivity.
  assert (H2 : (CreditCard._current_debt saved_card
                <=? CreditCard._credit_limit saved_card)%float = true) by reflexivity.
  assert (H3 : (CreditCard.available_credit saved_card <? 600)%float = true)
    by reflexivity.
  assert (H4 : List.hd false (faults w_card) = false) by reflexivity.
  assert (H5 : rows (credit_cards (db w_card)) !! 1 =
               Some {| k_customer_id := Some 1; k_credit_limit := 500%float;
                       k_current_debt := 0%float; k_is_active := 1 |}) by reflexivity.
  destruct (proj2 (proj2 (proj2 purchase_limit_boundary) 1 (Some 1) 1 _ w_card H5) H4)
    as (R1 & R2 & R3 & R4).
  split; [exact H1|]. split; [exact H2|]. split; [exact H3|]. split.
  { exact (proj2 (proj1 (proj2 purchase_limit_boundary) saved_card 600%float w_card
                    H1 H2) H3). }
  split; [exact H4|]. split; [exact R1|].
  split; [exact (f_equal CreditCard._current_debt R2)|].
  split; [exact R3 | exact R4].
Defined.

(** C8 as stated fails where the two refusals overlap and where the engine
    raises.  On a card issued with limit -100, a purchase of -1 exceeds the
    available credit and is refused as not positive instead; and the
    purchase of 500 on [saved_card] returns [False] when the engine raises
    on the [UPDATE]. *)
Lemma purchase_refused_as_not_positive :
  ((CreditCard.available_credit negative_limit_card <? -1)%float = true /\
   CreditCard.make_purchase negative_limit_card (-1)%float w_card =
     ((false, negative_limit_card), logged [(WARNING, PurchaseNotPositive)] w_card) /\
   ~ refused_over_limit negative_limit_card (-1)%float w_card) /\
  fst (fst (CreditCard.make_purchase saved_card 500%float w_card_down)) = false.
Proof.
  split; [| reflexivity]. split; [reflexivity|]. split; [reflexivity|].
  unfold refused_over_limit. rewrite make_purchase_eq.
  change ((-1 <=? 0)%float) with true. cbv iota.
  intros [=].
Qed.

(** ** C9: the account snapshot follows the write *)

(** C9.  In [deposit] and [withdraw], when the engine raises on the
    [UPDATE], the call returns [False] and leaves the snapshot and the
    tables as they were; a call that returns [False] never changed either;
    and a call that changed the snapshot had its [UPDATE] accepted and
    returns [True].  [make_purchase] and [approve] differ: when the engine
    raises they return [False] with the new debt, or the status Approved,
    already in the snapshot. *)
Theorem account_snapshot_follows_write (a : Account.t) (amount : float) (w : world) :
  ((amount <=? 0)%float = false -> List.hd false (faults w) = true ->
   Account.deposit a amount w =
     ((false, a), logged [(ERROR, SqlDmlFailed)] (set_faults (List.tl (faults w)) w))) /\
  ((amount <=? 0)%float = false -> (Account._balance a <? amount)%float = false ->
   List.hd false (faults w) = true ->
   Account.withdraw a amount w =
     ((false, a), logged [(ERROR, SqlDmlFailed)] (set_faults (List.tl (faults w)) w))) /\
  (forall a' w', Account.deposit a amount w = ((false, a'), w') ->
     a' = a /\ db w' = db w) /\
  (forall a' w', Account.withdraw a amount w = ((false, a'), w') ->
     a' = a /\ db w' = db w) /\
  (forall ok a' w', Account.deposit a amount w = ((ok, a'), w') -> a' <> a ->
     ok = true /\ List.hd false (faults w) = false) /\
  (forall ok a' w', Account.withdraw a amount w = ((ok, a'), w') -> a' <> a ->
     ok = true /\ List.hd false (faults w) = false) /\
  (forall c : CreditCard.t,
     (amount <=? 0)%float = false ->
     (CreditCard.available_credit c <? amount)%float = false ->
     List.hd false (faults w) = true ->
     CreditCard.make_purchase c amount w =
       ((false, CreditCard.set_current_debt (CreditCard._current_debt c + amount)%float c),
        logged [(ERROR, SqlDmlFailed)] (set_faults (List.tl (faults w)) w))) /\
  (forall l : Loan.t,
     Loan._status l = "Pending" -> truthy (Loan._loan_id l) = true ->
     List.hd false (faults w) = true ->
     Loan.approve l w =
       ((false, Loan.set_status "Approved" l),
        logged [(WARNING, LoanNotApproved (Loan._loan_id l) "Approved")]
          (logged [(ERROR, SqlDmlFailed)] (set_faults (List.tl (faults w)) w)))).
Proof.
  split; [apply deposit_raised|]. split; [apply withdraw_raised|].
  split.
  { intros a' w' H.
    apply deposit_inv in H as [(_ & -> & E) | (? & _)]; [auto | discriminate]. }
  split.
  { intros a' w' H.
    apply withdraw_inv in H as [(_ & -> & E) | (? & _)]; [auto | discriminate]. }
  split.
  { intros ok a' w' H Hne.
    apply deposit_inv in H as [(_ & -> & _) | (-> & _ & Hf & _)];
      [contradiction | auto]. }
  split.
  { intros ok a' w' H Hne.
    apply withdraw_inv in H as [(_ & -> & _) | (-> & _ & _ & Hf & _)];
      [contradiction | auto]. }
  split.
  { intros c. apply make_purchase_raised. }
  intros l. apply approve_raised.
Qed.

(** C9 on [saved_account], with an engine that raises on the next statement. *)
Lemma account_snapshot_follows_write_witness :
  (50 <=? 0)%float = false /\
  (Account._balance saved_account <? 50)%float = false /\
  List.hd false (faults w_account_down) = true /\
  Account.deposit saved_account 50%float w_account_down =
    ((false, saved_account), logged [(ERROR, SqlDmlFailed)] w_account) /\
  Account.withdraw saved_account 50%float w_account_down =
    ((false, saved_account), logged [(ERROR, SqlDmlFailed)] w_account).
Proof.
  assert (H1 : (50 <=? 0)%float = false) by reflexivity.
  assert (H2 : (Account._balance saved_account <? 50)%float = false) by reflexivity.
  assert (H3 : List.hd false (faults w_account_down) = true) by reflexivity.
  split; [exact H1|]. split; [exact H2|]. split; [exact H3|]. split.
  - exact (proj1 (account_snapshot_follows_write saved_account 50%float
                    w_account_down) H1 H3).
  - exact (proj1 (proj2 (account_snapshot_follows_write saved_account 50%float
                           w_account_down)) H1 H2 H3).
Defined.

(** ** C10: approving a loan that was never saved *)

(** C10.  On a loan without a key, [approve] returns [False] with the
    could-not-be-approved warning and leaves the snapshot, so a status of
    Pending stays Pending, and the tables as they were; and whenever
    [approve] returns [True] the status was Pending and the key was
    assigned. *)
Theorem approve_needs_saved_loan :
  (forall (l : Loan.t) (w : world),
     Loan._loan_id l = None ->
     Loan.approve l w =
       ((false, l), logged [(WARNING, LoanNotApproved None (Loan._status l))] w)) /\
  (forall (l l' : Loan.t) (w w' : world),
     Loan.approve l w = ((true, l'), w') ->
     Loan._status l = "Pending" /\
     exists k, Loan._loan_id l = Some k /\ k <> 0).
Proof.
  split.
  - intros l w Hid. rewrite approve_eq, Hid. cbn [truthy]. rewrite andb_false_r.
    reflexivity.
  - intros l l' w w'. rewrite approve_eq.
    destruct (String.eqb (Loan._status l) "Pending") eqn:Hs; cbn [andb];
      [| discriminate].
    destruct (Loan._loan_id l) as [k |]; cbn [truthy]; [| discriminate].
    destruct (Z.eqb_spec k 0); cbn [negb]; [discriminate|].
    intros _. split; [now apply String.eqb_eq | eauto].
Qed.

(** C10 on [unsaved_loan], whose status is Pending. *)
Lemma approve_needs_saved_loan_witness :
  Loan._loan_id unsaved_loan = None /\
  Loan._status unsaved_loan = "Pending" /\
  Loan.approve unsaved_loan w_loan =
    ((false, unsaved_loan),
     logged [(WARNING, LoanNotApproved None "Pending")] w_loan).
Proof.
  assert (H1 : Loan._loan_id unsaved_loan = None) by reflexivity.
  split; [exact H1|]. split; [reflexivity|].
  exact (proj1 approve_needs_saved_loan unsaved_loan w_loan H1).
Defined.

(** * Further properties of the entity layer

    Keys, round trips through the tables, what each call touches, and the
    chains of calls that the functions of [BankSystem] make.  The tables are
    those of [execute]: an [INSERT] stores the values it is given. *)

(** Unfolds the methods down to the statements they send. *)
Ltac run :=
  cbv [perform Account.deposit Account.withdraw Account._record_transaction
       Account.save_new Account.load Customer.save_new Customer.load
       Customer.set_address Customer.__init__ Employee.save_new Loan.save_new
       Loan.approve CreditCard.save_new CreditCard.make_purchase
       BankSystem.create_customer BankSystem.add_employee
       load_then save_then_approve
       BaseEntity._execute_dml BaseEntity._fetch_record bind ret now next_fault
       commit logging.warning logging.info logging.error logging.emit];
  cbn [fst snd db faults clock log set_db set_faults set_clock logged is_insert].

(** ** Keys *)

Lemma wf_insert_row {R} (r : R) (t : table R) :
  wf_table t -> wf_table (fst (insert_row r t)).
Proof.
  intros [H0 H]. split; cbn [insert_row fst seq rows]; [lia|].
  intros k Hk. destruct (decide (k = seq t + 1)) as [-> | Hne]; [lia|].
  rewrite lookup_insert_ne in Hk by congruence. specialize (H k Hk). lia.
Qed.

Lemma wf_update_row {R} (f : R -> R) (key : option Z) (t : table R) :
  wf_table t -> wf_table (update_row f key t).
Proof.
  intros [H0 H]. destruct key as [k0 |]; [| split; auto].
  split; cbn [update_row seq rows]; [exact H0|].
  intros k Hk. apply H. destruct (decide (k0 = k)) as [-> | Hne].
  - rewrite lookup_alter_eq in Hk.
    destruct (rows t !! k); [eauto | inversion Hk; discriminate].
  - rewrite lookup_alter_ne in Hk by exact Hne. exact Hk.
Qed.

Lemma create_tables_wf : wf_tables create_tables.
Proof.
  assert (H : forall R, @wf_table R {| rows := ∅; seq := 0 |}).
  { intros R. split; cbn [seq rows]; [lia|].
    intros j [x Hj]. rewrite lookup_empty in Hj. discriminate. }
  unfold wf_tables, create_tables, empty_table.
  cbn [customers accounts transactions employees loans credit_cards].
  repeat (split; [exact (H _)|]). exact (H _).
Qed.

Lemma execute_wf (q : dml) (d : tables) : wf_tables d -> wf_tables (fst (execute q d)).
Proof.
  intros (Hc & Ha & Ht & He & Hl & Hd).
  destruct q; cbn [execute fst insert_row];
    unfold wf_tables, set_customers, set_accounts, set_transactions, set_employees,
      set_loans, set_credit_cards;
    cbn [customers accounts transactions employees loans credit_cards];
    repeat (split; [first [assumption | refine (wf_update_row _ _ _ _); assumption
                          | refine (wf_insert_row _ _ _); assumption]|]);
    first [assumption | refine (wf_update_row _ _ _ _); assumption
           | refine (wf_insert_row _ _ _); assumption].
Qed.

(** The key an accepted [INSERT] reports is not 0. *)
Lemma insert_key_positive (q : dml) (d : tables) :
  wf_tables d -> is_insert q = true -> 1 <= snd (execute q d).
Proof.
  intros (Hc & Ha & Ht & He & Hl & Hd) Hq.
  destruct q; try discriminate; cbn [execute snd insert_row];
    [destruct Hc | destruct Ha | destruct Ht | destruct He | destruct Hl | destruct Hd]; lia.
Qed.

(** X1.  The keys stay in range: a new file is well formed, and whatever
    statement [_execute_dml] is given, accepted or not, it leaves every table
    with its keys between 1 and the last key handed out. *)
Theorem statements_keep_keys_in_range :
  wf_tables create_tables /\
  forall (q : dml) (w : world),
    wf_tables (db w) -> wf_tables (db (snd (BaseEntity._execute_dml q w))).
Proof.
  split; [exact create_tables_wf|].
  intros q w H. rewrite execute_dml_db.
  destruct (List.hd false (faults w)); [exact H | now apply execute_wf].
Qed.

(** X1 on the file of [saved_account] and a deposit's [UPDATE]. *)
Lemma statements_keep_keys_in_range_witness :
  wf_tables (db w_account) /\
  wf_tables (db (snd (BaseEntity._execute_dml (UpdateBalanceAdd 50%float (Some 1)) w_account))).
Proof.
  assert (H : wf_tables (db w_account)).
  { exact (proj2 statements_keep_keys_in_range
             (InsertAccount (Some 1) 100%float "Savings") (fresh_world [])
             (proj1 statements_keep_keys_in_range)). }
  split; [exact H|].
  exact (proj2 statements_keep_keys_in_range _ w_account H).
Defined.

(** X2.  On a well-formed file the result of [_execute_dml] is truthy exactly
    when the engine accepted the statement: an accepted [INSERT] never
    reports key 0, so [if new_id:] and [if self._execute_dml(...):] test
    acceptance. *)
Theorem execute_dml_truthy_iff_accepted (q : dml) (w : world) :
  wf_tables (db w) ->
  truthy (fst (BaseEntity._execute_dml q w)) = negb (List.hd false (faults w)).
Proof.
  intros H. destruct (List.hd false (faults w)) eqn:Hf.
  - rewrite execute_dml_raised by exact Hf. reflexivity.
  - rewrite execute_dml_accepted by exact Hf. cbn [fst truthy negb].
    destruct (is_insert q) eqn:Hq; [| reflexivity].
    pose proof (insert_key_positive q (db w) H Hq) as Hk.
    destruct (Z.eqb_spec (snd (execute q (db w))) 0); [lia | reflexivity].
Qed.

(** X2 on a new file and the [INSERT] of a customer. *)
Lemma execute_dml_truthy_iff_accepted_witness :
  wf_tables (db (fresh_world [])) /\
  truthy (fst (BaseEntity._execute_dml
                 (InsertCustomer "Ada" "Lovelace" "221B" "2026-11-03") (fresh_world [])))
  = negb (List.hd false (faults (fresh_world []))).
Proof.
  split; [exact create_tables_wf|].
  exact (execute_dml_truthy_iff_accepted _ (fresh_world []) create_tables_wf).
Defined.

(** ** Saving, then loading *)

Lemma customer_save_new_accepted (c : Customer.t) (w : world) :
  wf_tables (db w) -> List.hd false (faults w) = false ->
  Customer.save_new c w =
    ((Some (seq (customers (db w)) + 1),
      Customer.set_customer_id (Some (seq (customers (db w)) + 1)) c),
     logged [(INFO, CustomerSaved (Customer._first_name c) (Customer._last_name c)
                      (Some (seq (customers (db w)) + 1)))]
       (set_db (fst (execute (InsertCustomer (Customer._first_name c)
                                (Customer._last_name c) (Customer._address c)
                                (Customer._join_date c)) (db w)))
          (set_faults (List.tl (faults w)) w))).
Proof.
  intros (Hc & _) Hf. destruct Hc as [H0 _].
  unfold Customer.save_new. unfold bind at 1.
  rewrite execute_dml_accepted by exact Hf. cbn [is_insert execute insert_row snd truthy].
  destruct (Z.eqb_spec (seq (customers (db w)) + 1) 0) as [E | _]; [lia|].
  reflexivity.
Qed.

Lemma customer_load_result (k : Z) (w : world) :
  fst (Customer.load k w) =
    if List.hd false (faults w) then None
    else customer_of_row k (List.hd EmptyString (List.tl (clock w)))
         <$> rows (customers (db w)) !! k.
Proof.
  destruct w as [d fs cl lg].
  cbv [Customer.load Customer.__init__ BaseEntity._fetch_record bind ret now next_fault
       logging.warning logging.error logging.emit set_faults set_clock].
  cbn [faults db clock log fst snd str_empty].
  destruct (List.hd false fs); [reflexivity|].
  match goal with |- context [rows (customers ?x) !! k] => change x with d end.
  destruct (rows (customers d) !! k) as [r |]; [| reflexivity].
  unfold customer_of_row. cbn [fmap option_fmap option_map].
  destruct (str_empty (c_join_date r)); reflexivity.
Qed.

Lemma customer_load_db (k : Z) (w : world) : db (snd (Customer.load k w)) = db w.
Proof.
  destruct w as [d fs cl lg].
  cbv [Customer.load Customer.__init__ BaseEntity._fetch_record bind ret now next_fault
       logging.warning logging.error logging.emit set_faults set_clock].
  cbn [faults db clock log fst snd str_empty].
  destruct (List.hd false fs); [reflexivity|].
  match goal with |- context [rows (customers ?x) !! k] => change x with d end.
  destruct (rows (customers d) !! k) as [r |]; [| reflexivity].
  destruct (str_empty (c_join_date r)); reflexivity.
Qed.

Lemma account_save_new_accepted (a : Account.t) (w : world) :
  wf_tables (db w) -> List.hd false (faults w) = false ->
  Account.save_new a w =
    ((Some (seq (accounts (db w)) + 1),
      Account.set_account_id (Some (seq (accounts (db w)) + 1)) a),
     logged [(INFO, AccountOpened (Account._account_type a)
                      (Some (seq (accounts (db w)) + 1)) (Account._customer_id a))]
       (set_db (fst (execute (InsertAccount (Account._customer_id a)
                                (Account._balance a) (Account._account_type a)) (db w)))
          (set_faults (List.tl (faults w)) w))).
Proof.
  intros (_ & Ha & _) Hf. destruct Ha as [H0 _].
  unfold Account.save_new. unfold bind at 1.
  rewrite execute_dml_accepted by exact Hf. cbn [is_insert execute insert_row snd truthy].
  destruct (Z.eqb_spec (seq (accounts (db w)) + 1) 0) as [E | _]; [lia|].
  reflexivity.
Qed.

Lemma account_load_eq (k : Z) (w : world) :
  Account.load k w =
    if List.hd false (faults w) then
      (None, logged [(WARNING, AccountNotFound k)]
               (logged [(ERROR, SqlFetchFailed)] (set_faults (List.tl (faults w)) w)))
    else
      match rows (accounts (db w)) !! k with
      | Some r => (Some (Account.of_row k r), set_faults (List.tl (faults w)) w)
      | None =>
          (None, logged [(WARNING, AccountNotFound k)] (set_faults (List.tl (faults w)) w))
      end.
Proof.
  unfold Account.load, BaseEntity._fetch_record, bind, next_fault.
  destruct (List.hd false (faults w)); [reflexivity|].
  cbn [db set_faults]. destruct (rows (accounts (db w)) !! k); reflexivity.
Qed.

Lemma wf_next_key_free {R} (t : table R) : wf_table t -> rows t !! (seq t + 1) = None.
Proof.
  intros [_ H]. destruct (rows t !! (seq t + 1)) eqn:E; [| reflexivity].
  specialize (H _ (ex_intro _ _ E)). lia.
Qed.

(** X3.  A customer that was saved can be loaded back.  On a well-formed
    file, for an object whose [join_date] is not empty, when the engine
    accepts the [INSERT] and the [SELECT]: [save_new] returns a key that was
    not in use and stores it in the object, and [Customer.load] of that key
    returns an object equal to the saved one, without changing the tables. *)
Theorem customer_save_then_load (c : Customer.t) (w : world) :
  wf_tables (db w) ->
  str_empty (Customer._join_date c) = false ->
  List.hd false (faults w) = false ->
  List.hd false (List.tl (faults w)) = false ->
  exists k,
    1 <= k /\ rows (customers (db w)) !! k = None /\
    fst (Customer.save_new c w) = (Some k, Customer.set_customer_id (Some k) c) /\
    fst (Customer.load k (snd (Customer.save_new c w)))
    = Some (Customer.set_customer_id (Some k) c) /\
    db (snd (Customer.load k (snd (Customer.save_new c w))))
    = db (snd (Customer.save_new c w)).
Proof.
  intros Hwf Hj Hf1 Hf2. pose proof Hwf as (Hc & _).
  exists (seq (customers (db w)) + 1).
  split; [destruct Hc; lia|]. split; [now apply wf_next_key_free|].
  rewrite customer_load_db, customer_load_result.
  rewrite customer_save_new_accepted by assumption. cbn [fst snd].
  cbn [faults logged set_db set_faults]. rewrite Hf2.
  cbn [db logged set_db execute insert_row fst set_customers customers rows].
  rewrite lookup_insert_eq. cbn [fmap option_fmap option_map].
  split; [reflexivity|]. split; [| reflexivity].
  unfold customer_of_row. cbn [c_join_date c_first_name c_last_name c_address].
  rewrite Hj. destruct c; reflexivity.
Qed.

(** X3 on a new file. *)
Lemma customer_save_then_load_witness :
  wf_tables (db (fresh_world [])) /\
  str_empty (Customer._join_date nameless_customer) = false /\
  exists k,
    1 <= k /\ rows (customers (db (fresh_world []))) !! k = None /\
    fst (Customer.save_new nameless_customer (fresh_world []))
    = (Some k, Customer.set_customer_id (Some k) nameless_customer) /\
    fst (Customer.load k (snd (Customer.save_new nameless_customer (fresh_world []))))
    = Some (Customer.set_customer_id (Some k) nameless_customer) /\
    db (snd (Customer.load k (snd (Customer.save_new nameless_customer (fresh_world [])))))
    = db (snd (Customer.save_new nameless_customer (fresh_world []))).
Proof.
  split; [exact create_tables_wf|]. split; [reflexivity|].
  exact (customer_save_then_load nameless_customer (fresh_world [])
           create_tables_wf eq_refl eq_refl eq_refl).
Defined.

(** X4.  An account that was saved can be loaded back, active.  On a
    well-formed file, when the engine accepts the [INSERT] and the [SELECT]:
    [save_new] returns a key that was not in use, and [Account.load] of that
    key returns the saved customer key and type, a balance that compares
    equal to the saved one when that is a number, and [is_active] equal to 1
    whatever the saved object held: the [INSERT] leaves that column to its
    default. *)
Theorem account_save_then_load (a : Account.t) (w : world) :
  wf_tables (db w) ->
  List.hd false (faults w) = false ->
  List.hd false (List.tl (faults w)) = false ->
  exists k a',
    1 <= k /\ rows (accounts (db w)) !! k = None /\
    fst (Account.save_new a w) = (Some k, Account.set_account_id (Some k) a) /\
    fst (Account.load k (snd (Account.save_new a w))) = Some a' /\
    Account._account_id a' = Some k /\
    Account._customer_id a' = Account._customer_id a /\
    Account._account_type a' = Account._account_type a /\
    Account._is_active a' = 1 /\
    (is_nan (Account._balance a) = false ->
     (Account._balance a' =? Account._balance a)%float = true).
Proof.
  intros Hwf Hf1 Hf2. pose proof Hwf as (_ & Ha & _).
  exists (seq (accounts (db w)) + 1),
    (Account.of_row (seq (accounts (db w)) + 1)
       {| a_customer_id := Account._customer_id a; a_balance := Account._balance a;
          a_account_type := Account._account_type a; a_is_active := 1 |}).
  split; [destruct Ha; lia|]. split; [now apply wf_next_key_free|].
  rewrite account_save_new_accepted by assumption. cbn [fst snd].
  rewrite account_load_eq. cbn [faults logged set_db set_faults]. rewrite Hf2.
  cbn [db logged set_db execute insert_row fst set_accounts accounts rows].
  rewrite lookup_insert_eq. cbn [fst snd].
  repeat (split; [reflexivity|]).
  cbn [Account.of_row Account._balance a_balance]. unfold is_nan.
  intros H. now apply negb_false_iff in H.
Qed.

(** X4 on a new file and an account object that says it is inactive. *)
Lemma account_save_then_load_witness :
  wf_tables (db (fresh_world [])) /\
  exists k a',
    1 <= k /\ rows (accounts (db (fresh_world []))) !! k = None /\
    fst (Account.save_new (Account.set_account_id None (inactive_account 100%float))
           (fresh_world []))
    = (Some k, Account.set_account_id (Some k)
                 (Account.set_account_id None (inactive_account 100%float))) /\
    fst (Account.load k
           (snd (Account.save_new (Account.set_account_id None (inactive_account 100%float))
                   (fresh_world [])))) = Some a' /\
    Account._account_id a' = Some k /\
    Account._customer_id a' = Some 1 /\
    Account._account_type a' = "Savings" /\
    Account._is_active a' = 1 /\
    (is_nan 100%float = false -> (Account._balance a' =? 100)%float = true).
Proof.
  split; [exact create_tables_wf|].
  exact (account_save_then_load (Account.set_account_id None (inactive_account 100%float))
           (fresh_world []) create_tables_wf eq_refl eq_refl).
Defined.

(** ** One call on an account *)

Ltac by_cases_on_engine w :=
  destruct (faults w) as [| [] [| [] ?]]; cbn; reflexivity.

Lemma perform_result (c : call) (a : Account.t) (w : world) :
  fst (fst (perform c a w)) = passes_guards c a && negb (List.hd false (faults w)).
Proof.
  destruct c as [x | x]; run; unfold passes_guards.
  - destruct (x <=? 0)%float; [reflexivity|]. by_cases_on_engine w.
  - destruct (x <=? 0)%float; [reflexivity|].
    destruct (Account._balance a <? x)%float; [reflexivity|]. by_cases_on_engine w.
Qed.

Lemma perform_snapshot (c : call) (a : Account.t) (w : world) :
  snd (fst (perform c a w)) =
    if passes_guards c a && negb (List.hd false (faults w))
    then Account.set_balance (call_update c (Account._balance a)) a else a.
Proof.
  destruct c as [x | x]; run; unfold passes_guards.
  - destruct (x <=? 0)%float; [reflexivity|]. by_cases_on_engine w.
  - destruct (x <=? 0)%float; [reflexivity|].
    destruct (Account._balance a <? x)%float; [reflexivity|]. by_cases_on_engine w.
Qed.

Lemma perform_accounts (c : call) (a : Account.t) (w : world) :
  accounts (db (snd (perform c a w))) =
    if passes_guards c a && negb (List.hd false (faults w))
    then update_row (with_balance (call_update c)) (Account._account_id a) (accounts (db w))
    else accounts (db w).
Proof.
  destruct c as [x | x]; run; unfold passes_guards.
  - destruct (x <=? 0)%float; [reflexivity|]. by_cases_on_engine w.
  - destruct (x <=? 0)%float; [reflexivity|].
    destruct (Account._balance a <? x)%float; [reflexivity|]. by_cases_on_engine w.
Qed.

Lemma perform_transactions (c : call) (a : Account.t) (w : world) :
  transactions (db (snd (perform c a w))) =
    if passes_guards c a && negb (List.hd false (faults w))
       && negb (List.hd false (List.tl (faults w)))
    then fst (insert_row {| t_account_id := Account._account_id a;
                            t_txn_type := call_txn_type c;
                            t_amount := call_amount c;
                            t_timestamp := List.hd EmptyString (clock w) |}
                (transactions (db w)))
    else transactions (db w).
Proof.
  destruct c as [x | x]; run; unfold passes_guards.
  - destruct (x <=? 0)%float; [reflexivity|]. by_cases_on_engine w.
  - destruct (x <=? 0)%float; [reflexivity|].
    destruct (Account._balance a <? x)%float; [reflexivity|]. by_cases_on_engine w.
Qed.

Lemma perform_other_tables (c : call) (a : Account.t) (w : world) :
  customers (db (snd (perform c a w))) = customers (db w) /\
  employees (db (snd (perform c a w))) = employees (db w) /\
  loans (db (snd (perform c a w))) = loans (db w) /\
  credit_cards (db (snd (perform c a w))) = credit_cards (db w).
Proof.
  destruct c as [x | x]; run.
  - destruct (x <=? 0)%float; [repeat split|].
    destruct (faults w) as [| [] [| [] ?]]; cbn; repeat split.
  - destruct (x <=? 0)%float; [repeat split|].
    destruct (Account._balance a <? x)%float; [repeat split|].
    destruct (faults w) as [| [] [| [] ?]]; cbn; repeat split.
Qed.

Lemma update_row_seq {R} (f : R -> R) (key : option Z) (t : table R) :
  seq (update_row f key t) = seq t.
Proof. destruct key; reflexivity. Qed.

Lemma update_row_other {R} (f : R -> R) (key : option Z) (t : table R) (k : Z) :
  key <> Some k -> rows (update_row f key t) !! k = rows t !! k.
Proof.
  destruct key as [k0 |]; [| reflexivity]. intros H. cbn [update_row rows].
  apply lookup_alter_ne. congruence.
Qed.

Lemma update_row_own {R} (f : R -> R) (t : table R) (k : Z) :
  rows (update_row f (Some k) t) !! k = f <$> rows t !! k.
Proof. cbn [update_row rows]. apply lookup_alter_eq. Qed.

Lemma update_row_dom {R} (f : R -> R) (key : option Z) (t : table R) (k : Z) :
  is_Some (rows (update_row f key t) !! k) <-> is_Some (rows t !! k).
Proof.
  destruct (decide (key = Some k)) as [-> | H].
  - rewrite update_row_own. destruct (rows t !! k); cbn; split; intros [y Hy];
      first [discriminate | eauto].
  - now rewrite update_row_other.
Qed.

(** X5.  [deposit] and [withdraw] touch one account row and the transaction
    log only.  Whatever the call, the object and the engine do: the
    customers, the employees, the loans and the cards are as before; no
    account row appears or disappears and no account key is handed out; and
    every account row other than the one under the object's own key is as
    before. *)
Theorem perform_touches_own_row_only (c : call) (a : Account.t) (w : world) :
  customers (db (snd (perform c a w))) = customers (db w) /\
  employees (db (snd (perform c a w))) = employees (db w) /\
  loans (db (snd (perform c a w))) = loans (db w) /\
  credit_cards (db (snd (perform c a w))) = credit_cards (db w) /\
  seq (accounts (db (snd (perform c a w)))) = seq (accounts (db w)) /\
  (forall k, is_Some (rows (accounts (db (snd (perform c a w)))) !! k)
             <-> is_Some (rows (accounts (db w)) !! k)) /\
  (forall k, Account._account_id a <> Some k ->
     rows (accounts (db (snd (perform c a w)))) !! k = rows (accounts (db w)) !! k).
Proof.
  destruct (perform_other_tables c a w) as (H1 & H2 & H3 & H4).
  repeat (split; [assumption|]).
  rewrite perform_accounts.
  destruct (passes_guards c a && negb (List.hd false (faults w))).
  - split; [apply update_row_seq|]. split; [intros k; apply update_row_dom|].
    intros k Hk. now apply update_row_other.
  - repeat split; auto.
Qed.

(** X6.  What one call does to the balance.  [deposit] and [withdraw]
    return [True] exactly when their guards let the amount through and the
    engine accepts the [UPDATE], whether or not a row is stored under the
    object's key.  For an object with key [k] whose row [r] is stored under
    [k]: when the call returns [True], the snapshot's balance is the old
    snapshot balance plus or minus the amount, and the row's balance is the
    old row balance plus or minus the amount, its other columns as before:
    the statement is relative to the stored value, not to the snapshot.
    When the call returns [False], snapshot and row are as before. *)
Theorem perform_updates_row_relative (a : Account.t) (x : float) (w : world) :
  fst (fst (Account.deposit a x w))
  = negb (x <=? 0)%float && negb (List.hd false (faults w)) /\
  fst (fst (Account.withdraw a x w))
  = negb (x <=? 0)%float && negb (Account._balance a <? x)%float
    && negb (List.hd false (faults w)) /\
  forall (k : Z) (r : account_row),
    Account._account_id a = Some k -> rows (accounts (db w)) !! k = Some r ->
    (fst (fst (Account.deposit a x w)) = true ->
     Account._balance (snd (fst (Account.deposit a x w))) = (Account._balance a + x)%float /\
     rows (accounts (db (snd (Account.deposit a x w)))) !! k
     = Some {| a_customer_id := a_customer_id r; a_balance := (a_balance r + x)%float;
               a_account_type := a_account_type r; a_is_active := a_is_active r |}) /\
    (fst (fst (Account.deposit a x w)) = false ->
     snd (fst (Account.deposit a x w)) = a /\
     rows (accounts (db (snd (Account.deposit a x w)))) !! k = Some r) /\
    (fst (fst (Account.withdraw a x w)) = true ->
     Account._balance (snd (fst (Account.withdraw a x w))) = (Account._balance a - x)%float /\
     rows (accounts (db (snd (Account.withdraw a x w)))) !! k
     = Some {| a_customer_id := a_customer_id r; a_balance := (a_balance r - x)%float;
               a_account_type := a_account_type r; a_is_active := a_is_active r |}) /\
    (fst (fst (Account.withdraw a x w)) = false ->
     snd (fst (Account.withdraw a x w)) = a /\
     rows (accounts (db (snd (Account.withdraw a x w)))) !! k = Some r).
Proof.
  pose proof (perform_result (Deposit x) a w) as Rd.
  pose proof (perform_snapshot (Deposit x) a w) as Sd.
  pose proof (perform_accounts (Deposit x) a w) as Ad.
  pose proof (perform_result (Withdraw x) a w) as Rw.
  pose proof (perform_snapshot (Withdraw x) a w) as Sw.
  pose proof (perform_accounts (Withdraw x) a w) as Aw.
  cbn [perform passes_guards call_update] in *.
  split; [exact Rd|]. split; [exact Rw|].
  intros k r Hid Hrow. rewrite Hid in Ad, Aw. rewrite <- Rd in Sd, Ad. rewrite <- Rw in Sw, Aw.
  split; [| split; [| split]]; intros Hres.
  - rewrite Hres in Sd, Ad. split.
    + rewrite Sd. reflexivity.
    + rewrite Ad, update_row_own, Hrow. reflexivity.
  - rewrite Hres in Sd, Ad. split; [exact Sd | rewrite Ad; exact Hrow].
  - rewrite Hres in Sw, Aw. split.
    + rewrite Sw. reflexivity.
    + rewrite Aw, update_row_own, Hrow. reflexivity.
  - rewrite Hres in Sw, Aw. split; [exact Sw | rewrite Aw; exact Hrow].
Qed.

(** X6 on the file of [saved_account], whose row holds 100, and an object
    for it whose snapshot says 40: a deposit of 50 leaves 90 in the
    snapshot and 150 in the row. *)
Lemma perform_updates_row_relative_witness :
  Account._account_id (account_with (Some 1) 40%float) = Some 1 /\
  rows (accounts (db w_account)) !! 1
  = Some {| a_customer_id := Some 1; a_balance := 100%float;
            a_account_type := "Savings"; a_is_active := 1 |} /\
  fst (fst (Account.deposit (account_with (Some 1) 40%float) 50%float w_account)) = true /\
  Account._balance
    (snd (fst (Account.deposit (account_with (Some 1) 40%float) 50%float w_account)))
  = 90%float /\
  rows (accounts
          (db (snd (Account.deposit (account_with (Some 1) 40%float) 50%float w_account))))
    !! 1
  = Some {| a_customer_id := Some 1; a_balance := 150%float;
            a_account_type := "Savings"; a_is_active := 1 |}.
Proof.
  assert (H1 : Account._account_id (account_with (Some 1) 40%float) = Some 1)
    by reflexivity.
  assert (H2 : rows (accounts (db w_account)) !! 1
               = Some {| a_customer_id := Some 1; a_balance := 100%float;
                         a_account_type := "Savings"; a_is_active := 1 |})
    by reflexivity.
  assert (H3 : fst (fst (Account.deposit (account_with (Some 1) 40%float) 50%float
                           w_account)) = true) by reflexivity.
  split; [exact H1|]. split; [exact H2|]. split; [exact H3|].
  exact (proj1 (proj2 (proj2 (perform_updates_row_relative
                                (account_with (Some 1) 40%float) 50%float w_account))
                  1 _ H1 H2) H3).
Defined.

(** X7.  The transaction log.  A call records a transaction exactly when it
    returns [True] and the engine accepts the [INSERT] that follows the
    [UPDATE]: one row, under the next key, with the object's key, the type
    of the call, the amount, and the clock reading taken after the
    [UPDATE]; the rows that were there are as before.  When the engine
    raises on that [INSERT] the call still returns [True] and the balance
    stays changed, with no transaction recorded. *)
Theorem perform_records_transaction (c : call) (a : Account.t) (w : world) :
  transactions (db (snd (perform c a w))) =
    (if fst (fst (perform c a w)) && negb (List.hd false (List.tl (faults w)))
     then fst (insert_row {| t_account_id := Account._account_id a;
                             t_txn_type := call_txn_type c;
                             t_amount := call_amount c;
                             t_timestamp := List.hd EmptyString (clock w) |}
                 (transactions (db w)))
     else transactions (db w)) /\
  (passes_guards c a = true -> List.hd false (faults w) = false ->
   List.hd false (List.tl (faults w)) = true ->
   fst (fst (perform c a w)) = true /\
   transactions (db (snd (perform c a w))) = transactions (db w) /\
   accounts (db (snd (perform c a w))) =
     update_row (with_balance (call_update c)) (Account._account_id a) (accounts (db w))) /\
  (fst (fst (perform c a w)) = true -> List.hd false (List.tl (faults w)) = false ->
   seq (transactions (db (snd (perform c a w)))) = seq (transactions (db w)) + 1 /\
   rows (transactions (db (snd (perform c a w)))) !! (seq (transactions (db w)) + 1)
   = Some {| t_account_id := Account._account_id a;
             t_txn_type := call_txn_type c;
             t_amount := call_amount c;
             t_timestamp := List.hd EmptyString (clock w) |} /\
   forall j : Z, j <> seq (transactions (db w)) + 1 ->
     rows (transactions (db (snd (perform c a w)))) !! j
     = rows (transactions (db w)) !! j).
Proof.
  split; [| split].
  - rewrite perform_result. apply perform_transactions.
  - intros Hg Hf1 Hf2.
    rewrite perform_result, perform_transactions, perform_accounts, Hg, Hf1, Hf2.
    repeat split.
  - intros Hres Hf2. rewrite perform_transactions, <- perform_result, Hres, Hf2.
    cbn [andb negb insert_row fst seq rows]. split; [reflexivity|].
    split; [apply lookup_insert_eq|].
    intros j Hj. apply lookup_insert_ne. congruence.
Qed.

(** X7 on [saved_account]: the engine accepts the [UPDATE] of a deposit and
    raises on the [INSERT] of its transaction; and the row recorded when it
    accepts both. *)
Lemma perform_records_transaction_witness :
  passes_guards (Deposit 50%float) saved_account = true /\
  (fst (fst (perform (Deposit 50%float) saved_account (account_world 100%float [false; true])))
   = true /\
   transactions (db (snd (perform (Deposit 50%float) saved_account
                            (account_world 100%float [false; true]))))
   = transactions (db (account_world 100%float [false; true])) /\
   accounts (db (snd (perform (Deposit 50%float) saved_account
                        (account_world 100%float [false; true]))))
   = update_row (with_balance (call_update (Deposit 50%float))) (Some 1)
       (accounts (db (account_world 100%float [false; true])))) /\
  fst (fst (perform (Deposit 50%float) saved_account w_account)) = true /\
  rows (transactions (db (snd (perform (Deposit 50%float) saved_account w_account)))) !! 1
  = Some {| t_account_id := Some 1; t_txn_type := "Deposit"; t_amount := 50%float;
            t_timestamp := EmptyString |}.
Proof.
  assert (H : fst (fst (perform (Deposit 50%float) saved_account w_account)) = true)
    by reflexivity.
  split; [reflexivity|]. split.
  - exact (proj1 (proj2 (perform_records_transaction (Deposit 50%float) saved_account
                           (account_world 100%float [false; true])))
             eq_refl eq_refl eq_refl).
  - split; [exact H|].
    exact (proj1 (proj2 (proj2 (proj2 (perform_records_transaction (Deposit 50%float)
                                         saved_account w_account)) H eq_refl))).
Defined.

(** ** The address of a customer *)

Lemma set_address_eq (c : Customer.t) (s : string) (w : world) :
  Customer.set_address c s w =
    if truthy (Customer._customer_id c) then
      if List.hd false (faults w) then
        (Customer.set_address_field s c,
         logged [(ERROR, SqlDmlFailed)] (set_faults (List.tl (faults w)) w))
      else
        (Customer.set_address_field s c,
         logged [(INFO, CustomerAddressUpdated (Customer._customer_id c))]
           (set_db (fst (execute (UpdateCustomerAddress s (Customer._customer_id c)) (db w)))
              (set_faults (List.tl (faults w)) w)))
    else (Customer.set_address_field s c, w).
Proof.
  unfold Customer.set_address. cbv zeta.
  cbn [Customer.set_address_field Customer._customer_id].
  destruct (truthy (Customer._customer_id c)); [| reflexivity].
  unfold bind at 1. destruct (List.hd false (faults w)) eqn:Hf.
  - rewrite execute_dml_raised by exact Hf. reflexivity.
  - rewrite execute_dml_accepted by exact Hf. reflexivity.
Qed.

(** X8.  The setter of [Customer.address].  The snapshot always takes the
    new address.  On an object without a key no statement is sent and the
    world is untouched.  On a saved customer, when the engine accepts the
    [UPDATE], a [Customer.load] of the key returns the new address with the
    names and the join date of the row, as [__init__] reads them.  When the
    engine raises, the tables are as before while the snapshot already
    holds the new address. *)
Theorem set_address_reaches_row (c : Customer.t) (s : string) (w : world) :
  fst (Customer.set_address c s w) = Customer.set_address_field s c /\
  (truthy (Customer._customer_id c) = false ->
   snd (Customer.set_address c s w) = w) /\
  (forall k r,
     Customer._customer_id c = Some k -> k <> 0 ->
     rows (customers (db w)) !! k = Some r ->
     List.hd false (faults w) = false ->
     List.hd false (List.tl (faults w)) = false ->
     fst (Customer.load k (snd (Customer.set_address c s w)))
     = Some (customer_of_row k (List.hd EmptyString (List.tl (clock w)))
               (with_address s r))) /\
  (List.hd false (faults w) = true ->
   db (snd (Customer.set_address c s w)) = db w).
Proof.
  rewrite set_address_eq. split; [| split; [| split]].
  - destruct (truthy _), (List.hd false (faults w)); reflexivity.
  - intros ->. reflexivity.
  - intros k r Hid Hk Hrow Hf1 Hf2. rewrite Hid, Hf1. cbn [truthy].
    destruct (Z.eqb_spec k 0) as [| _]; [contradiction|]. cbn [negb snd].
    rewrite customer_load_result. cbn [faults clock logged set_db set_faults]. rewrite Hf2.
    cbn [db logged set_db execute fst set_customers customers].
    rewrite update_row_own, Hrow. reflexivity.
  - intros ->. destruct (truthy _); reflexivity.
Qed.

(** X8 on [saved_customer] and its row. *)
Lemma set_address_reaches_row_witness :
  Customer._customer_id saved_customer = Some 1 /\
  fst (Customer.load 1 (snd (Customer.set_address saved_customer "1 Dorset Street"
                               (customer_world []))))
  = Some (Customer.set_address_field "1 Dorset Street" saved_customer) /\
  db (snd (Customer.set_address saved_customer "1 Dorset Street" (customer_world [true])))
  = db (customer_world [true]).
Proof.
  split; [reflexivity|]. split.
  - refine (proj1 (proj2 (proj2 (set_address_reaches_row saved_customer "1 Dorset Street"
                                   (customer_world []))))
              1 {| c_first_name := "Ada"; c_last_name := "Lovelace";
                   c_address := "12 St James Square"; c_join_date := "2026-11-03" |}
              eq_refl _ _ eq_refl eq_refl); [lia | reflexivity].
  - exact (proj2 (proj2 (proj2 (set_address_reaches_row saved_customer "1 Dorset Street"
                                  (customer_world [true])))) eq_refl).
Defined.

(** ** Loading *)

(** X9.  [Customer.load] and [Account.load] only read.  For a key that
    SQLite can bind, they leave the tables as they were; they return an
    object exactly when the engine accepts the [SELECT] and a row is stored
    under the key, and that object carries the key and the columns of the
    row, except that a customer row with an empty join date is loaded with
    the date of the day; and when they return [None], for a missing row as
    for an engine that raised, the last entry of the log is the not-found
    warning. *)
Theorem load_reads_only (k : Z) (w : world) :
  sqlite_integer k ->
  (db (snd (Customer.load k w)) = db w /\
   fst (Customer.load k w) =
     (if List.hd false (faults w) then None
      else customer_of_row k (List.hd EmptyString (List.tl (clock w)))
           <$> rows (customers (db w)) !! k) /\
   (fst (Customer.load k w) = None ->
    List.last (log (snd (Customer.load k w))) (ERROR, SqlDmlFailed)
    = (WARNING, CustomerNotFound k))) /\
  (db (snd (Account.load k w)) = db w /\
   fst (Account.load k w) =
     (if List.hd false (faults w) then None
      else Account.of_row k <$> rows (accounts (db w)) !! k) /\
   (fst (Account.load k w) = None ->
    List.last (log (snd (Account.load k w))) (ERROR, SqlDmlFailed)
    = (WARNING, AccountNotFound k))).
Proof.
  intros _. split.
  - split; [apply customer_load_db|]. split; [apply customer_load_result|].
    destruct w as [d fs cl lg].
    cbv [Customer.load Customer.__init__ BaseEntity._fetch_record bind ret now next_fault
         logging.warning logging.error logging.emit set_faults set_clock].
    cbn [faults db clock log fst snd str_empty].
    destruct (List.hd false fs).
    + intros _. apply last_last.
    + match goal with |- context [rows (customers ?x) !! k] => change x with d end.
      destruct (rows (customers d) !! k) as [r |].
      * destruct (str_empty (c_join_date r)); discriminate.
      * intros _. apply last_last.
  - rewrite account_load_eq.
    destruct (List.hd false (faults w)).
    + cbn [fst snd db logged log]. repeat split. intros _. apply last_last.
    + destruct (rows (accounts (db w)) !! k); cbn [fst snd db logged log set_faults fmap
        option_fmap option_map]; repeat split; [discriminate|].
      intros _. apply last_last.
Qed.

(** X9 on a new file, which holds no customer and no account. *)
Lemma load_reads_only_witness :
  sqlite_integer 1 /\
  fst (Customer.load 1 (fresh_world [])) = None /\
  List.last (log (snd (Customer.load 1 (fresh_world [])))) (ERROR, SqlDmlFailed)
  = (WARNING, CustomerNotFound 1) /\
  fst (Account.load 1 (fresh_world [true])) = None /\
  List.last (log (snd (Account.load 1 (fresh_world [true])))) (ERROR, SqlDmlFailed)
  = (WARNING, AccountNotFound 1).
Proof.
  assert (H : sqlite_integer 1) by (unfold sqlite_integer; lia).
  split; [exact H|]. split; [reflexivity|]. split.
  - exact (proj2 (proj2 (proj1 (load_reads_only 1 (fresh_world []) H))) eq_refl).
  - split; [reflexivity|].
    exact (proj2 (proj2 (proj2 (load_reads_only 1 (fresh_world [true]) H))) eq_refl).
Defined.

(** ** Loading an account, then one call *)

Lemma load_then_eq (k : Z) (c : call) (w : world) :
  load_then k c w =
    match fst (Account.load k w) with
    | Some a => (Some (fst (perform c a (snd (Account.load k w)))),
                 snd (perform c a (snd (Account.load k w))))
    | None => (None, snd (Account.load k w))
    end.
Proof.
  unfold load_then, bind, ret. destruct (Account.load k w) as [[a |] w1]; cbn [fst snd].
  - destruct (perform c a w1) as [r w2]. reflexivity.
  - reflexivity.
Qed.

(** X10.  After [Account.load] and one [deposit] or [withdraw] on the
    object it returned, whatever the amount and whether or not the call
    succeeded, the snapshot carries the balance of its row. *)
Theorem load_then_in_sync (k : Z) (c : call) (w : world) (ok : bool) (a' : Account.t) :
  fst (load_then k c w) = Some (ok, a') ->
  in_sync a' (snd (load_then k c w)).
Proof.
  rewrite load_then_eq.
  destruct (Account.load k w) as [[a |] w1] eqn:Hl; cbn [fst snd]; [| discriminate].
  apply load_in_sync in Hl. intros [= H]. 
  assert (Ha : a' = snd (fst (perform c a w1))) by now rewrite H.
  rewrite Ha, perform_snapshot.
  destruct Hl as (j & r & Hid & Hrow & Hbal).
  unfold in_sync. rewrite perform_accounts.
  destruct (passes_guards c a && negb (List.hd false (faults w1))).
  - exists j, (with_balance (call_update c) r).
    cbn [Account.set_balance Account._account_id Account._balance].
    split; [exact Hid|]. rewrite Hid, update_row_own, Hrow. split; [reflexivity|].
    cbn [with_balance a_balance]. now rewrite Hbal.
  - exists j, r. auto.
Qed.

(** X10 on the file of [saved_account]: a deposit of 50 into account 1. *)
Lemma load_then_in_sync_witness :
  in_sync (Account.set_balance 150%float saved_account)
    (snd (load_then 1 (Deposit 50%float) w_account)).
Proof.
  exact (load_then_in_sync 1 (Deposit 50%float) w_account true
           (Account.set_balance 150%float saved_account) eq_refl).
Defined.

(** X11.  Persisted balances stay non-negative.  When every stored balance
    is [>= 0], it still is after [Account.load] followed by one [deposit]
    of an amount that is a number or one [withdraw] of a finite amount,
    whatever the key and the engine's verdicts. *)
Theorem load_then_keeps_balances_nonneg (k : Z) (c : call) (w : world) :
  numeric c -> nonneg_balances (db w) ->
  nonneg_balances (db (snd (load_then k c w))).
Proof.
  intros Hc Hw. rewrite load_then_eq, account_load_eq.
  destruct (List.hd false (faults w)); [exact Hw|].
  destruct (rows (accounts (db w)) !! k) as [r |] eqn:Hrow; cbn [fst snd]; [| exact Hw].
  set (w1 := set_faults (List.tl (faults w)) w).
  assert (Hb : (0 <=? Account._balance (Account.of_row k r))%float = true)
    by exact (Hw k r Hrow).
  destruct (perform c (Account.of_row k r) w1) as [[ok a'] w2] eqn:Hp.
  destruct (perform_keeps c _ a' w1 w2 ok Hc Hb Hp) as [Hb' _].
  pose proof (perform_snapshot c (Account.of_row k r) w1) as Hs.
  pose proof (perform_accounts c (Account.of_row k r) w1) as Ha.
  rewrite Hp in Hs, Ha. cbn [fst snd] in Hs, Ha |- *.
  intros j rj. rewrite Ha. change (db w1) with (db w).
  destruct (passes_guards c (Account.of_row k r) && negb (List.hd false (faults w1)));
    [| apply Hw].
  cbn [Account.of_row Account._account_id].
  destruct (decide (j = k)) as [-> | Hne].
  - rewrite update_row_own, Hrow. intros [= <-]. cbn [with_balance a_balance].
    rewrite Hs in Hb'. exact Hb'.
  - rewrite update_row_other by congruence. apply Hw.
Qed.

(** X11 on the file of [saved_account]: a withdrawal of 30 from account 1. *)
Lemma load_then_keeps_balances_nonneg_witness :
  numeric (Withdraw 30%float) /\ nonneg_balances (db w_account) /\
  nonneg_balances (db (snd (load_then 1 (Withdraw 30%float) w_account))).
Proof.
  assert (H1 : numeric (Withdraw 30%float)) by reflexivity.
  assert (H2 : nonneg_balances (db w_account)).
  { intros j r. unfold w_account, account_world.
    cbn [db execute insert_row fst set_accounts accounts rows create_tables empty_table seq].
    change (0 + 1) with 1.
    destruct (decide (j = 1)) as [-> | Hne].
    - rewrite lookup_insert_eq. intros [= <-]. reflexivity.
    - rewrite lookup_insert_ne by congruence. rewrite lookup_empty. discriminate. }
  split; [exact H1|]. split; [exact H2|].
  exact (load_then_keeps_balances_nonneg 1 (Withdraw 30%float) w_account H1 H2).
Defined.

(** ** Loans *)

Lemma loan_save_new_accepted (l : Loan.t) (w : world) :
  wf_tables (db w) -> List.hd false (faults w) = false ->
  Loan.save_new l w =
    ((Some (seq (loans (db w)) + 1), Loan.set_loan_id (Some (seq (loans (db w)) + 1)) l),
     logged [(INFO, LoanSubmitted (Loan._amount l) (Some (seq (loans (db w)) + 1)))]
       (set_db (fst (execute (InsertLoan (Loan._customer_id l) (Loan._amount l)
                                (Loan._interest_rate l) (Loan._status l)) (db w)))
          (set_faults (List.tl (faults w)) w))).
Proof.
  intros (_ & _ & _ & _ & Hl & _) Hf. destruct Hl as [H0 _].
  unfold Loan.save_new. unfold bind at 1.
  rewrite execute_dml_accepted by exact Hf. cbn [is_insert execute insert_row snd truthy].
  destruct (Z.eqb_spec (seq (loans (db w)) + 1) 0) as [E | _]; [lia|].
  reflexivity.
Qed.







(** X14.  [approve] touches the status of its own row only.  Whatever the
    loan and the engine do, the customers, accounts, transactions,
    employees and cards are as before, no loan key is handed out, and a
    loan row is as before unless it is stored under the object's key and
    [approve] returns [True]; that row then holds status Approved with its
    other columns as before. *)
Theorem approve_touches_own_status_only (l : Loan.t) (w : world) :
  customers (db (snd (Loan.approve l w))) = customers (db w) /\
  accounts (db (snd (Loan.approve l w))) = accounts (db w) /\
  transactions (db (snd (Loan.approve l w))) = transactions (db w) /\
  employees (db (snd (Loan.approve l w))) = employees (db w) /\
  credit_cards (db (snd (Loan.approve l w))) = credit_cards (db w) /\
  seq (loans (db (snd (Loan.approve l w)))) = seq (loans (db w)) /\
  (forall j : Z,
     Loan._loan_id l <> Some j \/ fst (fst (Loan.approve l w)) = false ->
     rows (loans (db (snd (Loan.approve l w)))) !! j = rows (loans (db w)) !! j) /\
  (forall (k : Z) (r : loan_row),
     Loan._loan_id l = Some k -> rows (loans (db w)) !! k = Some r ->
     fst (fst (Loan.approve l w)) = true ->
     rows (loans (db (snd (Loan.approve l w)))) !! k
     = Some {| l_customer_id := l_customer_id r; l_amount := l_amount r;
               l_interest_rate := l_interest_rate r; l_status := "Approved" |}).
Proof.
  rewrite approve_eq.
  destruct (String.eqb (Loan._status l) "Pending" && truthy (Loan._loan_id l)).
  2: { cbn [fst snd db logged]. repeat split; auto. discriminate. }
  cbv zeta. destruct (List.hd false (faults w)).
  { cbn [fst snd db logged set_faults]. repeat split; auto. discriminate. }
  cbn [fst snd db logged set_db set_faults execute set_loans loans customers accounts
       transactions employees credit_cards].
  repeat (split; [reflexivity|]). split; [apply update_row_seq|]. split.
  - intros j [Hj | Hj]; [now apply update_row_other | discriminate].
  - intros k r Hid Hrow _. rewrite Hid, update_row_own, Hrow. reflexivity.
Qed.

(** X14 on [pending_loan] and its row. *)
Lemma approve_touches_own_status_only_witness :
  Loan._loan_id pending_loan = Some 1 /\
  rows (loans (db w_loan)) !! 1
  = Some {| l_customer_id := Some 1; l_amount := 1000%float;
            l_interest_rate := 0.05%float; l_status := "Pending" |} /\
  fst (fst (Loan.approve pending_loan w_loan)) = true /\
  rows (loans (db (snd (Loan.approve pending_loan w_loan)))) !! 1
  = Some {| l_customer_id := Some 1; l_amount := 1000%float;
            l_interest_rate := 0.05%float; l_status := "Approved" |}.
Proof.
  assert (H1 : Loan._loan_id pending_loan = Some 1) by reflexivity.
  assert (H2 : rows (loans (db w_loan)) !! 1
               = Some {| l_customer_id := Some 1; l_amount := 1000%float;
                         l_interest_rate := 0.05%float; l_status := "Pending" |})
    by reflexivity.
  assert (H3 : fst (fst (Loan.approve pending_loan w_loan)) = true) by reflexivity.
  split; [exact H1|]. split; [exact H2|]. split; [exact H3|].
  exact (proj2 (proj2 (proj2 (proj2 (proj2 (proj2 (proj2
           (approve_touches_own_status_only pending_loan w_loan))))))) 1 _ H1 H2 H3).
Defined.

(** ** Credit cards *)

(** X15.  [make_purchase] writes the debt of its snapshot.  Whatever the
    card, the amount and the engine do, the customers, accounts,
    transactions, employees and loans are as before, no card key is handed
    out, and a card row is as before unless it is stored under the object's
    key and [make_purchase] returns [True]; that row then holds the
    snapshot's debt plus the amount, whatever debt it held, with its other
    columns as before. *)
Theorem make_purchase_writes_snapshot_debt (c : CreditCard.t) (x : float) (w : world) :
  customers (db (snd (CreditCard.make_purchase c x w))) = customers (db w) /\
  accounts (db (snd (CreditCard.make_purchase c x w))) = accounts (db w) /\
  transactions (db (snd (CreditCard.make_purchase c x w))) = transactions (db w) /\
  employees (db (snd (CreditCard.make_purchase c x w))) = employees (db w) /\
  loans (db (snd (CreditCard.make_purchase c x w))) = loans (db w) /\
  seq (credit_cards (db (snd (CreditCard.make_purchase c x w))))
  = seq (credit_cards (db w)) /\
  (forall j : Z,
     CreditCard._card_id c <> Some j \/ fst (fst (CreditCard.make_purchase c x w)) = false ->
     rows (credit_cards (db (snd (CreditCard.make_purchase c x w)))) !! j
     = rows (credit_cards (db w)) !! j) /\
  (forall (k : Z) (r : card_row),
     CreditCard._card_id c = Some k -> rows (credit_cards (db w)) !! k = Some r ->
     fst (fst (CreditCard.make_purchase c x w)) = true ->
     rows (credit_cards (db (snd (CreditCard.make_purchase c x w)))) !! k
     = Some {| k_customer_id := k_customer_id r; k_credit_limit := k_credit_limit r;
               k_current_debt := (CreditCard._current_debt c + x)%float;
               k_is_active := k_is_active r |}).
Proof.
  rewrite make_purchase_eq.
  destruct (x <=? 0)%float.
  { cbn [fst snd db logged]. repeat split; auto. discriminate. }
  destruct (CreditCard.available_credit c <? x)%float.
  { cbn [fst snd db logged]. repeat split; auto. discriminate. }
  cbv zeta. destruct (List.hd false (faults w)).
  { cbn [fst snd db logged set_faults]. repeat split; auto. discriminate. }
  cbn [fst snd db logged set_db set_faults execute set_credit_cards loans customers accounts
       transactions employees credit_cards].
  repeat (split; [reflexivity|]). split; [apply update_row_seq|]. split.
  - intros j [Hj | Hj]; [now apply update_row_other | discriminate].
  - intros k r Hid Hrow _. rewrite Hid, update_row_own, Hrow. reflexivity.
Qed.

(** X15 on a file whose card row holds a debt of 300, and an object for it
    whose snapshot says 0: a purchase of 100 leaves a debt of 100 in the
    row. *)
Lemma make_purchase_writes_snapshot_debt_witness :
  CreditCard._card_id saved_card = Some 1 /\
  rows (credit_cards (db (card_world 500%float 300%float []))) !! 1
  = Some {| k_customer_id := Some 1; k_credit_limit := 500%float;
            k_current_debt := 300%float; k_is_active := 1 |} /\
  fst (fst (CreditCard.make_purchase saved_card 100%float
              (card_world 500%float 300%float []))) = true /\
  rows (credit_cards
          (db (snd (CreditCard.make_purchase saved_card 100%float
                      (card_world 500%float 300%float []))))) !! 1
  = Some {| k_customer_id := Some 1; k_credit_limit := 500%float;
            k_current_debt := 100%float; k_is_active := 1 |}.
Proof.
  assert (H1 : CreditCard._card_id saved_card = Some 1) by reflexivity.
  assert (H2 : rows (credit_cards (db (card_world 500%float 300%float []))) !! 1
               = Some {| k_customer_id := Some 1; k_credit_limit := 500%float;
                         k_current_debt := 300%float; k_is_active := 1 |})
    by reflexivity.
  assert (H3 : fst (fst (CreditCard.make_purchase saved_card 100%float
                           (card_world 500%float 300%float []))) = true)
    by reflexivity.
  split; [exact H1|]. split; [exact H2|]. split; [exact H3|].
  exact (proj2 (proj2 (proj2 (proj2 (proj2 (proj2 (proj2
           (make_purchase_writes_snapshot_debt saved_card 100%float
              (card_world 500%float 300%float [])))))))) 1 _ H1 H2 H3).
Defined.

(** X16.  The debt stays non-negative.  For a card whose debt is [>= 0]
    and an amount that is a number (not NaN), the snapshot [make_purchase]
    leaves has a debt [>= 0], whether the purchase is made, refused, or
    fails in the engine. *)
Theorem purchase_keeps_debt_nonneg (c : CreditCard.t) (x : float) (w : world) :
  (0 <=? CreditCard._current_debt c)%float = true -> is_nan x = false ->
  (0 <=? CreditCard._current_debt (snd (fst (CreditCard.make_purchase c x w))))%float
  = true.
Proof.
  intros Hd Hx. rewrite make_purchase_eq.
  destruct (x <=? 0)%float eqn:H0; [exact Hd|].
  destruct (CreditCard.available_credit c <? x)%float; [exact Hd|].
  assert (H : (0 <=? CreditCard._current_debt c + x)%float = true)
    by (apply add_nonneg; [exact Hd | now apply positive_nonneg]).
  cbv zeta. destruct (List.hd false (faults w)); exact H.
Qed.

(** X16 on [saved_card]: a purchase of 200. *)
Lemma purchase_keeps_debt_nonneg_witness :
  (0 <=? CreditCard._current_debt saved_card)%float = true /\
  is_nan 200%float = false /\
  (0 <=? CreditCard._current_debt
           (snd (fst (CreditCard.make_purchase saved_card 200%float w_card))))%float
  = true.
Proof.
  split; [reflexivity|]. split; [reflexivity|].
  exact (purchase_keeps_debt_nonneg saved_card 200%float w_card eq_refl eq_refl).
Defined.

(** ** Saving employees and cards *)

Lemma employee_save_new_accepted (e : Employee.t) (w : world) :
  wf_tables (db w) -> List.hd false (faults w) = false ->
  Employee.save_new e w =
    ((Some (seq (employees (db w)) + 1),
      Employee.set_employee_id (Some (seq (employees (db w)) + 1)) e),
     logged [(INFO, EmployeeOnboarded (Employee._first_name e) (Employee._last_name e)
                      (Some (seq (employees (db w)) + 1)))]
       (set_db (fst (execute (InsertEmployee (Employee._first_name e)
                                (Employee._last_name e) (Employee._position e)
                                (Employee._salary e)) (db w)))
          (set_faults (List.tl (faults w)) w))).
Proof.
  intros (_ & _ & _ & He & _) Hf. destruct He as [H0 _].
  unfold Employee.save_new. unfold bind at 1.
  rewrite execute_dml_accepted by exact Hf. cbn [is_insert execute insert_row snd truthy].
  destruct (Z.eqb_spec (seq (employees (db w)) + 1) 0) as [E | _]; [lia|].
  reflexivity.
Qed.

Lemma card_save_new_accepted (c : CreditCard.t) (w : world) :
  wf_tables (db w) -> List.hd false (faults w) = false ->
  CreditCard.save_new c w =
    ((Some (seq (credit_cards (db w)) + 1),
      CreditCard.set_card_id (Some (seq (credit_cards (db w)) + 1)) c),
     logged [(INFO, CardIssued (CreditCard._credit_limit c)
                      (Some (seq (credit_cards (db w)) + 1)) (CreditCard._customer_id c))]
       (set_db (fst (execute (InsertCreditCard (CreditCard._customer_id c)
                                (CreditCard._credit_limit c) (CreditCard._current_debt c))
                       (db w)))
          (set_faults (List.tl (faults w)) w))).
Proof.
  intros (_ & _ & _ & _ & _ & Hk) Hf. destruct Hk as [H0 _].
  unfold CreditCard.save_new. unfold bind at 1.
  rewrite execute_dml_accepted by exact Hf. cbn [is_insert execute insert_row snd truthy].
  destruct (Z.eqb_spec (seq (credit_cards (db w)) + 1) 0) as [E | _]; [lia|].
  reflexivity.
Qed.

(** X17.  What [save_new] stores for an employee, a loan and a card.  On a
    well-formed file, when the engine accepts the [INSERT], [save_new]
    returns a key that was not in use, the object carries it, and a row is
    stored under it with the texts and the customer key of the object.  A
    number of the object that is not NaN is stored as a number that
    compares equal to it; a NaN salary is stored as [NULL].  A card is
    stored active whatever [is_active] the object holds, since the [INSERT]
    leaves that column to its default. *)
Theorem save_new_stores_row (w : world) :
  wf_tables (db w) -> List.hd false (faults w) = false ->
  (forall e : Employee.t,
     exists k r, 1 <= k /\ rows (employees (db w)) !! k = None /\
       fst (fst (Employee.save_new e w)) = Some k /\
       Employee._employee_id (snd (fst (Employee.save_new e w))) = Some k /\
       rows (employees (db (snd (Employee.save_new e w)))) !! k = Some r /\
       e_first_name r = Employee._first_name e /\
       e_last_name r = Employee._last_name e /\
       e_position r = Employee._position e /\
       (is_nan (Employee._salary e) = true -> e_salary r = None) /\
       (is_nan (Employee._salary e) = false ->
        exists s, e_salary r = Some s /\ (s =? Employee._salary e)%float = true)) /\
  (forall l : Loan.t,
     exists k r, 1 <= k /\ rows (loans (db w)) !! k = None /\
       fst (fst (Loan.save_new l w)) = Some k /\
       Loan._loan_id (snd (fst (Loan.save_new l w))) = Some k /\
       rows (loans (db (snd (Loan.save_new l w)))) !! k = Some r /\
       l_customer_id r = Loan._customer_id l /\
       l_status r = Loan._status l /\
       (is_nan (Loan._amount l) = false ->
        (l_amount r =? Loan._amount l)%float = true) /\
       (is_nan (Loan._interest_rate l) = false ->
        (l_interest_rate r =? Loan._interest_rate l)%float = true)) /\
  (forall c : CreditCard.t,
     exists k r, 1 <= k /\ rows (credit_cards (db w)) !! k = None /\
       fst (fst (CreditCard.save_new c w)) = Some k /\
       CreditCard._card_id (snd (fst (CreditCard.save_new c w))) = Some k /\
       rows (credit_cards (db (snd (CreditCard.save_new c w)))) !! k = Some r /\
       k_customer_id r = CreditCard._customer_id c /\
       k_is_active r = 1 /\
       (is_nan (CreditCard._credit_limit c) = false ->
        (k_credit_limit r =? CreditCard._credit_limit c)%float = true) /\
       (is_nan (CreditCard._current_debt c) = false ->
        (k_current_debt r =? CreditCard._current_debt c)%float = true)).
Proof.
  intros Hwf Hf. pose proof Hwf as (_ & _ & _ & He & Hl & Hk).
  assert (Heq : forall x : float, is_nan x = false -> (x =? x)%float = true).
  { intros x H. unfold is_nan in H. now apply negb_false_iff in H. }
  split; [| split].
  - intros e. eexists (seq (employees (db w)) + 1), _.
    split; [destruct He; lia|]. split; [now apply wf_next_key_free|].
    rewrite employee_save_new_accepted by assumption.
    split; [reflexivity|]. split; [reflexivity|]. split.
    { cbn [snd db logged set_db execute fst set_employees employees insert_row rows].
      apply lookup_insert_eq. }
    cbn [e_first_name e_last_name e_position e_salary].
    repeat (split; [reflexivity|]). split; intros H; rewrite H; [reflexivity|].
    eexists. split; [reflexivity | now apply Heq].
  - intros l. eexists (seq (loans (db w)) + 1), _.
    split; [destruct Hl; lia|]. split; [now apply wf_next_key_free|].
    rewrite loan_save_new_accepted by assumption.
    split; [reflexivity|]. split; [reflexivity|]. split.
    { cbn [snd db logged set_db execute fst set_loans loans insert_row rows].
      apply lookup_insert_eq. }
    cbn [l_customer_id l_status l_amount l_interest_rate].
    repeat (split; [reflexivity|]). split; apply Heq.
  - intros c. eexists (seq (credit_cards (db w)) + 1), _.
    split; [destruct Hk; lia|]. split; [now apply wf_next_key_free|].
    rewrite card_save_new_accepted by assumption.
    split; [reflexivity|]. split; [reflexivity|]. split.
    { cbn [snd db logged set_db execute fst set_credit_cards credit_cards insert_row rows].
      apply lookup_insert_eq. }
    cbn [k_customer_id k_is_active k_credit_limit k_current_debt].
    repeat (split; [reflexivity|]). split; apply Heq.
Qed.

(** X17 on a new file: a card whose object says it is inactive. *)
Lemma save_new_stores_row_witness :
  wf_tables (db (fresh_world [])) /\
  exists k r, 1 <= k /\ rows (credit_cards (db (fresh_world []))) !! k = None /\
    fst (fst (CreditCard.save_new inactive_card (fresh_world []))) = Some k /\
    CreditCard._card_id (snd (fst (CreditCard.save_new inactive_card
                                     (fresh_world [])))) = Some k /\
    rows (credit_cards (db (snd (CreditCard.save_new inactive_card
                                   (fresh_world []))))) !! k = Some r /\
    k_customer_id r = CreditCard._customer_id inactive_card /\
    k_is_active r = 1 /\
    (is_nan (CreditCard._credit_limit inactive_card) = false ->
     (k_credit_limit r =? CreditCard._credit_limit inactive_card)%float
     = true) /\
    (is_nan (CreditCard._current_debt inactive_card) = false ->
     (k_current_debt r =? CreditCard._current_debt inactive_card)%float
     = true).
Proof.
  split; [exact create_tables_wf|].
  exact (proj2 (proj2 (save_new_stores_row (fresh_world []) create_tables_wf eq_refl))
           inactive_card).
Defined.

(** X18.  [save_new] does not look at the key of the object.  On a
    well-formed file, when the engine accepts both [INSERT]s, calling
    [Account.save_new] again on the object it has just saved stores a second
    row with the same customer, balance and type under the next key, and
    moves the object to that key. *)
Theorem account_saved_twice_is_stored_twice (a : Account.t) (w : world) :
  wf_tables (db w) ->
  List.hd false (faults w) = false ->
  List.hd false (List.tl (faults w)) = false ->
  exists k r,
    fst (Account.save_new a w) = (Some k, Account.set_account_id (Some k) a) /\
    fst (Account.save_new (snd (fst (Account.save_new a w))) (snd (Account.save_new a w)))
    = (Some (k + 1), Account.set_account_id (Some (k + 1)) a) /\
    rows (accounts (db (snd (Account.save_new (snd (fst (Account.save_new a w)))
                               (snd (Account.save_new a w)))))) !! k = Some r /\
    rows (accounts (db (snd (Account.save_new (snd (fst (Account.save_new a w)))
                               (snd (Account.save_new a w)))))) !! (k + 1) = Some r.
Proof.
  intros Hwf Hf1 Hf2.
  exists (seq (accounts (db w)) + 1),
    {| a_customer_id := Account._customer_id a; a_balance := Account._balance a;
       a_account_type := Account._account_type a; a_is_active := 1 |}.
  rewrite (account_save_new_accepted a w) by assumption. cbn [fst snd].
  split; [reflexivity|].
  rewrite account_save_new_accepted.
  - cbn [fst snd db logged set_db set_faults execute set_accounts accounts insert_row
         seq rows Account.set_account_id Account._customer_id Account._balance
         Account._account_type Account._is_active].
    split; [reflexivity|]. split.
    + rewrite lookup_insert_ne by lia. apply lookup_insert_eq.
    + apply lookup_insert_eq.
  - cbn [db logged set_db]. now apply execute_wf.
  - exact Hf2.
Qed.

(** X18 on a new file and an account object that was never saved. *)
Lemma account_saved_twice_is_stored_twice_witness :
  wf_tables (db (fresh_world [])) /\
  exists k r,
    fst (Account.save_new new_account (fresh_world []))
    = (Some k, Account.set_account_id (Some k) new_account) /\
    fst (Account.save_new (snd (fst (Account.save_new new_account (fresh_world []))))
           (snd (Account.save_new new_account (fresh_world []))))
    = (Some (k + 1), Account.set_account_id (Some (k + 1)) new_account) /\
    rows (accounts
            (db (snd (Account.save_new
                        (snd (fst (Account.save_new new_account (fresh_world []))))
                        (snd (Account.save_new new_account (fresh_world []))))))) !! k
    = Some r /\
    rows (accounts
            (db (snd (Account.save_new
                        (snd (fst (Account.save_new new_account (fresh_world []))))
                        (snd (Account.save_new new_account (fresh_world []))))))) !! (k + 1)
    = Some r.
Proof.
  split; [exact create_tables_wf|].
  exact (account_saved_twice_is_stored_twice new_account (fresh_world [])
           create_tables_wf eq_refl eq_refl).
Defined.

(** ** The names [create_customer] stores *)

Lemma rstrip_idem (s : string) : rstrip (rstrip s) = rstrip s.
Proof.
  induction s as [| c s IH]; [reflexivity|]. cbn [rstrip].
  destruct (rstrip s) as [| d t] eqn:E.
  - destruct (is_space c) eqn:Hc; [reflexivity|]. cbn [rstrip]. now rewrite Hc.
  - cbn [rstrip]. cbn [rstrip] in IH. rewrite IH. reflexivity.
Qed.

Lemma rstrip_head (c : ascii) (s : string) :
  is_space c = false -> exists t, rstrip (String c s) = String c t.
Proof.
  intros Hc. cbn [rstrip]. destruct (rstrip s); [rewrite Hc|]; eauto.
Qed.

Lemma lstrip_head (s : string) :
  lstrip s = EmptyString \/ exists c t, lstrip s = String c t /\ is_space c = false.
Proof.
  induction s as [| c s IH]; [now left|]. cbn [lstrip].
  destruct (is_space c) eqn:Hc; [exact IH | right; eauto].
Qed.

Lemma strip_idem (s : string) : strip (strip s) = strip s.
Proof.
  unfold strip. destruct (lstrip_head s) as [-> | (c & t & -> & Hc)]; [reflexivity|].
  destruct (rstrip_head c t Hc) as [t' E]. rewrite E.
  cbn [lstrip]. rewrite Hc, <- E. apply rstrip_idem.
Qed.

Lemma create_customer_db (line1 line2 line3 : string) (w : world) :
  db (snd (BankSystem.create_customer line1 line2 line3 w)) =
    if str_empty (strip line1) || str_empty (strip line2) then db w
    else if List.hd false (faults w) then db w
    else fst (execute (InsertCustomer (strip line1) (strip line2) (strip line3)
                         (List.hd EmptyString (clock w))) (db w)).
Proof.
  unfold BankSystem.create_customer.
  destruct (str_empty (strip line1) || str_empty (strip line2)); [reflexivity|].
  cbv [Customer.__init__ Customer.save_new bind now ret].
  cbn [Customer._first_name Customer._last_name Customer._address Customer._join_date].
  match goal with |- context [BaseEntity._execute_dml ?q ?w1] =>
    pose proof (execute_dml_db q w1) as H;
    destruct (BaseEntity._execute_dml q w1) as [r w2] end.
  cbn [snd] in H. cbn [set_clock faults db] in H.
  destruct (truthy r); cbn; exact H.
Qed.

(** X19.  The names that [create_customer] stores are clean.  A new file
    holds clean names, and [create_customer] keeps them so whatever is
    typed: every customer row has a first and a last name that are not
    empty, and names and address that [strip] would leave unchanged. *)
Theorem create_customer_keeps_names_clean :
  clean_names create_tables /\
  forall (line1 line2 line3 : string) (w : world),
    clean_names (db w) ->
    clean_names (db (snd (BankSystem.create_customer line1 line2 line3 w))).
Proof.
  split.
  { intros k r H. cbn in H. rewrite lookup_empty in H. discriminate. }
  intros line1 line2 line3 w Hw. rewrite create_customer_db.
  destruct (str_empty (strip line1)) eqn:H1; [exact Hw|].
  destruct (str_empty (strip line2)) eqn:H2; [exact Hw|]. cbn [orb].
  destruct (List.hd false (faults w)); [exact Hw|].
  intros k r. cbn [execute insert_row fst set_customers customers rows].
  destruct (decide (k = seq (customers (db w)) + 1)) as [-> | Hne].
  - rewrite lookup_insert_eq. intros [= <-].
    cbn [c_first_name c_last_name c_address]. unfold stripped.
    rewrite !strip_idem. repeat split.
    + intros E. rewrite E in H1. discriminate.
    + intros E. rewrite E in H2. discriminate.
  - rewrite lookup_insert_ne by congruence. apply Hw.
Qed.

(** X19 on a new file: names typed with blanks around them. *)
Lemma create_customer_keeps_names_clean_witness :
  clean_names (db (fresh_world [])) /\
  clean_names (db (snd (BankSystem.create_customer "  Ada " " Lovelace" " 12 St James Square "
                          (fresh_world [])))).
Proof.
  split; [exact (proj1 create_customer_keeps_names_clean)|].
  exact (proj2 create_customer_keeps_names_clean "  Ada " " Lovelace" " 12 St James Square "
           (fresh_world []) (proj1 create_customer_keeps_names_clean)).
Defined.

(** ** Employees at the prompt *)

(** X20.  [add_employee] checks the salary only.  When the salary typed is
    not a number no statement is sent: tables and engine are untouched.
    When it is, the [INSERT] carries the three stripped lines and the
    salary, with no test on any of them, so a blank first name is stored
    as the empty string. *)
Theorem add_employee_checks_salary_only (line1 line2 line3 : string) (w : world) :
  (db (snd (BankSystem.add_employee line1 line2 line3 None w)) = db w /\
   faults (snd (BankSystem.add_employee line1 line2 line3 None w)) = faults w) /\
  (forall salary : float,
     db (snd (BankSystem.add_employee line1 line2 line3 (Some salary) w)) =
       if List.hd false (faults w) then db w
       else fst (execute (InsertEmployee (strip line1) (strip line2) (strip line3) salary)
                   (db w))) /\
  (forall salary : float,
     List.hd false (faults w) = false -> strip line1 = EmptyString ->
     e_first_name <$>
       rows (employees (db (snd (BankSystem.add_employee line1 line2 line3 (Some salary) w))))
         !! (seq (employees (db w)) + 1) = Some EmptyString).
Proof.
  assert (Hdb : forall salary : float,
     db (snd (BankSystem.add_employee line1 line2 line3 (Some salary) w)) =
       if List.hd false (faults w) then db w
       else fst (execute (InsertEmployee (strip line1) (strip line2) (strip line3) salary)
                   (db w))).
  { intros salary. unfold BankSystem.add_employee, Employee.save_new.
    cbv [bind ret].
    cbn [Employee._first_name Employee._last_name Employee._position Employee._salary].
    match goal with |- context [BaseEntity._execute_dml ?q ?w1] =>
      pose proof (execute_dml_db q w1) as H;
      destruct (BaseEntity._execute_dml q w1) as [r w2] end.
    cbn [snd] in H. destruct (truthy r); cbn; exact H. }
  split; [split; reflexivity|]. split; [exact Hdb|].
  intros salary Hf H1. rewrite Hdb, Hf, H1.
  cbn [execute insert_row fst set_employees employees rows].
  rewrite lookup_insert_eq. reflexivity.
Qed.

(** X20 on a new file: two blank names. *)
Lemma add_employee_checks_salary_only_witness :
  strip "  " = EmptyString /\
  e_first_name <$>
    rows (employees (db (snd (BankSystem.add_employee "  " " " "Teller" (Some 1000%float)
                                (fresh_world [])))))
      !! (seq (employees (db (fresh_world []))) + 1) = Some EmptyString.
Proof.
  split; [reflexivity|].
  exact (proj2 (proj2 (add_employee_checks_salary_only "  " " " "Teller" (fresh_world [])))
           1000%float eq_refl eq_refl).
Defined.

(** ** Keys, through the entity layer *)

Lemma perform_wf (c : call) (a : Account.t) (w : world) :
  wf_tables (db w) -> wf_tables (db (snd (perform c a w))).
Proof.
  intros (Hc & Ha & Ht & He & Hl & Hk).
  destruct (perform_other_tables c a w) as (H1 & H2 & H3 & H4).
  unfold wf_tables. rewrite H1, H2, H3, H4, perform_accounts, perform_transactions.
  split; [exact Hc|]. split; [| split; [| split; [exact He | split; [exact Hl | exact Hk]]]].
  - destruct (passes_guards c a && negb (List.hd false (faults w)));
      [now apply wf_update_row | exact Ha].
  - destruct (passes_guards c a && negb (List.hd false (faults w))
              && negb (List.hd false (List.tl (faults w))));
      [now apply wf_insert_row | exact Ht].
Qed.

(** X21.  Keys stay in range through any sequence of calls on an account:
    after the [deposit] and [withdraw] calls of [cs], every table of a
    well-formed file still has its keys between 1 and the last key handed
    out, so the next [INSERT] gets a key that is not in use. *)
Theorem calls_keep_keys_in_range (cs : list call) (a : Account.t) (w : world) :
  wf_tables (db w) ->
  wf_tables (db (snd (perform_all cs a w))) /\
  rows (transactions (db (snd (perform_all cs a w))))
    !! (seq (transactions (db (snd (perform_all cs a w)))) + 1) = None.
Proof.
  intros Hw.
  assert (H : wf_tables (db (snd (perform_all cs a w)))).
  { revert a w Hw. induction cs as [| c cs IH]; intros a w Hw; [exact Hw|].
    rewrite perform_all_cons. cbn [snd]. apply IH. now apply perform_wf. }
  split; [exact H|]. apply wf_next_key_free. apply H.
Qed.

(** X21 on the file of [saved_account]: a deposit, then a withdrawal. *)
Lemma calls_keep_keys_in_range_witness :
  wf_tables (db w_account) /\
  wf_tables (db (snd (perform_all [Deposit 50%float; Withdraw 30%float]
                        saved_account w_account))).
Proof.
  assert (H : wf_tables (db w_account)) by (apply execute_wf; exact create_tables_wf).
  split; [exact H|].
  exact (proj1 (calls_keep_keys_in_range [Deposit 50%float; Withdraw 30%float]
                  saved_account w_account H)).
Defined.
